(** * Queueing simulations on a discrete-event kernel

    Shallow embedding of the two simulation models of the repository:
    the food store of [TaskA.py] ([Supermarket], [CustomerProcess],
    [CustomerGenerator], [RunSim]) and the library of [TaskB.py]
    ([Library], [ReaderProcess], [ReaderGenerator], [RunSim]).

    Both programs are written as Python generators driven by the simpy
    event loop.  The part of simpy they use is embedded in [Simpy]: the
    event heap ordered by (time, priority, insertion number), [Resource]
    with its user list and put queue, [Environment.step] and
    [Environment.run].  A generator is represented by the frame it is
    suspended in (one constructor per [yield]); resuming a frame runs the
    code up to the next [yield].

    Numbers: Python floats are read as exact rationals ([Q]); integers as
    [Z].  Rounding is not modelled.  An integer at or beyond
    [float_limit] does not convert to a float: the division [1.0 / n]
    raises [OverflowError] on it; where else an integer parameter meets a
    float, statements about what is raised are made for numbers below
    [float_limit].  The pseudo-random stream is an explicit input: the
    [k]-th call into [random] consumes the [k]-th element of the
    stream. *)

From Stdlib Require Import List ZArith QArith Qminmax Qround Lia Lqa String Bool Sorted.
From Stdlib Require Reals Qreals Lra.
Import ListNotations.

Set Implicit Arguments.

(** ** The exponential variate of Python's [random], over the reals *)

Module Sampling.
Import Reals.
Local Open Scope R_scope.

(** [random.expovariate(lambd)] is [-log(1 - random()) / lambd]: the
    standard exponential variate [-log(1 - u)] of a draw [u] of
    [random()], divided by [lambd]. *)
Definition standard_exponential (u : R) : R := - ln (1 - u).

End Sampling.

Local Open Scope Q_scope.

(** Python's [a < b] and [a <= b] on numbers. *)
Definition Qltb (a b : Q) : bool :=
  match a ?= b with Lt => true | _ => false end.

Definition Qleb (a b : Q) : bool :=
  match a ?= b with Gt => false | _ => true end.

(** The least integer that does not convert to a float: half-way between
    [sys.float_info.max], which is [2 ^ 1024 - 2 ^ 971], and [2 ^ 1024]. *)
Definition float_limit : Q := inject_Z (2 ^ 1024 - 2 ^ 970).

(** numpy's [POISSON_LAM_MAX], 9.223372006484771e+18 (with 64-bit
    integers): the greatest mean that [np.random.poisson] accepts. *)
Definition POISSON_LAM_MAX : Q := inject_Z 9223372006484770816.

(** ** The simpy kernel *)

Module Simpy.

Inductive Exception : Set :=
| ValueError          (* negative delay, [until] not in the future, empty range *)
| ZeroDivisionError
| OverflowError       (* an integer too large to convert to a float *)
| IndexError          (* list index out of range *)
| RuntimeError.       (* a generator resumed by an event it does not wait for *)

(** [simpy.core.URGENT = 0], [simpy.core.NORMAL = 1]. *)
Inductive Priority : Set := URGENT | NORMAL.

Definition priority_value (p : Priority) : nat :=
  match p with URGENT => 0%nat | NORMAL => 1%nat end.

(** The events the two programs schedule.  An event is identified with
    what processing it does (its callbacks):
    - [Initialize pid]: starts the generator of process [pid];
    - [Timeout pid]: a timeout yielded by [pid], resumes it;
    - [Request res pid]: a granted request of [pid] on resource [res],
      resumes it;
    - [Release res]: a release of [res], its callback grants the head of
      the put queue;
    - [Process pid]: the event of a generator that returned (no callback);
    - [Until]: the stop event of [run(until=..)]. *)
Inductive Event : Set :=
| Initialize (pid : nat)
| Timeout (pid : nat)
| Request (res pid : nat)
| Release (res : nat)
| Process (pid : nat)
| Until.

(** An entry [(time, priority, eid, event)] of [Environment._queue]. *)
Record Scheduled : Set := mkScheduled {
  at_time : Q;
  priority : Priority;
  eid : nat;
  event : Event
}.

(** Tuple comparison of heap entries. *)
Definition before (a b : Scheduled) : bool :=
  match at_time a ?= at_time b with
  | Lt => true
  | Gt => false
  | Eq =>
      if (priority_value (priority a) <? priority_value (priority b))%nat then true
      else if (priority_value (priority b) <? priority_value (priority a))%nat then false
      else (eid a <? eid b)%nat
  end.

(** [heappop]: the least entry and the remaining ones. *)
Fixpoint heappop (q : list Scheduled) : option (Scheduled * list Scheduled) :=
  match q with
  | [] => None
  | x :: q' =>
      match heappop q' with
      | None => Some (x, [])
      | Some (m, r) => if before x m then Some (x, q') else Some (m, x :: r)
      end
  end.

(** [simpy.Resource]: [users] are the granted requests, [queue] (the put
    queue) the waiting ones; a request is named by the process that made
    it. *)
Record Resource : Set := mkResource {
  capacity : nat;
  users : list nat;
  queue : list nat
}.

(** [Resource.count]. *)
Definition count (r : Resource) : nat := List.length (users r).

Section Kernel.

(** [Frame]: suspended generators of the model; [Model]: the model object
    ([Supermarket] or [Library]). *)
Variables Frame Model : Type.

Record World : Type := mkWorld {
  now : Q;                          (* Environment._now *)
  next_eid : nat;                   (* Environment._eid *)
  heap : list Scheduled;            (* Environment._queue *)
  resources : nat -> Resource;
  processes : nat -> option Frame;
  next_pid : nat;
  random_stream : nat -> Q;
  random_pos : nat;
  obj : Model
}.

Definition with_heap (w : World) (t : Q) (e : nat) (h : list Scheduled) : World :=
  mkWorld t e h (resources w) (processes w) (next_pid w)
          (random_stream w) (random_pos w) (obj w).

Definition with_resource (w : World) (res : nat) (r : Resource) : World :=
  mkWorld (now w) (next_eid w) (heap w)
          (fun k => if (k =? res)%nat then r else resources w k)
          (processes w) (next_pid w) (random_stream w) (random_pos w) (obj w).

Definition with_process (w : World) (pid : nat) (f : Frame) : World :=
  mkWorld (now w) (next_eid w) (heap w) (resources w)
          (fun k => if (k =? pid)%nat then Some f else processes w k)
          (next_pid w) (random_stream w) (random_pos w) (obj w).

Definition with_obj (w : World) (m : Model) : World :=
  mkWorld (now w) (next_eid w) (heap w) (resources w) (processes w) (next_pid w)
          (random_stream w) (random_pos w) m.

(** Code that runs between two [yield]s: a state and exception monad. *)
Inductive Outcome (A : Type) : Type :=
| Ok (a : A) (w : World)
| Raised (e : Exception).
Arguments Raised {A} e.

Definition Sim (A : Type) : Type := World -> Outcome A.

Definition ret {A} (a : A) : Sim A := fun w => Ok a w.

Definition bind {A B} (m : Sim A) (k : A -> Sim B) : Sim B :=
  fun w => match m w with
           | Ok a w' => k a w'
           | Raised e => Raised e
           end.

Definition raise {A} (e : Exception) : Sim A := fun _ => Raised e.

Definition get_now : Sim Q := fun w => Ok (now w) w.

Definition get_obj : Sim Model := fun w => Ok (obj w) w.

Definition modify (f : Model -> Model) : Sim unit :=
  fun w => Ok tt (with_obj w (f (obj w))).

Definition get_resource (res : nat) : Sim Resource :=
  fun w => Ok (resources w res) w.

(** One call into the random stream. *)
Definition draw : Sim Q :=
  fun w => Ok (random_stream w (random_pos w))
              (mkWorld (now w) (next_eid w) (heap w) (resources w) (processes w)
                       (next_pid w) (random_stream w) (S (random_pos w)) (obj w)).

(** [Environment.schedule]: push [(now + delay, priority, eid, event)]. *)
Definition schedule (ev : Event) (p : Priority) (delay : Q) (w : World) : World :=
  with_heap w (now w) (S (next_eid w))
            (mkScheduled (now w + delay) p (next_eid w) ev :: heap w).

(** [yield env.timeout(delay)] of process [pid]; a negative delay raises. *)
Definition timeout (pid : nat) (delay : Q) : Sim unit :=
  fun w => if Qltb delay 0 then Raised ValueError
           else Ok tt (schedule (Timeout pid) NORMAL delay w).

(** [BaseResource._trigger_put] with [Resource._do_put]: only the head of
    the put queue is tried ([_do_put] returns [None], which ends the
    loop); if a slot is free the head becomes a user and its request is
    scheduled. *)
Definition trigger_put (res : nat) (w : World) : World :=
  let r := resources w res in
  match queue r with
  | [] => w
  | head :: rest =>
      if (List.length (users r) <? capacity r)%nat
      then schedule (Request res head) NORMAL 0
             (with_resource w res (mkResource (capacity r) (users r ++ [head]) rest))
      else w
  end.

(** [resource.request()] by [pid]: appended to the put queue, then
    [_trigger_put]. *)
Definition request (res pid : nat) : Sim unit :=
  fun w =>
    let r := resources w res in
    Ok tt (trigger_put res
             (with_resource w res (mkResource (capacity r) (users r) (queue r ++ [pid])))).

Fixpoint remove_first (pid : nat) (l : list nat) : list nat :=
  match l with
  | [] => []
  | x :: l' => if (x =? pid)%nat then l' else x :: remove_first pid l'
  end.

(** Leaving [with resource.request() as req] once the request was granted:
    [resource.release(req)] removes the user at once ([_do_get]) and
    schedules the [Release] event. *)
Definition release (res pid : nat) : Sim unit :=
  fun w =>
    let r := resources w res in
    Ok tt (schedule (Release res) NORMAL 0
             (with_resource w res
                (mkResource (capacity r) (remove_first pid (users r)) (queue r)))).

(** [env.process(generator)]: a new process, started by an urgent
    [Initialize] event. *)
Definition process (f : Frame) : Sim nat :=
  fun w =>
    let pid := next_pid w in
    let w1 := mkWorld (now w) (next_eid w) (heap w) (resources w)
                      (fun k => if (k =? pid)%nat then Some f else processes w k)
                      (S pid) (random_stream w) (random_pos w) (obj w) in
    Ok pid (schedule (Initialize pid) URGENT 0 w1).

(** The generators of the model: [resume pid frame event] runs process
    [pid], suspended in [frame], on [event] up to its next [yield];
    [returned frame] holds when the generator has returned. *)
Variable resume : nat -> Frame -> Event -> Sim Frame.
Variable returned : Frame -> bool.

Inductive StepResult : Type :=
| Continue (w : World)
| StopSimulation (w : World)
| Crash (e : Exception)
| EmptySchedule.

Definition resume_process (pid : nat) (ev : Event) (w : World) : StepResult :=
  match processes w pid with
  | None => Crash RuntimeError
  | Some f =>
      match resume pid f ev w with
      | Raised e => Crash e
      | Ok f' w' =>
          let w'' := with_process w' pid f' in
          Continue (if returned f' then schedule (Process pid) NORMAL 0 w'' else w'')
      end
  end.

(** [Environment.step]: pop the next event, move the clock to it, run its
    callbacks. *)
Definition step (w : World) : StepResult :=
  match heappop (heap w) with
  | None => EmptySchedule
  | Some (s, rest) =>
      let w1 := with_heap w (at_time s) (next_eid w) rest in
      match event s with
      | Until => StopSimulation w1
      | Release res => Continue (trigger_put res w1)
      | Process _ => Continue w1
      | Initialize pid => resume_process pid (event s) w1
      | Timeout pid => resume_process pid (event s) w1
      | Request _ pid => resume_process pid (event s) w1
      end
  end.

Inductive RunResult : Type :=
| Returned (w : World)         (* the [until] event was reached *)
| Failed (e : Exception)       (* an exception left [run] *)
| Running (w : World).         (* still running after [fuel] events *)

Fixpoint run_loop (fuel : nat) (w : World) : RunResult :=
  match fuel with
  | O => Running w
  | S fuel' =>
      match step w with
      | Continue w' => run_loop fuel' w'
      | StopSimulation w' => Returned w'
      | Crash e => Failed e
      | EmptySchedule => Failed RuntimeError
      end
  end.

(** [env.run(until = at)]: [at] must be in the future; the stop event is
    scheduled urgent, then the events are stepped through. *)
Definition launch (at_ : Q) (w : World) : World :=
  schedule Until URGENT (at_ - now w) w.

Definition run (at_ : Q) (fuel : nat) (w : World) : RunResult :=
  if Qleb at_ (now w) then Failed ValueError
  else run_loop fuel (launch at_ w).

(** The worlds the event loop passes through, between two events, when
    it is entered in [w0]. *)
Inductive reachable (w0 : World) : World -> Prop :=
| reachable_start : reachable w0 w0
| reachable_step (w w' : World) :
    reachable w0 w -> step w = Continue w' -> reachable w0 w'.

(** The number of processes, among the first [n], whose frame satisfies
    [select]. *)
Fixpoint count_frames (select : Frame -> bool) (procs : nat -> option Frame)
         (n : nat) : Z :=
  match n with
  | O => 0%Z
  | S k =>
      (count_frames select procs k +
       match procs k with
       | Some f => if select f then 1 else 0
       | None => 0
       end)%Z
  end.

(** [simpy.Environment()] together with the model object and its
    resources. *)
Definition Environment (rs : nat -> Resource) (rng : nat -> Q) (m : Model) : World :=
  mkWorld 0 0 [] rs (fun _ => None) 0 rng 0 m.

End Kernel.

Arguments Raised {Frame Model A} e.
Arguments ret {Frame Model A} a.
Arguments raise {Frame Model A} e.
Arguments Crash {Frame Model} e.
Arguments EmptySchedule {Frame Model}.
Arguments Failed {Frame Model} e.
Arguments launch {Frame Model} at_ w.
Arguments Environment {Frame Model} rs rng m.
Arguments modify {Frame Model} f.
Arguments get_resource {Frame Model} res.
Arguments draw {Frame Model}.
Arguments schedule {Frame Model} ev p delay w.
Arguments timeout {Frame Model} pid delay.
Arguments trigger_put {Frame Model} res w.
Arguments request {Frame Model} res pid.
Arguments release {Frame Model} res pid.
Arguments process {Frame Model} f.
Arguments get_now {Frame Model}.
Arguments get_obj {Frame Model}.

Declare Scope sim_scope.
Delimit Scope sim_scope with sim.
Notation "x <- m ;; k" := (bind m (fun x => k))
  (at level 61, m at next level, right associativity) : sim_scope.
Notation "m ;; k" := (bind m (fun _ => k))
  (at level 61, right associativity) : sim_scope.

Section Random.
Variables Frame Model : Type.
Local Open Scope sim_scope.

(** [random.random()]. *)
Definition random : Sim Frame Model Q := draw.

(** [random.uniform(a, b)] = [a + (b - a) * random()]. *)
Definition uniform (a b : Q) : Sim Frame Model Q :=
  u <- random ;; ret (a + (b - a) * u).

(** [random.randint(a, b)] = [a + _randbelow(b - a + 1)]; the integer
    below [b - a + 1] is read off the stream.  An empty range raises. *)
Definition randint (a b : Z) : Sim Frame Model Z :=
  if (b <? a)%Z then raise ValueError
  else k <- random ;; ret (a + Qfloor k mod (b - a + 1))%Z.

(** [random.expovariate(lambd)] = [-log(1 - random()) / lambd]; the
    stream supplies the standard exponential variate [-log(1 - random())]. *)
Definition expovariate (lambd : Q) : Sim Frame Model Q :=
  e <- random ;;
  if Qeq_bool lambd 0 then raise ZeroDivisionError else ret (e / lambd).

(** [random.gauss(mu, sigma)] = [mu + z * sigma]; the stream supplies the
    standard normal variate [z]. *)
Definition gauss (mu sigma : Q) : Sim Frame Model Q :=
  z <- random ;; ret (mu + z * sigma).

(** [np.random.poisson(lam)]: a mean that is negative or above numpy's
    bound raises; the stream supplies the count. *)
Definition poisson (lam : Q) : Sim Frame Model nat :=
  if Qltb lam 0 then raise ValueError
  else if Qltb POISSON_LAM_MAX lam then raise ValueError
  else n <- random ;; ret (Z.to_nat (Qfloor n)).

(** Python's [a / b] for a float [a]: [b], when it is an integer, is
    converted to a float first. *)
Definition divide (a b : Q) : Sim Frame Model Q :=
  if Qeq_bool b 0 then raise ZeroDivisionError
  else if (Qleb float_limit b || Qleb b (- float_limit))%bool then raise OverflowError
  else ret (a / b).

End Random.

Arguments random {Frame Model}.
Arguments uniform {Frame Model} a b.
Arguments randint {Frame Model} a b.
Arguments expovariate {Frame Model} lambd.
Arguments gauss {Frame Model} mu sigma.
Arguments poisson {Frame Model} lam.
Arguments divide {Frame Model} a b.

End Simpy.

(** ** TaskA.py: the food store *)

Module TaskA.
Import Simpy.
Local Open Scope sim_scope.

(** The dictionary [params]. *)
Record Params : Set := mkParams {
  simTime : Q;
  meanInterval : Q;
  payTimePerItem : Q
}.

Definition DEFAULTPARAMS : Params := mkParams (8 * 3600) 75 3.

Record CounterData : Set := mkCounterData {
  probability : Q;
  time : Q * Q;
  purchases : Z * Z
}.

(** [COUNTERSDATA.items()], in insertion order. *)
Definition COUNTERSDATA : list (nat * CounterData) :=
  [ (1%nat, mkCounterData (75 # 100) (120, 60) (3, 1)%Z);
    (2%nat, mkCounterData (55 # 100) (150, 30) (4, 1)%Z);
    (3%nat, mkCounterData (82 # 100) (120, 45) (5, 1)%Z) ].

(** What a Python variable of the customer record may hold: a number, or
    the [simpy.Environment] object itself. *)
Inductive Value : Set :=
| Number (q : Q)
| EnvironmentObject.

(** The dictionary [customerData]. *)
Record CustomerData : Set := mkCustomerData {
  id : nat;
  arrivalTime : Value;
  totalPurchases : Z;
  waitTime : Q;
  serviceTime : Q;
  exitTime : Q
}.

(** The dictionary [self.stats]; lists grow at the right end ([append]). *)
Record Stats : Set := mkStats {
  customersServed : Z;
  maxQueueLength : Z;
  maxBasketsInUse : Z;
  cashierBusyTime : Q;
  queueLengths : list (Q * Z);
  basketsInUse : Z;
  basketsHistory : list (Q * Z);
  serviceTimes : list Q;
  waitTimes : list Q;
  purchaseCounts : list Z;
  customerData : list CustomerData
}.

(** The object [Supermarket]; its resources live in the kernel:
    [self.counters[i]] is resource [counters i], [self.cashier] is
    resource [cashier]. *)
Record Supermarket : Set := mkSupermarket {
  params : Params;
  stats : Stats;
  currentQueueLength : Z;
  cashierBusyStart : option Q
}.

Definition counters (i : nat) : nat := i.
Definition cashier : nat := 3%nat.

Definition Supermarket_init (p : Params) : Supermarket :=
  mkSupermarket p (mkStats 0 0 0 0 [] 0 [] [] [] [] []) 0 None.

(** The frames of the two generators, one per [yield]:
    [CustomerGenerator] sleeps in its timeout; [CustomerProcess] waits for
    a counter, chooses at a counter (both inside [VisitCounters], which
    keeps the rest of its [for] loop), waits for the cashier, or is being
    served (both inside [CashierProcess]). *)
Inductive Frame : Set :=
| GeneratorStart
| GeneratorSleep (customerId : nat)
| CustomerStart (customerId : nat)
| AwaitCounter (customerId counterId : nat) (counterData : CounterData)
               (rest : list (nat * CounterData)) (total : Z)
| AtCounter (customerId counterId : nat) (counterData : CounterData)
            (rest : list (nat * CounterData)) (total : Z)
| AwaitCashier (customerId : nat) (total : Z) (queueStartTime : Q)
| AtCashier (customerId : nat) (total : Z) (queueStartTime : Q)
| CustomerDone (customerId : nat).

Definition returned (f : Frame) : bool :=
  match f with CustomerDone _ => true | _ => false end.

Definition Sim : Type -> Type := Simpy.Sim Frame Supermarket.

Definition set_stats (f : Stats -> Stats) : Sim unit :=
  modify (fun m => mkSupermarket (params m) (f (stats m))
                                 (currentQueueLength m) (cashierBusyStart m)).

Definition UpdateQueueStats : Sim unit :=
  t <- get_now ;;
  modify (fun m =>
    let s := stats m in
    mkSupermarket (params m)
      (mkStats (customersServed s)
               (Z.max (maxQueueLength s) (currentQueueLength m))
               (maxBasketsInUse s) (cashierBusyTime s)
               (queueLengths s ++ [(t, currentQueueLength m)])
               (basketsInUse s) (basketsHistory s) (serviceTimes s)
               (waitTimes s) (purchaseCounts s) (customerData s))
      (currentQueueLength m) (cashierBusyStart m)).

Definition UpdateBasketStats : Sim unit :=
  t <- get_now ;;
  set_stats (fun s =>
    mkStats (customersServed s) (maxQueueLength s)
            (Z.max (maxBasketsInUse s) (basketsInUse s)) (cashierBusyTime s)
            (queueLengths s) (basketsInUse s)
            (basketsHistory s ++ [(t, basketsInUse s)]) (serviceTimes s)
            (waitTimes s) (purchaseCounts s) (customerData s)).

Definition add_basketsInUse (d : Z) : Sim unit :=
  set_stats (fun s =>
    mkStats (customersServed s) (maxQueueLength s) (maxBasketsInUse s)
            (cashierBusyTime s) (queueLengths s) (basketsInUse s + d)
            (basketsHistory s) (serviceTimes s) (waitTimes s)
            (purchaseCounts s) (customerData s)).

Definition add_currentQueueLength (d : Z) : Sim unit :=
  modify (fun m => mkSupermarket (params m) (stats m)
                                 (currentQueueLength m + d) (cashierBusyStart m)).

Definition set_cashierBusyStart (b : option Q) : Sim unit :=
  modify (fun m => mkSupermarket (params m) (stats m) (currentQueueLength m) b).

(** [CashierProcess] up to [yield req]. *)
Definition CashierProcess (pid customerId : nat) (total : Z) (queueStartTime : Q)
  : Sim Frame :=
  add_currentQueueLength 1 ;;
  UpdateQueueStats ;;
  m <- get_obj ;;
  t <- get_now ;;
  (match cashierBusyStart m with
   | None => set_cashierBusyStart (Some t)
   | Some _ => ret tt
   end) ;;
  request cashier pid ;;
  ret (AwaitCashier customerId total queueStartTime).

(** [CashierProcess] from the grant to [yield self.env.timeout(serviceTime)]. *)
Definition CashierProcess_granted (pid customerId : nat) (total : Z)
           (queueStartTime : Q) : Sim Frame :=
  add_currentQueueLength (-1) ;;
  UpdateQueueStats ;;
  m <- get_obj ;;
  let serviceTime := inject_Z total * payTimePerItem (params m) in
  set_stats (fun s =>
    mkStats (customersServed s) (maxQueueLength s) (maxBasketsInUse s)
            (cashierBusyTime s) (queueLengths s) (basketsInUse s)
            (basketsHistory s) (serviceTimes s ++ [serviceTime]) (waitTimes s)
            (purchaseCounts s) (customerData s)) ;;
  timeout pid serviceTime ;;
  ret (AtCashier customerId total queueStartTime).

(** [CashierProcess] after the service, then the rest of
    [CustomerProcess]. *)
Definition CashierProcess_served (pid customerId : nat) (total : Z)
           (queueStartTime : Q) : Sim Frame :=
  m <- get_obj ;;
  t <- get_now ;;
  (match cashierBusyStart m with
   | Some start =>
       set_stats (fun s =>
         mkStats (customersServed s) (maxQueueLength s) (maxBasketsInUse s)
                 (cashierBusyTime s + (t - start)) (queueLengths s)
                 (basketsInUse s) (basketsHistory s) (serviceTimes s)
                 (waitTimes s) (purchaseCounts s) (customerData s)) ;;
       set_cashierBusyStart None
   | None => ret tt
   end) ;;
  release cashier pid ;;
  (* back in CustomerProcess *)
  let waitTime := t - queueStartTime in
  add_basketsInUse (-1) ;;
  UpdateBasketStats ;;
  m <- get_obj ;;
  let record :=
    mkCustomerData customerId EnvironmentObject total waitTime
                   (inject_Z total * payTimePerItem (params m)) t in
  set_stats (fun s =>
    mkStats (customersServed s + 1) (maxQueueLength s) (maxBasketsInUse s)
            (cashierBusyTime s) (queueLengths s) (basketsInUse s)
            (basketsHistory s) (serviceTimes s) (waitTimes s ++ [waitTime])
            (purchaseCounts s ++ [total]) (customerData s ++ [record])) ;;
  ret (CustomerDone customerId).

(** [CustomerProcess] after [yield from self.VisitCounters(..)]. *)
Definition CustomerProcess_checkout (pid customerId : nat) (total : Z) : Sim Frame :=
  extraPurchases <- randint 1 3 ;;
  let total := (total + extraPurchases)%Z in
  queueStartTime <- get_now ;;
  CashierProcess pid customerId total queueStartTime.

(** The [for] loop of [VisitCounters] over the remaining counters, up to
    its next [yield req] or, when the loop is over, on into the checkout. *)
Fixpoint VisitCounters (pid customerId : nat) (items : list (nat * CounterData))
         (total : Z) : Sim Frame :=
  match items with
  | [] => CustomerProcess_checkout pid customerId total
  | (counterId, counterData) :: rest =>
      u <- random ;;
      if Qltb u (probability counterData)
      then request (counters (counterId - 1)) pid ;;
           ret (AwaitCounter customerId counterId counterData rest total)
      else VisitCounters pid customerId rest total
  end.

(** [VisitCounters] from the grant of a counter to
    [yield self.env.timeout(selectionTime)]. *)
Definition VisitCounters_granted (pid customerId counterId : nat)
           (counterData : CounterData) (rest : list (nat * CounterData))
           (total : Z) : Sim Frame :=
  let (baseTime, variation) := time counterData in
  selectionTime <- uniform (Qmax 0 (baseTime - variation)) (baseTime + variation) ;;
  timeout pid selectionTime ;;
  ret (AtCounter customerId counterId counterData rest total).

(** [VisitCounters] after the selection time: the purchases, leaving the
    [with] block, and the next round of the loop. *)
Definition VisitCounters_chosen (pid customerId counterId : nat)
           (counterData : CounterData) (rest : list (nat * CounterData))
           (total : Z) : Sim Frame :=
  let (basePurchases, purchaseVariation) := purchases counterData in
  n <- randint (Z.max 1 (basePurchases - purchaseVariation))
                   (basePurchases + purchaseVariation) ;;
  release (counters (counterId - 1)) pid ;;
  VisitCounters pid customerId rest (total + n)%Z.

(** [CustomerProcess], resumed in a frame by an event. *)
Definition CustomerProcess (pid : nat) (f : Frame) (ev : Event) : Sim Frame :=
  match f, ev with
  | CustomerStart customerId, Initialize _ =>
      (* arrivalTime = self.env *)
      add_basketsInUse 1 ;;
      UpdateBasketStats ;;
      VisitCounters pid customerId COUNTERSDATA 0
  | AwaitCounter customerId counterId cd rest total, Request _ _ =>
      VisitCounters_granted pid customerId counterId cd rest total
  | AtCounter customerId counterId cd rest total, Timeout _ =>
      VisitCounters_chosen pid customerId counterId cd rest total
  | AwaitCashier customerId total queueStartTime, Request _ _ =>
      CashierProcess_granted pid customerId total queueStartTime
  | AtCashier customerId total queueStartTime, Timeout _ =>
      CashierProcess_served pid customerId total queueStartTime
  | _, _ => raise RuntimeError
  end.

(** One round of the [while True] loop of [CustomerGenerator], up to its
    [yield env.timeout(interval)]. *)
Definition CustomerGenerator_loop (pid customerId : nat) : Sim Frame :=
  m <- get_obj ;;
  lambd <- divide 1 (meanInterval (params m)) ;;
  interval <- expovariate lambd ;;
  timeout pid interval ;;
  ret (GeneratorSleep customerId).

Definition CustomerGenerator (pid : nat) (f : Frame) (ev : Event) : Sim Frame :=
  match f, ev with
  | GeneratorStart, Initialize _ => CustomerGenerator_loop pid 1
  | GeneratorSleep customerId, Timeout _ =>
      process (CustomerStart customerId) ;;
      CustomerGenerator_loop pid (customerId + 1)
  | _, _ => raise RuntimeError
  end.

Definition resume (pid : nat) (f : Frame) (ev : Event) : Sim Frame :=
  match f with
  | GeneratorStart | GeneratorSleep _ => CustomerGenerator pid f ev
  | _ => CustomerProcess pid f ev
  end.

Definition step := Simpy.step resume returned.

(** The world after [env.process(CustomerGenerator(env, supermarket))] and
    the scheduling of the stop event. *)
Definition start (p : Params) (rng : nat -> Q) : World Frame Supermarket :=
  match process GeneratorStart
          (Environment (fun _ => mkResource 1 [] []) rng (Supermarket_init p)) with
  | Ok _ w => w
  | Raised _ => Environment (fun _ => mkResource 1 [] []) rng (Supermarket_init p)
  end.

Inductive Result : Type :=
| Return (s : Stats)
| Exception (e : Simpy.Exception)
| Unfinished.

(** The lines of [RunSim] after [env.run]. *)
Definition finish (p : Params) (m : Supermarket) : Stats :=
  let s := stats m in
  match cashierBusyStart m with
  | Some start =>
      mkStats (customersServed s) (maxQueueLength s) (maxBasketsInUse s)
              (cashierBusyTime s + (simTime p - start)) (queueLengths s)
              (basketsInUse s) (basketsHistory s) (serviceTimes s)
              (waitTimes s) (purchaseCounts s) (customerData s)
  | None => s
  end.

(** [RunSim(params)], on a random stream, given [fuel] events to run. *)
Definition RunSim (fuel : nat) (p : Params) (rng : nat -> Q) : Result :=
  match run resume returned (simTime p) fuel (start p rng) with
  | Returned w => Return (finish p (obj w))
  | Failed e => Exception e
  | Running _ => Unfinished
  end.

End TaskA.

(** ** TaskB.py: the library *)

Module TaskB.
Import Simpy.
Local Open Scope sim_scope.

(** The dictionary [params]; the arrival law is a string. *)
Record Params : Set := mkParams {
  SimTime : Q;
  ServeTime : Q * Q;
  ArrivalLaw : string;
  ArrivalTime : Q * Q
}.

Definition LAW_UNIFORM : string := "Безперервний рівномірний".
Definition LAW_EXPONENTIAL : string := "Експоненційний".
Definition LAW_NORMAL : string := "Нормальний".
Definition LAW_POISSON : string := "Пуассона".

(** The dictionary [self.statistic]. *)
Record Statistic : Set := mkStatistic {
  ReaderServed : Z;
  TimeWaiting : list Q;
  TimeServed : list Q;
  MaxQueueLen : Z;
  QueueLen : list (Q * Z);
  LibrarianBusy : list Q;
  BooksPerReader : list Z
}.

(** The object [Library]; [self.librarians[i]] is resource [i] of the
    kernel. *)
Record Library : Set := mkLibrary {
  params : Params;
  statistic : Statistic;
  currentQueueLen : Z
}.

Definition librarians (i : nat) : nat := i.

Definition Library_init (p : Params) : Library :=
  mkLibrary p (mkStatistic 0 [] [] 0 [] [0; 0] []) 0.

(** [l[i] += x]. *)
Fixpoint list_add (i : nat) (x : Q) (l : list Q) : list Q :=
  match l, i with
  | [], _ => []
  | y :: l', O => (y + x) :: l'
  | y :: l', S i' => y :: list_add i' x l'
  end.

(** The frames of [ReaderGenerator] (one sleeping frame per arrival law)
    and of [ReaderProcess] (waiting for the librarian, being served). *)
Inductive Frame : Set :=
| GeneratorStart
| UniformSleep (readerId : nat) (baseTime variation : Q)
| ExponentialSleep (readerId : nat)
| NormalSleep (readerId : nat)
| PoissonSleep (readerId : nat)
| GeneratorReturned
| ReaderStart (readerId : nat)
| AwaitLibrarian (readerId librarIndex : nat) (baseTime variation queueStart : Q)
| AtLibrarian (readerId librarIndex : nat) (queueWait startServe : Q)
| ReaderDone (readerId : nat).

Definition returned (f : Frame) : bool :=
  match f with GeneratorReturned | ReaderDone _ => true | _ => false end.

Definition Sim : Type -> Type := Simpy.Sim Frame Library.

Definition set_statistic (f : Statistic -> Statistic) : Sim unit :=
  modify (fun m => mkLibrary (params m) (f (statistic m)) (currentQueueLen m)).

Definition add_currentQueueLen (d : Z) : Sim unit :=
  modify (fun m => mkLibrary (params m) (statistic m) (currentQueueLen m + d)).

Definition UpdateQueueStats : Sim unit :=
  t <- get_now ;;
  modify (fun m =>
    let s := statistic m in
    mkLibrary (params m)
      (mkStatistic (ReaderServed s) (TimeWaiting s) (TimeServed s)
                   (Z.max (MaxQueueLen s) (currentQueueLen m))
                   (QueueLen s ++ [(t, currentQueueLen m)])
                   (LibrarianBusy s) (BooksPerReader s))
      (currentQueueLen m)).

(** Lines 30-34 of [ReaderProcess]: the choice of the librarian from the
    two loads and the two busy times. *)
Definition choose_librarian (librarFirstLoad librarSecLoad : nat)
           (busyFirst busySec : Q) : nat :=
  if (librarFirstLoad <? librarSecLoad)%nat then 0%nat
  else if (librarSecLoad <? librarFirstLoad)%nat then 1%nat
  else if Qltb busyFirst busySec then 0%nat else 1%nat.

(** [ReaderProcess] up to [yield req]. *)
Definition ReaderProcess_start (pid readerId : nat) : Sim Frame :=
  m <- get_obj ;;
  let (baseTime, variation) := ServeTime (params m) in
  first <- get_resource (librarians 0) ;;
  sec <- get_resource (librarians 1) ;;
  let librarFirstLoad := (count first + List.length (queue first))%nat in
  let librarSecLoad := (count sec + List.length (queue sec))%nat in
  let librarIndex :=
    choose_librarian librarFirstLoad librarSecLoad
                     (nth 0 (LibrarianBusy (statistic m)) 0)
                     (nth 1 (LibrarianBusy (statistic m)) 0) in
  request (librarians librarIndex) pid ;;
  queueStart <- get_now ;;
  add_currentQueueLen 1 ;;
  UpdateQueueStats ;;
  ret (AwaitLibrarian readerId librarIndex baseTime variation queueStart).

(** [ReaderProcess] from the grant to [yield self.env.timeout(interval)]. *)
Definition ReaderProcess_granted (pid readerId librarIndex : nat)
           (baseTime variation queueStart : Q) : Sim Frame :=
  t <- get_now ;;
  let queueWait := t - queueStart in
  add_currentQueueLen (-1) ;;
  UpdateQueueStats ;;
  let startServe := t in
  interval <- uniform (Qmax 1 (baseTime - variation)) (baseTime + variation) ;;
  timeout pid interval ;;
  ret (AtLibrarian readerId librarIndex queueWait startServe).

(** [ReaderProcess] after the service, to the end of the [with] block. *)
Definition ReaderProcess_served (pid readerId librarIndex : nat)
           (queueWait startServe : Q) : Sim Frame :=
  getBooks <- randint 1 5 ;;
  t <- get_now ;;
  m <- get_obj ;;
  (if (librarIndex <? List.length (LibrarianBusy (statistic m)))%nat
   then ret tt else raise IndexError) ;;
  set_statistic (fun s =>
    mkStatistic (ReaderServed s + 1)
                (TimeWaiting s ++ [queueWait])
                (TimeServed s ++ [t - startServe])
                (MaxQueueLen s) (QueueLen s)
                (list_add librarIndex (t - startServe) (LibrarianBusy s))
                (BooksPerReader s ++ [getBooks])) ;;
  release (librarians librarIndex) pid ;;
  ret (ReaderDone readerId).

Definition ReaderProcess (pid : nat) (f : Frame) (ev : Event) : Sim Frame :=
  match f, ev with
  | ReaderStart readerId, Initialize _ => ReaderProcess_start pid readerId
  | AwaitLibrarian readerId librarIndex baseTime variation queueStart, Request _ _ =>
      ReaderProcess_granted pid readerId librarIndex baseTime variation queueStart
  | AtLibrarian readerId librarIndex queueWait startServe, Timeout _ =>
      ReaderProcess_served pid readerId librarIndex queueWait startServe
  | _, _ => raise RuntimeError
  end.

(** The four [while True] loops of [ReaderGenerator], each up to its
    [yield env.timeout(..)]. *)
Definition uniform_loop (pid readerId : nat) (baseTime variation : Q) : Sim Frame :=
  interval <- uniform (Qmax 1 (baseTime - variation)) (baseTime + variation) ;;
  timeout pid interval ;;
  ret (UniformSleep readerId baseTime variation).

Definition exponential_loop (pid readerId : nat) : Sim Frame :=
  m <- get_obj ;;
  lambd <- divide 1 (fst (ArrivalTime (params m))) ;;
  interval <- expovariate lambd ;;
  timeout pid interval ;;
  ret (ExponentialSleep readerId).

Definition normal_loop (pid readerId : nat) : Sim Frame :=
  m <- get_obj ;;
  let (baseTime, variation) := ArrivalTime (params m) in
  g <- gauss baseTime variation ;;
  let interval := Qmax (1 # 10) g in
  timeout pid interval ;;
  ret (NormalSleep readerId).

Definition poisson_loop (pid readerId : nat) : Sim Frame :=
  timeout pid 3600 ;;
  ret (PoissonSleep readerId).

(** [for _ in range(readerN)]: start a reader, count on. *)
Fixpoint spawn_readers (readerN readerId : nat) : Sim nat :=
  match readerN with
  | O => ret readerId
  | S n => process (ReaderStart readerId) ;; spawn_readers n (readerId + 1)
  end.

Definition ReaderGenerator (pid : nat) (f : Frame) (ev : Event) : Sim Frame :=
  match f, ev with
  | GeneratorStart, Initialize _ =>
      m <- get_obj ;;
      let law := ArrivalLaw (params m) in
      if String.eqb law LAW_UNIFORM then
        let (baseTime, variation) := ArrivalTime (params m) in
        uniform_loop pid 1 baseTime variation
      else if String.eqb law LAW_EXPONENTIAL then exponential_loop pid 1
      else if String.eqb law LAW_NORMAL then normal_loop pid 1
      else if String.eqb law LAW_POISSON then poisson_loop pid 1
      else ret GeneratorReturned
  | UniformSleep readerId baseTime variation, Timeout _ =>
      process (ReaderStart readerId) ;;
      uniform_loop pid (readerId + 1) baseTime variation
  | ExponentialSleep readerId, Timeout _ =>
      process (ReaderStart readerId) ;;
      exponential_loop pid (readerId + 1)
  | NormalSleep readerId, Timeout _ =>
      process (ReaderStart readerId) ;;
      normal_loop pid (readerId + 1)
  | PoissonSleep readerId, Timeout _ =>
      m <- get_obj ;;
      readerN <- poisson (fst (ArrivalTime (params m))) ;;
      readerId' <- spawn_readers readerN readerId ;;
      poisson_loop pid readerId'
  | _, _ => raise RuntimeError
  end.

Definition resume (pid : nat) (f : Frame) (ev : Event) : Sim Frame :=
  match f with
  | ReaderStart _ | AwaitLibrarian _ _ _ _ _ | AtLibrarian _ _ _ _ | ReaderDone _ =>
      ReaderProcess pid f ev
  | _ => ReaderGenerator pid f ev
  end.

Definition step := Simpy.step resume returned.

Definition start (p : Params) (rng : nat -> Q) : World Frame Library :=
  match process GeneratorStart
          (Environment (fun _ => mkResource 1 [] []) rng (Library_init p)) with
  | Ok _ w => w
  | Raised _ => Environment (fun _ => mkResource 1 [] []) rng (Library_init p)
  end.

Inductive Result : Type :=
| Return (s : Statistic)
| Exception (e : Simpy.Exception)
| Unfinished.

(** [RunSim(params)]: the statistic as the run left it. *)
Definition RunSim (fuel : nat) (p : Params) (rng : nat -> Q) : Result :=
  match run resume returned (SimTime p) fuel (start p rng) with
  | Returned w => Return (statistic (obj w))
  | Failed e => Exception e
  | Running _ => Unfinished
  end.

End TaskB.

(** ** Terms in which the runs are specified *)

Section KernelSpec.
Import Simpy.
Variables Frame Model : Type.
Variable returned : Frame -> bool.

Local Abbreviation World := (Simpy.World Frame Model).

(** What one step of the event loop is made of: the event is popped and
    the clock moved; a process that was resumed gets its new frame, and
    its [Process] event if it returned. *)
Definition popped (w : World) (s : Scheduled) (rest : list Scheduled) : World :=
  with_heap w (at_time s) (next_eid w) rest.

Definition resumed (pid : nat) (f' : Frame) (w : World) : World :=
  if returned f'
  then schedule (Process pid) NORMAL 0 (with_process w pid f')
  else with_process w pid f'.

Definition wakes (ev : Event) (pid : nat) : Prop :=
  ev = Initialize pid \/ ev = Timeout pid \/ exists res, ev = Request res pid.

(** [fresh] tells the frames of processes that have not run yet. *)
Variable fresh : Frame -> bool.

(** What code between two [yield]s may do to the kernel: the clock
    stands still, events are only added, not before the present and never
    the stop event, and processes are only added, not yet started. *)
Record extends (w w' : World) : Prop := mkExtends {
  ext_now : now w' = now w;
  ext_heap : exists new, heap w' = new ++ heap w /\
               Forall (fun x => now w <= at_time x /\ event x <> Until) new;
  ext_pid : (next_pid w <= next_pid w')%nat;
  ext_old : forall k, (k < next_pid w)%nat -> processes w' k = processes w k;
  ext_none : forall k, (next_pid w' <= k)%nat -> processes w' k = processes w k;
  ext_new : forall k, (next_pid w <= k < next_pid w')%nat ->
              exists f, processes w' k = Some f /\ fresh f = true
}.

Definition respects {A : Type} (m : Sim Frame Model A) : Prop :=
  forall w a w', m w = Ok a w' -> extends w w'.

(** The clock of a run to the horizon [T]: not past the horizon, no
    pending event in the past, the stop event pending at [T]. *)
Record clock_ok (T : Q) (w : World) : Prop := mkClockOk {
  clock_now : now w <= T;
  clock_heap : Forall (fun x => now w <= at_time x /\
                                (event x = Until -> at_time x == T)) (heap w);
  clock_until : Exists (fun x => event x = Until) (heap w)
}.

(** Code that leaves the resources and the model object alone and grants
    no request. *)
Record calm (w w' : World) : Prop := mkCalm {
  calm_resources : resources w' = resources w;
  calm_obj : obj w' = obj w;
  calm_heap : exists new, heap w' = new ++ heap w /\
                Forall (fun x => forall res pid, event x <> Request res pid) new
}.

Definition keeps {A : Type} (m : Sim Frame Model A) : Prop :=
  forall w a w', m w = Ok a w' -> calm w w'.

(** Code whose result, when it has one, satisfies [P]. *)
Definition yields {A : Type} (P : A -> Prop) (m : Sim Frame Model A) : Prop :=
  forall w a w', m w = Ok a w' -> P a.

(** Code that took [w] to [w'] by scheduling one event: the timeout of
    process [pid], with the delay [d]. *)
Definition sleeps_for (pid : nat) (d : Q) (w w' : World) : Prop :=
  heap w' = mkScheduled (now w + d) NORMAL (next_eid w) (Timeout pid) :: heap w.

(** Code that, run from [w], comes to a [yield] of the timeout of process
    [pid], with a delay that satisfies [P]. *)
Definition delays {A : Type} (pid : nat) (P : Q -> Prop)
           (m : Sim Frame Model A) (w : World) : Prop :=
  exists d a w', m w = Ok a w' /\ sleeps_for pid d w w' /\ P d.

(** No process beyond the last one created. *)
Definition table_ok (w : World) : Prop :=
  forall k, (next_pid w <= k)%nat -> processes w k = None.

End KernelSpec.

(** The greatest element of a list of integers; a list read as a Python
    list, so [None] is the empty list, which has no greatest element. *)
Definition maximum (l : list Z) : option Z :=
  match l with
  | [] => None
  | x :: l' => Some (fold_left Z.max l' x)
  end.

(** ** Terms in which the store is specified *)

Section StoreSpec.
Import Simpy TaskA.

Local Abbreviation World := (Simpy.World Frame Supermarket).

(** A process that was created and has not run. *)
Definition store_fresh (f : Frame) : bool :=
  match f with GeneratorStart | CustomerStart _ => true | _ => false end.

(** A customer that has taken a basket and not finished: abandoned, if
    the run stops now. *)
Definition in_store (f : Frame) : bool :=
  match f with
  | AwaitCounter _ _ _ _ _ | AtCounter _ _ _ _ _
  | AwaitCashier _ _ _ | AtCashier _ _ _ => true
  | _ => false
  end.

Definition awaits_cashier (f : Frame) : bool :=
  match f with AwaitCashier _ _ _ => true | _ => false end.

(** What holds of the [Supermarket] object at time [t], whatever the
    processes are doing. *)
Record supermarket_ok (t : Q) (m : Supermarket) : Prop := mkSupermarketOk {
  ok_arrival :
    Forall (fun r => arrivalTime r = EnvironmentObject) (customerData (stats m));
  ok_waitTimes :
    customersServed (stats m) = Z.of_nat (List.length (waitTimes (stats m)));
  ok_purchaseCounts :
    customersServed (stats m) = Z.of_nat (List.length (purchaseCounts (stats m)));
  ok_customerData :
    customersServed (stats m) = Z.of_nat (List.length (customerData (stats m)));
  ok_max :
    maxQueueLength (stats m) = fold_left Z.max (map snd (queueLengths (stats m))) 0%Z;
  ok_first :
    match queueLengths (stats m) with
    | [] => currentQueueLength m = 0%Z
    | (_, v) :: _ => (0 <= v)%Z
    end;
  ok_busy : cashierBusyTime (stats m) <= t;
  ok_start :
    match cashierBusyStart m with
    | Some start => cashierBusyTime (stats m) <= start /\ start <= t
    | None => True
    end
}.

(** What a segment of [CustomerProcess] does to the counters of the
    object: [db] baskets and [ds] served customers more, and the log of
    queue lengths does not get empty. *)
Record store_effect (db ds : Z) (m m' : Supermarket) : Prop := mkStoreEffect {
  eff_baskets : basketsInUse (stats m') = (basketsInUse (stats m) + db)%Z;
  eff_served : customersServed (stats m') = (customersServed (stats m) + ds)%Z;
  eff_log : queueLengths (stats m) <> [] -> queueLengths (stats m') <> []
}.

(** What holds in every world of a run of the store to the horizon [T]. *)
Record store_ok (T : Q) (w : World) : Prop := mkStoreOk {
  st_clock : clock_ok T w;
  st_table : table_ok w;
  st_model : supermarket_ok (now w) (obj w);
  st_served :
    customersServed (stats (obj w)) =
    count_frames returned (processes w) (next_pid w);
  st_baskets :
    basketsInUse (stats (obj w)) =
    count_frames in_store (processes w) (next_pid w);
  st_waiting :
    forall k f, processes w k = Some f -> awaits_cashier f = true ->
                queueLengths (stats (obj w)) <> []
}.

End StoreSpec.

(** ** Terms in which the library is specified *)

Section LibrarySpec.
Import Simpy TaskB.

Local Abbreviation World := (Simpy.World Frame Library).

Definition library_fresh (f : Frame) : bool :=
  match f with GeneratorStart | ReaderStart _ => true | _ => false end.

Definition reader_done (f : Frame) : bool :=
  match f with ReaderDone _ => true | _ => false end.

Definition awaits_librarian (f : Frame) : bool :=
  match f with AwaitLibrarian _ _ _ _ _ => true | _ => false end.

(** The frames of [ReaderGenerator]. *)
Definition generator_frame (f : Frame) : bool :=
  match f with
  | GeneratorStart | UniformSleep _ _ _ | ExponentialSleep _ | NormalSleep _
  | PoissonSleep _ | GeneratorReturned => true
  | _ => false
  end.

Fixpoint Qsum (l : list Q) : Q :=
  match l with
  | [] => 0
  | x :: l' => x + Qsum l'
  end.

(** What holds of the [Library] object, whatever the processes are doing;
    the busy times are made of finished services only. *)
Record statistic_ok (m : Library) : Prop := mkStatisticOk {
  lok_waiting :
    ReaderServed (statistic m) = Z.of_nat (List.length (TimeWaiting (statistic m)));
  lok_served :
    ReaderServed (statistic m) = Z.of_nat (List.length (TimeServed (statistic m)));
  lok_books :
    ReaderServed (statistic m) = Z.of_nat (List.length (BooksPerReader (statistic m)));
  lok_max :
    MaxQueueLen (statistic m) = fold_left Z.max (map snd (QueueLen (statistic m))) 0%Z;
  lok_first :
    match QueueLen (statistic m) with
    | [] => currentQueueLen m = 0%Z
    | (_, v) :: _ => (0 <= v)%Z
    end;
  lok_credit :
    Qsum (LibrarianBusy (statistic m)) == Qsum (TimeServed (statistic m))
}.

Record library_effect (ds : Z) (m m' : Library) : Prop := mkLibraryEffect {
  leff_served : ReaderServed (statistic m') = (ReaderServed (statistic m) + ds)%Z;
  leff_log : QueueLen (statistic m) <> [] -> QueueLen (statistic m') <> []
}.

(** What a process is to the librarians: nothing, waiting for librarian
    [j], or served by librarian [j] since [s]. *)
Inductive Role : Set :=
| Idle
| Waiting (j : nat)
| Serving (j : nat) (s : Q).

Definition role (o : option Frame) : Role :=
  match o with
  | Some (AwaitLibrarian _ j _ _ _) => Waiting j
  | Some (AtLibrarian _ j _ s) => Serving j s
  | _ => Idle
  end.

Definition is_request (j : nat) (x : Scheduled) : bool :=
  match event x with
  | Request res _ => (res =? j)%nat
  | _ => false
  end.

(** Librarian [j] serves one reader at a time: the processes in its put
    queue wait for it; its user, if any, is a process that was granted and
    not resumed yet (its request is the only one pending on the heap) or
    is being served; and the busy time of [j] was earned before the
    service in progress began. *)
Record desk_ok (roles : nat -> Role) (hp : list Scheduled) (rs : nat -> Resource)
       (busy : list Q) (t : Q) (j : nat) : Prop := mkDeskOk {
  desk_capacity : capacity (rs j) = 1%nat;
  desk_nodup : NoDup (queue (rs j));
  desk_queue : forall h, In h (queue (rs j)) ->
                 ~ In h (users (rs j)) /\ roles h = Waiting j;
  desk_users : users (rs j) = [] \/
               exists q, users (rs j) = [q] /\
                 (roles q = Waiting j \/ exists s, roles q = Serving j s);
  desk_pending : (List.length (filter (is_request j) hp) <= 1)%nat;
  desk_granted : forall x p, In x hp -> event x = Request j p ->
                   users (rs j) = [p] /\ roles p = Waiting j;
  desk_serving : forall p s, roles p = Serving j s ->
                   users (rs j) = [p] /\ nth j busy 0 <= s /\ s <= t;
  desk_busy : nth j busy 0 <= t
}.

(** What holds in every world of a run of the library to the horizon [T]. *)
Record library_ok (T : Q) (w : World) : Prop := mkLibraryOk {
  lib_clock : clock_ok T w;
  lib_table : table_ok w;
  lib_model : statistic_ok (obj w);
  lib_served :
    ReaderServed (statistic (obj w)) =
    count_frames reader_done (processes w) (next_pid w);
  lib_waiting :
    forall k f, processes w k = Some f -> awaits_librarian f = true ->
                QueueLen (statistic (obj w)) <> [];
  lib_desks :
    forall j, desk_ok (fun k => role (processes w k)) (heap w) (resources w)
                      (LibrarianBusy (statistic (obj w))) (now w) j
}.

End LibrarySpec.

(** ** Runs on given random streams *)

(** The stream that yields the elements of [l], then [d] for ever. *)
Definition stream_of (l : list Q) (d : Q) : nat -> Q := fun n => nth n l d.

Fixpoint repeat_list (n : nat) (l : list Q) : list Q :=
  match n with
  | O => []
  | S k => l ++ repeat_list k l
  end.

(** The store, one hour, 5 seconds for each item at the cashier. *)
Definition store_params : TaskA.Params := TaskA.mkParams 3600 120 5.

(** The calls of a customer who passes by the three counters (0.9 is not
    below any visiting probability) and takes one extra item
    ([randint(1, 3)] on 0). *)
Definition passes_by : list Q := [9 # 10; 9 # 10; 9 # 10; 0].

(** Burst: ten customers arrive at time 0 (the exponential variates of
    the first ten intervals are 0), each with one item, so 5 seconds of
    service; the eleventh interval, 36 * 120 seconds, ends after the
    horizon.  The generator draws the next interval before the customer
    it has just created runs. *)
Definition burst_stream : nat -> Q :=
  stream_of ([0; 0] ++ repeat_list 8 (passes_by ++ [0])
             ++ passes_by ++ [36] ++ passes_by) 36.

(** One customer arrives at time 120 at an idle cashier, with one item. *)
Definition single_stream : nat -> Q :=
  stream_of ([1; 36] ++ passes_by) 36.

(** One customer arrives at time 60 and goes to the first counter, where
    the choice takes 120 seconds; the run stops at 100. *)
Definition short_params : TaskA.Params := TaskA.mkParams 100 120 5.
Definition abandoned_stream : nat -> Q := stream_of [1 # 2; 36; 0; 1 # 2] 36.

(** Two customers arrive at time 0, each with one item, 50 seconds for
    an item at the cashier; the run stops at 70, during the second
    service. *)
Definition pair_params : TaskA.Params := TaskA.mkParams 70 120 50.
Definition pair_stream : nat -> Q :=
  stream_of ([0; 0] ++ passes_by ++ [36] ++ passes_by) 36.

(** The library, exponential arrivals every 120 seconds on average,
    services of 180 +- 120 seconds. *)
Definition library_params (T : Q) : TaskB.Params :=
  TaskB.mkParams T (180, 120) TaskB.LAW_EXPONENTIAL (120, 0).

(** One reader arrives at time 120 and is served for 180 seconds (the
    middle of the uniform law), with one book; the next reader would
    arrive after 36 * 120 seconds. *)
Definition reader_stream : nat -> Q := stream_of [1; 36; 1 # 2; 0] 36.

(** An arrival law that [ReaderGenerator] does not know. *)
Definition unknown_params : TaskB.Params :=
  TaskB.mkParams 3600 (180, 120) "Gamma" (120, 0).

(** A store and a library in which nothing has happened yet, on a random
    stream whose numbers are all 1/2. *)
Definition half_stream : nat -> Q := stream_of [] (1 # 2).

Definition idle_store : Simpy.World TaskA.Frame TaskA.Supermarket :=
  Simpy.Environment (fun _ => Simpy.mkResource 1 [] []) half_stream
                    (TaskA.Supermarket_init store_params).

Definition idle_library : Simpy.World TaskB.Frame TaskB.Library :=
  Simpy.Environment (fun _ => Simpy.mkResource 1 [] []) half_stream
                    (TaskB.Library_init (library_params 3600)).

(** A library in which nothing has happened yet. *)
Definition fresh_library : Simpy.World TaskB.Frame TaskB.Library :=
  Simpy.Environment (fun _ => Simpy.mkResource 1 [] []) reader_stream
                    (TaskB.Library_init (library_params 3600)).

(** ** Terms in which the agenda of the event loop is specified *)

Section AgendaSpec.
Import Simpy.
Variables Frame Model : Type.

Local Abbreviation World := (Simpy.World Frame Model).

(** Code between two [yield]s that takes worlds in [P] to results and
    worlds in [Q], when it does not raise. *)
Definition triple {A : Type} (P : World -> Prop) (m : Sim Frame Model A)
           (Q : A -> World -> Prop) : Prop :=
  forall w a w', P w -> m w = Ok a w' -> Q a w'.

(** Code that touches neither the heap, nor the resources, nor the
    process table. *)
Definition inert {A : Type} (m : Sim Frame Model A) : Prop :=
  forall w a w', m w = Ok a w' ->
    heap w' = heap w /\ resources w' = resources w /\
    processes w' = processes w /\ next_pid w' = next_pid w.

(** Code that leaves the random stream as it is (it only moves on in
    it). *)
Definition steady {A : Type} (m : Sim Frame Model A) : Prop :=
  forall w a w', m w = Ok a w' -> random_stream w' = random_stream w.

(** What a suspended generator waits for: to be started, a timeout, the
    grant of its request on a resource, or nothing (it is running or has
    returned). *)
Inductive Wait : Set :=
| ForStart
| ForTimeout
| ForRequest (res : nat)
| ForNothing.

Definition accepts (st : Wait) (ev : Event) : bool :=
  match st, ev with
  | ForStart, Initialize _ => true
  | ForTimeout, Timeout _ => true
  | ForRequest res, Request res' _ => (res' =? res)%nat
  | _, _ => false
  end.

(** The heap entry resumes process [p] when it is processed. *)
Definition wakes_b (p : nat) (x : Scheduled) : bool :=
  match event x with
  | Initialize q | Timeout q | Request _ q => (q =? p)%nat
  | _ => false
  end.

Definition pending (p : nat) (hp : list Scheduled) : list Scheduled :=
  filter (wakes_b p) hp.

(** Process [p], waiting for [st], is woken by at most one pending event,
    one that it waits for; it stands in the put queue of a resource only
    while it waits for that resource and its request is not granted. *)
Record waiting_ok (st : Wait) (p : nat) (hp : list Scheduled)
       (rs : nat -> Resource) : Prop := mkWaitingOk {
  wait_accepts : forall x, In x hp -> wakes_b p x = true ->
                   accepts st (event x) = true;
  wait_once : (List.length (pending p hp) <= 1)%nat;
  wait_queue : forall r, In p (queue (rs r)) ->
                 st = ForRequest r /\ pending p hp = []
}.

(** The agenda: every process is woken as it expects, no process stands
    twice in a put queue, and a resource (all are created with capacity
    1) has at most one user. *)
Record agenda_ok (stat : nat -> Wait) (hp : list Scheduled)
       (rs : nat -> Resource) : Prop := mkAgendaOk {
  agenda_waiting : forall p, waiting_ok (stat p) p hp rs;
  agenda_nodup : forall r, NoDup (queue (rs r));
  agenda_capacity : forall r, capacity (rs r) = 1%nat /\
                              (List.length (users (rs r)) <= 1)%nat
}.

(** [waits] tells what the frames of the model wait for. *)
Variable waits : Frame -> Wait.

Definition wait_of (o : option Frame) : Wait :=
  match o with
  | Some f => waits f
  | None => ForNothing
  end.

(** The agenda between two events. *)
Definition scheduled_ok (w : World) : Prop :=
  agenda_ok (fun k => wait_of (processes w k)) (heap w) (resources w).

(** The agenda while process [p] runs: [st] is what [p] has asked for so
    far in this segment. *)
Definition running (p : nat) (st : Wait) (w : World) : Prop :=
  agenda_ok (fun k => if (k =? p)%nat then st else wait_of (processes w k))
            (heap w) (resources w) /\
  table_ok w /\ (p < next_pid w)%nat.

(** The world after [n] more events of the loop, when the run goes on
    that far. *)
Fixpoint advance (resume : nat -> Frame -> Event -> Sim Frame Model Frame)
         (returned : Frame -> bool) (n : nat) (w : World) : option World :=
  match n with
  | O => Some w
  | S n' =>
      match step resume returned w with
      | Continue w' => advance resume returned n' w'
      | _ => None
      end
  end.

End AgendaSpec.

(** A number that a float holds, or an integer that converts to a float
    without [OverflowError]. *)
Definition in_float_range (x : Q) : Prop := - float_limit < x < float_limit.


(** ** More of what holds in the store *)

Section StoreMoreSpec.
Import Simpy TaskA.

Local Abbreviation World := (Simpy.World Frame Supermarket).

Definition store_waits (f : Frame) : Wait :=
  match f with
  | GeneratorStart | CustomerStart _ => ForStart
  | GeneratorSleep _ | AtCounter _ _ _ _ _ | AtCashier _ _ _ => ForTimeout
  | AwaitCounter _ counterId _ _ _ => ForRequest (counters (counterId - 1))
  | AwaitCashier _ _ _ => ForRequest cashier
  | CustomerDone _ => ForNothing
  end.

(** The most items a customer can take at the counters in [items]. *)
Fixpoint most_purchases (items : list (nat * CounterData)) : Z :=
  match items with
  | [] => 0
  | (_, counterData) :: rest =>
      (fst (purchases counterData) + snd (purchases counterData)
       + most_purchases rest)%Z
  end.

(** A counter whose two ranges are not empty. *)
Definition counter_ok (counterData : CounterData) : Prop :=
  Qmax 0 (fst (time counterData) - snd (time counterData))
    <= fst (time counterData) + snd (time counterData) /\
  (Z.max 1 (fst (purchases counterData) - snd (purchases counterData))
    <= fst (purchases counterData) + snd (purchases counterData))%Z.

(** The counters a customer has still to pass, with [total] items so
    far: at most 15 items can be taken at the counters. *)
Definition round_ok (items : list (nat * CounterData)) (total : Z) : Prop :=
  Forall (fun item => counter_ok (snd item)) items /\
  (0 <= total)%Z /\ (total + most_purchases items <= 15)%Z.

(** What the local variables of a suspended customer hold at time [t]. *)
Definition customer_frame_ok (t : Q) (f : Frame) : Prop :=
  match f with
  | AwaitCounter _ counterId counterData rest total
  | AtCounter _ counterId counterData rest total =>
      round_ok ((counterId, counterData) :: rest) total
  | AwaitCashier _ total queueStartTime
  | AtCashier _ total queueStartTime =>
      (1 <= total <= 18)%Z /\ queueStartTime <= t
  | _ => True
  end.

(** A log of pairs (time, value): the times do not decrease and are not
    after [t], the values are not negative, and the last value is [v]
    (0 for the empty log). *)
Record log_ok (t : Q) (v : Z) (log : list (Q * Z)) : Prop := mkLogOk {
  log_sorted : StronglySorted Qle (map fst log);
  log_past : Forall (fun e => fst e <= t) log;
  log_values : Forall (fun e => (0 <= snd e)%Z) log;
  log_last : last (map snd log) 0%Z = v
}.

(** A record of [customerData], for the parameters [p] at time [t]. *)
Definition record_ok (p : Params) (t : Q) (r : CustomerData) : Prop :=
  (1 <= totalPurchases r <= 18)%Z /\
  serviceTime r = inject_Z (totalPurchases r) * payTimePerItem p /\
  0 <= waitTime r /\ exitTime r <= t.

Record supermarket_more (p : Params) (t : Q) (m : Supermarket) : Prop :=
  mkSupermarketMore {
  more_params : params m = p;
  more_busy : 0 <= cashierBusyTime (stats m);
  more_queue : log_ok t (currentQueueLength m) (queueLengths (stats m));
  more_baskets : log_ok t (basketsInUse (stats m)) (basketsHistory (stats m));
  more_max : maxBasketsInUse (stats m) =
             fold_left Z.max (map snd (basketsHistory (stats m))) 0%Z;
  more_services :
    Forall (fun x => exists n, (1 <= n <= 18)%Z /\ x = inject_Z n * payTimePerItem p)
           (serviceTimes (stats m));
  more_records : Forall (record_ok p t) (customerData (stats m));
  more_waitTimes : waitTimes (stats m) = map waitTime (customerData (stats m));
  more_purchaseCounts :
    purchaseCounts (stats m) = map totalPurchases (customerData (stats m))
}.

(** What holds, beside [store_ok], in every world of a run of the store
    with the parameters [p] on the random stream [rng]. *)
Record store_more (p : Params) (rng : nat -> Q) (w : World) : Prop := mkStoreMore {
  sm_model : supermarket_more p (now w) (obj w);
  sm_frames : forall k f, processes w k = Some f -> customer_frame_ok (now w) f;
  sm_queue : currentQueueLength (obj w) =
             count_frames awaits_cashier (processes w) (next_pid w);
  sm_stream : random_stream w = rng;
  sm_agenda : scheduled_ok store_waits w
}.

(** Parameters of the store in the range of floats: the horizon, the mean
    interval and the longest service time, 18 items. *)
Definition store_numbers_ok (p : Params) : Prop :=
  in_float_range (simTime p) /\ in_float_range (meanInterval p) /\
  in_float_range (18 * payTimePerItem p).

(** Parameters and random streams with which the store does not raise:
    numbers in the range of floats, a positive horizon and mean interval,
    a time per item and random numbers that are not negative. *)
Definition store_input_ok (p : Params) (rng : nat -> Q) : Prop :=
  store_numbers_ok p /\
  0 < simTime p /\ 0 < meanInterval p /\ 0 <= payTimePerItem p /\
  forall n, 0 <= rng n.

End StoreMoreSpec.

(** ** More of what holds in the library *)

Section LibraryMoreSpec.
Import Simpy TaskB.

Local Abbreviation World := (Simpy.World Frame Library).

Definition library_waits (f : Frame) : Wait :=
  match f with
  | GeneratorStart | ReaderStart _ => ForStart
  | UniformSleep _ _ _ | ExponentialSleep _ | NormalSleep _ | PoissonSleep _
  | AtLibrarian _ _ _ _ => ForTimeout
  | AwaitLibrarian _ librarIndex _ _ _ => ForRequest (librarians librarIndex)
  | GeneratorReturned | ReaderDone _ => ForNothing
  end.

(** What the local variables of a suspended generator hold at time [t],
    for the parameters [p]. *)
Definition reader_frame_ok (p : Params) (t : Q) (f : Frame) : Prop :=
  match f with
  | UniformSleep _ baseTime variation =>
      (baseTime, variation) = ArrivalTime p /\ ArrivalLaw p = LAW_UNIFORM
  | ExponentialSleep _ => ArrivalLaw p = LAW_EXPONENTIAL
  | PoissonSleep _ => ArrivalLaw p = LAW_POISSON
  | AwaitLibrarian _ librarIndex baseTime variation queueStart =>
      (librarIndex < 2)%nat /\ (baseTime, variation) = ServeTime p /\
      queueStart <= t
  | AtLibrarian _ librarIndex queueWait startServe =>
      (librarIndex < 2)%nat /\ 0 <= queueWait /\ startServe <= t
  | _ => True
  end.

Record statistic_more (p : Params) (t : Q) (m : Library) : Prop :=
  mkStatisticMore {
  lmore_params : params m = p;
  lmore_busy_length : List.length (LibrarianBusy (statistic m)) = 2%nat;
  lmore_busy : Forall (fun x => 0 <= x) (LibrarianBusy (statistic m));
  lmore_queue : log_ok t (currentQueueLen m) (QueueLen (statistic m));
  lmore_waiting : Forall (fun x => 0 <= x) (TimeWaiting (statistic m));
  lmore_served : Forall (fun x => 0 <= x) (TimeServed (statistic m));
  lmore_books : Forall (fun n => (1 <= n <= 5)%Z) (BooksPerReader (statistic m))
}.

(** What holds, beside [library_ok], in every world of a run of the
    library with the parameters [p] on the random stream [rng]. *)
Record library_more (p : Params) (rng : nat -> Q) (w : World) : Prop :=
  mkLibraryMore {
  lm_model : statistic_more p (now w) (obj w);
  lm_frames : forall k f, processes w k = Some f -> reader_frame_ok p (now w) f;
  lm_queue : currentQueueLen (obj w) =
             count_frames awaits_librarian (processes w) (next_pid w);
  lm_stream : random_stream w = rng;
  lm_agenda : scheduled_ok library_waits w
}.


(** A pair [(base, variation)] in the range of floats, with the ends
    [base - variation] and [base + variation] of its interval and the
    width of the interval that [random.uniform] draws from. *)
Definition pair_in_float_range (bv : Q * Q) : Prop :=
  in_float_range (fst bv) /\ in_float_range (snd bv) /\
  in_float_range (fst bv - snd bv) /\ in_float_range (fst bv + snd bv) /\
  in_float_range (fst bv + snd bv - Qmax 1 (fst bv - snd bv)).

(** Parameters of the library in the range of floats. *)
Definition library_numbers_ok (p : Params) : Prop :=
  in_float_range (SimTime p) /\ pair_in_float_range (ServeTime p) /\
  pair_in_float_range (ArrivalTime p).


End LibraryMoreSpec.

(** ** The dashboards: [main], [Main] and [RunAndDisplaySim] *)

(** A plotly figure with one trace. *)
Record Figure : Set := mkFigure {
  x_data : list Q;
  y_data : list Z
}.

(** [CreateTimeSeriesChart(timeData, valueData, title, yLabel)], the same
    in both files: no figure for no data. *)
Definition CreateTimeSeriesChart (timeData : list Q) (valueData : list Z)
  : option Figure :=
  match timeData with
  | [] => None
  | _ :: _ => Some (mkFigure timeData valueData)
  end.

(** [[f(x) for i, x in enumerate(l) if i % step == 0]], with [enumerate]
    counting from [i]. *)
Fixpoint every_nth {A B : Type} (f : A -> B) (step i : nat) (l : list A) : list B :=
  match l with
  | [] => []
  | x :: l' =>
      if (i mod step =? 0)%nat then f x :: every_nth f step (S i) l'
      else every_nth f step (S i) l'
  end.

(** The lines of [RunAndDisplaySim] that draw a log of (time, value)
    pairs ([queueLengths], [basketsHistory], [QueueLen]): a log of more
    than 10 entries is sampled, every [len // min(1000, len)]-th entry,
    and drawn.  [//] and [%] raise on 0. *)
Definition draw_log (log : list (Q * Z)) : Simpy.Exception + option Figure :=
  match log with
  | [] => inr None
  | _ :: _ =>
      if (10 <? List.length log)%nat then
        let sampleSize := Nat.min 1000 (List.length log) in
        if (sampleSize =? 0)%nat then inl Simpy.ZeroDivisionError
        else
          let step := (List.length log / sampleSize)%nat in
          if (step =? 0)%nat then inl Simpy.ZeroDivisionError
          else inr (CreateTimeSeriesChart (every_nth fst step 0 log)
                                          (every_nth snd step 0 log))
      else inr None
  end.

Module StoreDashboard.
Import Simpy TaskA.

(** The dictionary [params] that [main] builds from its three sliders. *)
Definition main_params (simulationHours meanInterarrival cashierSpeed : Z) : Params :=
  mkParams (inject_Z (simulationHours * 3600)) (inject_Z meanInterarrival)
           (inject_Z cashierSpeed).

(** The ranges of the sliders: 1 to 24 hours, 30 to 120 seconds, 1 to 10
    seconds. *)
Definition sliders_ok (simulationHours meanInterarrival cashierSpeed : Z) : Prop :=
  (1 <= simulationHours <= 24)%Z /\ (30 <= meanInterarrival <= 120)%Z /\
  (1 <= cashierSpeed <= 10)%Z.

(** [cashierUtilization = (results['cashierBusyTime'] / params["simTime"]) * 100]. *)
Definition cashierUtilization (results : Stats) (p : Params) : Simpy.Exception + Q :=
  if Qeq_bool (simTime p) 0 then inl ZeroDivisionError
  else inr (cashierBusyTime results / simTime p * 100).

End StoreDashboard.

Module LibraryDashboard.
Import Simpy TaskB.

(** The options of the select box of [Main]. *)
Definition options : list string :=
  [LAW_UNIFORM; LAW_EXPONENTIAL; LAW_NORMAL; LAW_POISSON].


(** The ranges of the sliders: 1 to 24 hours; 1 to 60 minutes for the
    times and their spreads; 1 to 100 readers an hour under the Poisson
    law. *)
Definition sliders_ok (simulationHours : Z) (selected : string)
           (arrivalTime arrivalTimePlusMinus serveTime serveTimePlusMinus : Z) : Prop :=
  In selected options /\
  (1 <= simulationHours <= 24)%Z /\
  (1 <= arrivalTime <= (if String.eqb selected LAW_POISSON then 100 else 60))%Z /\
  (1 <= arrivalTimePlusMinus <= 60)%Z /\
  (1 <= serveTime <= 60)%Z /\ (1 <= serveTimePlusMinus <= 60)%Z.

(** [l[i]], which raises when [i] is out of range. *)
Definition index (l : list Q) (i : nat) : Simpy.Exception + Q :=
  match nth_error l i with
  | Some x => inr x
  | None => inl IndexError
  end.

(** [min(1.0, busy / params['SimTime'])]. *)
Definition koef (busy : Q) (p : Params) : Simpy.Exception + Q :=
  if Qeq_bool (SimTime p) 0 then inl ZeroDivisionError
  else inr (Qmin 1 (busy / SimTime p)).

(** [libFirstKoef] and [libSecondKoef]. *)
Definition libFirstKoef (results : Statistic) (p : Params) : Simpy.Exception + Q :=
  match index (LibrarianBusy results) 0 with
  | inr busy => koef busy p
  | inl e => inl e
  end.

Definition libSecondKoef (results : Statistic) (p : Params) : Simpy.Exception + Q :=
  match index (LibrarianBusy results) 1 with
  | inr busy => koef busy p
  | inl e => inl e
  end.

(** [libKoef = min(1.0, sum(results['LibrarianBusy']) / (2 * params['SimTime']))]. *)
Definition libKoef (results : Statistic) (p : Params) : Simpy.Exception + Q :=
  if Qeq_bool (2 * SimTime p) 0 then inl ZeroDivisionError
  else inr (Qmin 1 (Qsum (LibrarianBusy results) / (2 * SimTime p))).

End LibraryDashboard.

(** ** More runs on given random streams *)

(** The library under the Poisson law, 8 readers an hour on average. *)
Definition poisson_params (T : Q) : TaskB.Params :=
  TaskB.mkParams T (180, 120) TaskB.LAW_POISSON (8, 0).

(** A log of 1999 entries. *)
Definition long_log : list (Q * Z) := repeat (0, 0%Z) 1999.

(** The store and the library with a mean interval of 0, and with a
    horizon of 0. *)
Definition zero_mean_store : TaskA.Params := TaskA.mkParams 3600 0 5.

Definition zero_mean_library : TaskB.Params :=
  TaskB.mkParams 3600 (180, 120) TaskB.LAW_EXPONENTIAL (0, 0).

Definition zero_horizon_store : TaskA.Params := TaskA.mkParams 0 120 5.

(** The store and the library with a mean interval of [10 ^ 400], an
    integer beyond the floats. *)
Definition huge_mean_store : TaskA.Params :=
  TaskA.mkParams 3600 (inject_Z (10 ^ 400)) 5.

Definition huge_mean_library : TaskB.Params :=
  TaskB.mkParams 3600 (180, 120) TaskB.LAW_EXPONENTIAL (inject_Z (10 ^ 400), 0).


(** * Proofs *)

Unset Implicit Arguments.


(** Arithmetic is left to [lia] and [lra]: reduction does not enter it. *)
#[local] Arguments Qplus : simpl never.
#[local] Arguments Qminus : simpl never.
#[local] Arguments Qmult : simpl never.
#[local] Arguments Qdiv : simpl never.
#[local] Arguments Qltb : simpl never.
#[local] Arguments Qleb : simpl never.
#[local] Arguments Qeq_bool : simpl never.
#[local] Arguments Qmax : simpl never.
#[local] Arguments Qfloor : simpl never.
#[local] Arguments inject_Z : simpl never.
#[local] Arguments Z.add : simpl never.
#[local] Arguments Z.sub : simpl never.
#[local] Arguments Z.max : simpl never.
#[local] Arguments Z.modulo : simpl never.
#[local] Arguments Z.ltb : simpl never.
#[local] Arguments Z.of_nat : simpl never.
#[local] Arguments Nat.ltb : simpl never.
#[local] Arguments Nat.eqb : simpl never.
#[local] Arguments Nat.sub : simpl never.
#[local] Arguments fold_left : simpl never.
(** ** Tests and delays on rationals *)

Lemma Qleb_pos (T : Q) : 0 < T -> Qleb T 0 = false.
Proof.
  intros H. unfold Qleb. apply Qgt_alt in H. rewrite H. reflexivity.
Qed.

Lemma Qleb_true (a b : Q) : a <= b -> Qleb a b = true.
Proof.
  intros H. unfold Qleb. destruct (a ?= b) eqn:E; try reflexivity.
  apply Qgt_alt in E. lra.
Qed.

Lemma Qltb_nonneg (d : Q) : 0 <= d -> Qltb d 0 = false.
Proof.
  intros H. unfold Qltb. destruct (d ?= 0) eqn:E; try reflexivity.
  apply Qlt_alt in E. lra.
Qed.


Lemma Qleb_later (a b : Q) : b < a -> Qleb a b = false.
Proof.
  intros H. unfold Qleb. destruct (a ?= b) eqn:E; [| |reflexivity].
  - apply Qeq_alt in E. lra.
  - apply Qlt_alt in E. lra.
Qed.

(** The test of [divide] on a number that converts to a float. *)
Lemma divide_in_range (b : Q) :
  - float_limit < b < float_limit ->
  (Qleb float_limit b || Qleb b (- float_limit))%bool = false.
Proof.
  intros [H1 H2]. rewrite (Qleb_later _ _ H2), (Qleb_later _ _ H1). reflexivity.
Qed.

Lemma Qeq_bool_pos (x : Q) : 0 < x -> Qeq_bool x 0 = false.
Proof.
  intros H. destruct (Qeq_bool x 0) eqn:E; [|reflexivity].
  apply Qeq_bool_iff in E. lra.
Qed.

Lemma Qinv_pos (x : Q) : 0 < x -> 0 < 1 / x.
Proof. intros H. apply Qlt_shift_div_l; [exact H|lra]. Qed.

(** An exponential gap [e / (1 / mean)] is not negative. *)
Lemma exponential_delay (e x : Q) : 0 <= e -> 0 < x -> 0 <= e / (1 / x).
Proof.
  intros He Hx. apply Qle_shift_div_l; [apply Qinv_pos; exact Hx|lra].
Qed.

(** A uniform delay [a + (b - a) * u] is not negative. *)
Lemma uniform_delay (a b u : Q) : 0 <= a -> a <= b -> 0 <= u -> 0 <= a + (b - a) * u.
Proof.
  intros Ha Hab Hu.
  assert (0 <= (b - a) * u) by (apply Qmult_le_0_compat; lra). lra.
Qed.

Lemma inject_Z_nonneg (z : Z) : (0 <= z)%Z -> 0 <= inject_Z z.
Proof. intros H. unfold Qle, inject_Z. simpl. lia. Qed.

Lemma stream_of_nonneg (l : list Q) (d : Q) :
  Forall (fun x => 0 <= x) l -> 0 <= d -> forall n, 0 <= stream_of l d n.
Proof.
  intros F Hd n. unfold stream_of. revert n.
  induction F as [|x l Hx _ IH]; intros [|n]; simpl; auto.
Qed.

(** A uniform draw [a + (b - a) * u] is not below a bound of both ends. *)
Lemma uniform_floor (a b u lo : Q) :
  0 <= u <= 1 -> lo <= a -> lo <= b -> lo <= a + (b - a) * u.
Proof.
  intros [U0 U1] Ha Hb.
  assert (H1 : 0 <= (a - lo) * (1 - u)) by (apply Qmult_le_0_compat; lra).
  assert (H2 : 0 <= (b - lo) * u) by (apply Qmult_le_0_compat; lra).
  assert (E : a + (b - a) * u == lo + ((a - lo) * (1 - u) + (b - lo) * u)) by ring.
  rewrite E. lra.
Qed.

(** ** Facts about the kernel *)

Section KernelFacts.
Import Simpy.
Variables Frame Model : Type.
Variable resume : nat -> Frame -> Event -> Sim Frame Model Frame.
Variable returned : Frame -> bool.

Local Abbreviation World := (Simpy.World Frame Model).

Lemma Qltb_false (a b : Q) : Qltb a b = false -> b <= a.
Proof.
  unfold Qltb. destruct (a ?= b) eqn:E; try discriminate; intros _.
  - apply Qeq_alt in E. rewrite E. apply Qle_refl.
  - apply Qgt_alt in E. apply Qlt_le_weak. exact E.
Qed.


Lemma Qleb_false (a b : Q) : Qleb a b = false -> b < a.
Proof.
  unfold Qleb. destruct (a ?= b) eqn:E; try discriminate; intros _.
  apply Qgt_alt in E. exact E.
Qed.

Lemma before_true (x m : Scheduled) : before x m = true -> at_time x <= at_time m.
Proof.
  unfold before. destruct (at_time x ?= at_time m) eqn:E; intros H.
  - apply Qeq_alt in E. rewrite E. apply Qle_refl.
  - apply Qlt_alt in E. apply Qlt_le_weak. exact E.
  - discriminate.
Qed.

Lemma before_false (x m : Scheduled) : before x m = false -> at_time m <= at_time x.
Proof.
  unfold before. destruct (at_time x ?= at_time m) eqn:E; intros H.
  - apply Qeq_alt in E. rewrite E. apply Qle_refl.
  - discriminate.
  - apply Qgt_alt in E. apply Qlt_le_weak. exact E.
Qed.

(** [heappop] splits the heap into one entry and the others. *)
Lemma heappop_In (q : list Scheduled) :
  forall s r, heappop q = Some (s, r) ->
  forall x, In x q <-> x = s \/ In x r.
Proof.
  induction q as [|y q IH]; intros s r H x; simpl in H; [discriminate|].
  destruct (heappop q) as [[m r']|] eqn:E.
  - specialize (IH m r' eq_refl).
    destruct (before y m); inversion H; subst; clear H; simpl.
    + split; intros [K|K]; auto.
    + rewrite IH. split; intros K; decompose [or] K; auto.
  - inversion H; subst; clear H.
    destruct q as [|z q]; [simpl; split; intros [K|K]; auto; contradiction|].
    simpl in E. destruct (heappop q) as [[? ?]|]; [destruct (before z s0)|]; discriminate.
Qed.

(** The popped entry is not later than any other. *)
Lemma heappop_least (q : list Scheduled) :
  forall s r, heappop q = Some (s, r) ->
  forall x, In x r -> at_time s <= at_time x.
Proof.
  induction q as [|y q IH]; intros s r H x Hx; simpl in H; [discriminate|].
  destruct (heappop q) as [[m r']|] eqn:E.
  - specialize (IH m r' eq_refl).
    destruct (before y m) eqn:B; inversion H; subst; clear H.
    + apply before_true in B.
      apply (heappop_In _ _ _ E) in Hx. destruct Hx as [->|Hx]; [exact B|].
      apply Qle_trans with (at_time m); [exact B|]. apply IH; exact Hx.
    + apply before_false in B. destruct Hx as [<-|Hx]; [exact B|].
      apply IH; exact Hx.
  - inversion H; subst; contradiction.
Qed.

Lemma step_Continue (w w' : World) :
  step resume returned w = Continue w' ->
  exists s rest, heappop (heap w) = Some (s, rest) /\
    ((exists res, event s = Release res /\ w' = trigger_put res (popped w s rest)) \/
     (exists pid, event s = Process pid /\ w' = popped w s rest) \/
     (exists pid f f' w2,
        wakes (event s) pid /\
        processes (popped w s rest) pid = Some f /\
        resume pid f (event s) (popped w s rest) = Ok f' w2 /\
        w' = resumed returned pid f' w2)).
Proof.
  unfold step. destruct (heappop (heap w)) as [[s rest]|] eqn:E; [|discriminate].
  intros H. exists s, rest. split; [reflexivity|].
  fold (popped w s rest) in H.
  assert (R : forall pid, wakes (event s) pid ->
            resume_process resume returned pid (event s) (popped w s rest) = Continue w' ->
            exists f f' w2, processes (popped w s rest) pid = Some f /\
              resume pid f (event s) (popped w s rest) = Ok f' w2 /\
              w' = resumed returned pid f' w2).
  { intros pid _ K. unfold resume_process in K.
    destruct (processes (popped w s rest) pid) as [f|]; [|discriminate].
    destruct (resume pid f (event s) (popped w s rest)) as [f' w2|] eqn:R; [|discriminate].
    inversion K. exists f, f', w2. auto. }
  destruct (event s) eqn:Ev.
  - right; right. destruct (R pid) as (f & f' & w2 & ?); [left; reflexivity|exact H|].
    exists pid, f, f', w2. split; [left; reflexivity|assumption].
  - right; right. destruct (R pid) as (f & f' & w2 & ?); [right; left; reflexivity|exact H|].
    exists pid, f, f', w2. split; [right; left; reflexivity|assumption].
  - right; right. destruct (R pid) as (f & f' & w2 & ?); [right; right; eauto|exact H|].
    exists pid, f, f', w2. split; [right; right; eauto|assumption].
  - left. exists res. inversion H. auto.
  - right; left. exists pid. inversion H. auto.
  - discriminate.
Qed.

Lemma step_Stop (w w' : World) :
  step resume returned w = StopSimulation w' ->
  exists s rest, heappop (heap w) = Some (s, rest) /\ event s = Until /\
                 w' = popped w s rest.
Proof.
  unfold step. destruct (heappop (heap w)) as [[s rest]|] eqn:E; [|discriminate].
  intros H. exists s, rest. split; [reflexivity|].
  destruct (event s) eqn:Ev; try discriminate;
    try (unfold resume_process in H;
         destruct (processes _ pid); [|discriminate];
         destruct (resume _ _ _ _); discriminate).
  inversion H. auto.
Qed.

(** A property that holds at the start and is kept by every step holds in
    every reachable world. *)
Lemma reachable_ind_inv (P : World -> Prop) (w0 : World) :
  P w0 ->
  (forall w w', P w -> step resume returned w = Continue w' -> P w') ->
  forall w, reachable resume returned w0 w -> P w.
Proof.
  intros H0 Hs w R. induction R; eauto.
Qed.

Lemma reachable_after_step (w0 w1 w : World) :
  step resume returned w0 = Continue w1 ->
  reachable resume returned w1 w -> reachable resume returned w0 w.
Proof.
  intros S R. induction R.
  - eapply reachable_step; [apply reachable_start|exact S].
  - eapply reachable_step; eassumption.
Qed.

(** A run that reaches its horizon stops out of a reachable world. *)
Lemma run_loop_Returned (fuel : nat) :
  forall w0 w', run_loop resume returned fuel w0 = Returned w' ->
  exists w, reachable resume returned w0 w /\
            step resume returned w = StopSimulation w'.
Proof.
  induction fuel as [|n IH]; intros w0 w' H; simpl in H; [discriminate|].
  destruct (step resume returned w0) as [w1|w1| |] eqn:S; try discriminate.
  - destruct (IH _ _ H) as (w & R & St). exists w. split; [|exact St].
    eapply reachable_after_step; eassumption.
  - inversion H; subst. exists w0. split; [apply reachable_start|exact S].
Qed.

Lemma run_Returned (at_ : Q) (fuel : nat) (w0 w' : World) :
  run resume returned at_ fuel w0 = Returned w' ->
  now w0 < at_ /\
  exists w, reachable resume returned (launch at_ w0) w /\
            step resume returned w = StopSimulation w'.
Proof.
  unfold run. destruct (Qleb at_ (now w0)) eqn:E; [discriminate|].
  intros H. split; [apply Qleb_false; exact E|].
  apply run_loop_Returned with fuel. exact H.
Qed.

End KernelFacts.

(** ** Code between two yields only extends the kernel state *)

Section Extends.
Import Simpy.
Variables Frame Model : Type.
Variable fresh : Frame -> bool.

Local Abbreviation World := (Simpy.World Frame Model).
Local Abbreviation Sim := (Simpy.Sim Frame Model).

Lemma extends_refl (w : World) : extends fresh w w.
Proof.
  constructor; auto.
  - exists []. split; [reflexivity|constructor].
  - intros k [H1 H2]. lia.
Qed.

Lemma extends_trans (w1 w2 w3 : World) :
  extends fresh w1 w2 -> extends fresh w2 w3 -> extends fresh w1 w3.
Proof.
  intros [n1 [new1 [h1 F1]] p1 o1 e1 f1] [n2 [new2 [h2 F2]] p2 o2 e2 f2].
  constructor.
  - congruence.
  - exists (new2 ++ new1). split.
    + rewrite h2, h1. apply app_assoc.
    + apply Forall_app. split; [|exact F1].
      rewrite n1 in F2. exact F2.
  - lia.
  - intros k Hk. rewrite o2 by lia. apply o1. exact Hk.
  - intros k Hk. rewrite e2 by lia. apply e1. lia.
  - intros k Hk. destruct (Nat.lt_ge_cases k (next_pid w2)) as [L|L].
    + rewrite o2 by exact L. apply f1. lia.
    + apply f2. lia.
Qed.

Lemma extends_schedule (ev : Event) (p : Priority) (d : Q) (w : World) :
  0 <= d -> ev <> Until -> extends fresh w (schedule ev p d w).
Proof.
  intros Hd Hev. constructor; simpl; auto.
  - exists [mkScheduled (now w + d) p (next_eid w) ev]. split; [reflexivity|].
    constructor; [|constructor]. simpl. split; [lra|exact Hev].
  - intros k [H1 H2]. lia.
Qed.

Lemma extends_with_resource (w : World) (res : nat) (r : Resource) :
  extends fresh w (with_resource w res r).
Proof.
  constructor; simpl; auto.
  - exists []. split; [reflexivity|constructor].
  - intros k [H1 H2]. lia.
Qed.

Lemma extends_with_obj (w : World) (m : Model) : extends fresh w (with_obj w m).
Proof.
  constructor; simpl; auto.
  - exists []. split; [reflexivity|constructor].
  - intros k [H1 H2]. lia.
Qed.

Lemma extends_trigger_put (res : nat) (w : World) :
  extends fresh w (trigger_put res w).
Proof.
  unfold trigger_put. destruct (queue (resources w res)) as [|h t].
  - apply extends_refl.
  - destruct (_ <? _)%nat; [|apply extends_refl].
    eapply extends_trans; [apply extends_with_resource|].
    apply extends_schedule; [lra|discriminate].
Qed.

Lemma respects_ret {A : Type} (a : A) : respects fresh (ret a : Sim A).
Proof. intros w b w' H. inversion H; subst. apply extends_refl. Qed.

Lemma respects_raise {A : Type} (e : Exception) : respects fresh (raise e : Sim A).
Proof. intros w b w' H. discriminate. Qed.

Lemma respects_bind {A B : Type} (m : Sim A) (k : A -> Sim B) :
  respects fresh m -> (forall a, respects fresh (k a)) -> respects fresh (bind m k).
Proof.
  intros Hm Hk w b w' H. unfold bind in H.
  destruct (m w) as [a w1|] eqn:E; [|discriminate].
  eapply extends_trans; [eapply Hm; exact E|eapply Hk; exact H].
Qed.

Lemma respects_get_now : respects fresh (get_now : Sim Q).
Proof. intros w a w' H. inversion H; subst. apply extends_refl. Qed.

Lemma respects_get_obj : respects fresh (get_obj : Sim Model).
Proof. intros w a w' H. inversion H; subst. apply extends_refl. Qed.

Lemma respects_get_resource (res : nat) : respects fresh (get_resource res : Sim Resource).
Proof. intros w a w' H. inversion H; subst. apply extends_refl. Qed.

Lemma respects_modify (f : Model -> Model) : respects fresh (modify f : Sim unit).
Proof. intros w a w' H. inversion H; subst. apply extends_with_obj. Qed.

Lemma respects_draw : respects fresh (draw : Sim Q).
Proof.
  intros w a w' H. inversion H; subst. constructor; simpl; auto.
  - exists []. split; [reflexivity|constructor].
  - intros k [H1 H2]. lia.
Qed.

Lemma respects_timeout (pid : nat) (d : Q) : respects fresh (timeout pid d : Sim unit).
Proof.
  intros w a w' H. unfold timeout in H.
  destruct (Qltb d 0) eqn:E; [discriminate|]. inversion H; subst.
  apply extends_schedule; [apply Qltb_false; exact E|discriminate].
Qed.

Lemma respects_request (res pid : nat) : respects fresh (request res pid : Sim unit).
Proof.
  intros w a w' H. unfold request in H. inversion H; subst.
  eapply extends_trans; [apply extends_with_resource|apply extends_trigger_put].
Qed.

Lemma respects_release (res pid : nat) : respects fresh (release res pid : Sim unit).
Proof.
  intros w a w' H. unfold release in H. inversion H; subst.
  eapply extends_trans; [apply extends_with_resource|].
  apply extends_schedule; [lra|discriminate].
Qed.

Lemma respects_process (f : Frame) :
  fresh f = true -> respects fresh (process f : Sim nat).
Proof.
  intros Hf w a w' H. unfold process in H. inversion H; subst.
  eapply extends_trans; [|apply extends_schedule; [lra|discriminate]].
  constructor; simpl; auto.
  - exists []. split; [reflexivity|constructor].
  - intros k Hk. destruct (Nat.eqb_spec k (next_pid w)); [lia|reflexivity].
  - intros k Hk. destruct (Nat.eqb_spec k (next_pid w)); [lia|reflexivity].
  - intros k Hk. exists f. destruct (Nat.eqb_spec k (next_pid w)); [auto|lia].
Qed.

Lemma respects_random : respects fresh (random : Sim Q).
Proof. apply respects_draw. Qed.

Lemma respects_uniform (a b : Q) : respects fresh (uniform a b : Sim Q).
Proof.
  apply respects_bind; [apply respects_random|intros; apply respects_ret].
Qed.

Lemma respects_randint (a b : Z) : respects fresh (randint a b : Sim Z).
Proof.
  unfold randint. destruct (b <? a)%Z; [apply respects_raise|].
  apply respects_bind; [apply respects_random|intros; apply respects_ret].
Qed.

Lemma respects_expovariate (l : Q) : respects fresh (expovariate l : Sim Q).
Proof.
  apply respects_bind; [apply respects_random|intros].
  destruct (Qeq_bool l 0); [apply respects_raise|apply respects_ret].
Qed.

Lemma respects_gauss (mu sigma : Q) : respects fresh (gauss mu sigma : Sim Q).
Proof.
  apply respects_bind; [apply respects_random|intros; apply respects_ret].
Qed.

Lemma respects_poisson (lam : Q) : respects fresh (poisson lam : Sim nat).
Proof.
  unfold poisson. destruct (Qltb lam 0); [apply respects_raise|].
  destruct (Qltb POISSON_LAM_MAX lam); [apply respects_raise|].
  apply respects_bind; [apply respects_random|intros; apply respects_ret].
Qed.

Lemma respects_divide (a b : Q) : respects fresh (divide a b : Sim Q).
Proof.
  unfold divide. destruct (Qeq_bool b 0); [apply respects_raise|].
  destruct (_ || _)%bool; [apply respects_raise|apply respects_ret].
Qed.

End Extends.

Create HintDb respects.

#[export] Hint Resolve respects_ret respects_raise respects_get_now respects_get_obj
  respects_get_resource respects_modify respects_draw respects_timeout
  respects_request respects_release respects_random respects_uniform
  respects_randint respects_expovariate respects_gauss respects_poisson
  respects_divide : respects.

(** Walks through a segment, one bind at a time; [extra] closes the calls
    that have a lemma of their own. *)
Ltac respects_with extra :=
  repeat first
    [ extra
    | apply respects_bind; [|intros]
    | solve [auto with respects]
    | apply respects_process; reflexivity
    | match goal with
      | |- respects _ (match ?x with _ => _ end) => destruct x
      | |- respects _ (let (_, _) := ?x in _) => destruct x
      end ].

Ltac respects_tac := respects_with fail.

Section TriggerPut.
Import Simpy.
Variables Frame Model : Type.

Lemma trigger_put_same (res : nat) (w : Simpy.World Frame Model) :
  obj (trigger_put res w) = obj w /\ now (trigger_put res w) = now w /\
  processes (trigger_put res w) = processes w /\
  next_pid (trigger_put res w) = next_pid w.
Proof.
  unfold trigger_put. destruct (queue (resources w res)); [auto|].
  destruct (_ <? _)%nat; auto.
Qed.

Lemma obj_trigger_put (res : nat) (w : Simpy.World Frame Model) :
  obj (trigger_put res w) = obj w.
Proof. apply trigger_put_same. Qed.

End TriggerPut.

(** ** Code that leaves the resources and the model object alone *)

Section Calm.
Import Simpy.
Variables Frame Model : Type.

Local Abbreviation World := (Simpy.World Frame Model).
Local Abbreviation Sim := (Simpy.Sim Frame Model).

Lemma calm_refl (w : World) : calm w w.
Proof.
  constructor; auto. exists []. split; [reflexivity|constructor].
Qed.

Lemma calm_trans (w1 w2 w3 : World) : calm w1 w2 -> calm w2 w3 -> calm w1 w3.
Proof.
  intros [r1 o1 [new1 [h1 F1]]] [r2 o2 [new2 [h2 F2]]]. constructor.
  - congruence.
  - congruence.
  - exists (new2 ++ new1). split.
    + rewrite h2, h1. apply app_assoc.
    + apply Forall_app. split; assumption.
Qed.

Lemma calm_schedule (ev : Event) (p : Priority) (d : Q) (w : World) :
  (forall res pid, ev <> Request res pid) -> calm w (schedule ev p d w).
Proof.
  intros Hev. constructor; simpl; auto.
  exists [mkScheduled (now w + d) p (next_eid w) ev]. split; [reflexivity|].
  constructor; [exact Hev|constructor].
Qed.

Lemma keeps_ret {A : Type} (a : A) : keeps (ret a : Sim A).
Proof. intros w b w' H. inversion H; subst. apply calm_refl. Qed.

Lemma keeps_raise {A : Type} (e : Exception) : keeps (raise e : Sim A).
Proof. intros w b w' H. discriminate. Qed.

Lemma keeps_bind {A B : Type} (m : Sim A) (k : A -> Sim B) :
  keeps m -> (forall a, keeps (k a)) -> keeps (bind m k).
Proof.
  intros Hm Hk w b w' H. unfold bind in H.
  destruct (m w) as [a w1|] eqn:E; [|discriminate].
  eapply calm_trans; [eapply Hm; exact E|eapply Hk; exact H].
Qed.

Lemma keeps_get_now : keeps (get_now : Sim Q).
Proof. intros w a w' H. inversion H; subst. apply calm_refl. Qed.

Lemma keeps_get_obj : keeps (get_obj : Sim Model).
Proof. intros w a w' H. inversion H; subst. apply calm_refl. Qed.

Lemma keeps_get_resource (res : nat) : keeps (get_resource res : Sim Resource).
Proof. intros w a w' H. inversion H; subst. apply calm_refl. Qed.

Lemma keeps_draw : keeps (draw : Sim Q).
Proof.
  intros w a w' H. inversion H; subst. constructor; simpl; auto.
  exists []. split; [reflexivity|constructor].
Qed.

Lemma keeps_timeout (pid : nat) (d : Q) : keeps (timeout pid d : Sim unit).
Proof.
  intros w a w' H. unfold timeout in H.
  destruct (Qltb d 0); [discriminate|]. inversion H; subst.
  apply calm_schedule. discriminate.
Qed.

Lemma keeps_process (f : Frame) : keeps (process f : Sim nat).
Proof.
  intros w a w' H. unfold process in H. inversion H; subst.
  constructor; simpl; auto.
  eexists [_]. split; [reflexivity|]. constructor; [|constructor].
  simpl. discriminate.
Qed.

Lemma keeps_random : keeps (random : Sim Q).
Proof. apply keeps_draw. Qed.

Lemma keeps_uniform (a b : Q) : keeps (uniform a b : Sim Q).
Proof. apply keeps_bind; [apply keeps_random|intros; apply keeps_ret]. Qed.

Lemma keeps_randint (a b : Z) : keeps (randint a b : Sim Z).
Proof.
  unfold randint. destruct (b <? a)%Z; [apply keeps_raise|].
  apply keeps_bind; [apply keeps_random|intros; apply keeps_ret].
Qed.

Lemma keeps_expovariate (l : Q) : keeps (expovariate l : Sim Q).
Proof.
  apply keeps_bind; [apply keeps_random|intros].
  destruct (Qeq_bool l 0); [apply keeps_raise|apply keeps_ret].
Qed.

Lemma keeps_gauss (mu sigma : Q) : keeps (gauss mu sigma : Sim Q).
Proof. apply keeps_bind; [apply keeps_random|intros; apply keeps_ret]. Qed.

Lemma keeps_poisson (lam : Q) : keeps (poisson lam : Sim nat).
Proof.
  unfold poisson. destruct (Qltb lam 0); [apply keeps_raise|].
  destruct (Qltb POISSON_LAM_MAX lam); [apply keeps_raise|].
  apply keeps_bind; [apply keeps_random|intros; apply keeps_ret].
Qed.

Lemma keeps_divide (a b : Q) : keeps (divide a b : Sim Q).
Proof.
  unfold divide. destruct (Qeq_bool b 0); [apply keeps_raise|].
  destruct (_ || _)%bool; [apply keeps_raise|apply keeps_ret].
Qed.

End Calm.

Create HintDb keeps.

#[export] Hint Resolve keeps_ret keeps_raise keeps_get_now keeps_get_obj
  keeps_get_resource keeps_draw keeps_timeout keeps_process keeps_random
  keeps_uniform keeps_randint keeps_expovariate keeps_gauss keeps_poisson
  keeps_divide : keeps.

Ltac keeps_with extra :=
  repeat first
    [ extra
    | apply keeps_bind; [|intros]
    | solve [auto with keeps]
    | match goal with
      | |- keeps (match ?x with _ => _ end) => destruct x
      | |- keeps (let (_, _) := ?x in _) => destruct x
      end ].

Section Yields.
Import Simpy.
Variables Frame Model : Type.

Local Abbreviation Sim := (Simpy.Sim Frame Model).

Lemma yields_ret {A : Type} (P : A -> Prop) (a : A) : P a -> yields P (ret a : Sim A).
Proof. intros H w b w' E. inversion E; subst. exact H. Qed.

Lemma yields_raise {A : Type} (P : A -> Prop) (e : Exception) :
  yields P (raise e : Sim A).
Proof. intros w b w' E. discriminate. Qed.

Lemma yields_bind {A B : Type} (P : B -> Prop) (m : Sim A) (k : A -> Sim B) :
  (forall a, yields P (k a)) -> yields P (bind m k).
Proof.
  intros Hk w b w' H. unfold bind in H.
  destruct (m w) as [a w1|]; [|discriminate]. eapply Hk; exact H.
Qed.

End Yields.

Ltac yields_tac :=
  repeat first
    [ apply yields_bind; intros
    | apply yields_raise
    | apply yields_ret; reflexivity
    | match goal with
      | |- yields _ (match ?x with _ => _ end) => destruct x
      | |- yields _ (let (_, _) := ?x in _) => destruct x
      end ].

(** ** The clock and the process table along a run *)

Section Clock.
Import Simpy.
Variables Frame Model : Type.
Variable resume : nat -> Frame -> Event -> Sim Frame Model Frame.
Variable returned fresh : Frame -> bool.
Hypothesis resume_respects : forall pid f ev, respects fresh (resume pid f ev).

Local Abbreviation World := (Simpy.World Frame Model).

Lemma clock_ok_popped (T : Q) (w : World) (s : Scheduled) (rest : list Scheduled) :
  clock_ok T w -> heappop (heap w) = Some (s, rest) -> event s <> Until ->
  clock_ok T (popped w s rest) /\ now w <= at_time s.
Proof.
  intros [Hn Hh Hu] E Hs.
  assert (In_s : In s (heap w)) by (apply (heappop_In _ _ _ E); auto).
  rewrite Forall_forall in Hh.
  split; [|apply Hh; exact In_s].
  apply Exists_exists in Hu. destruct Hu as (u & Iu & Eu).
  assert (Iu' : In u rest).
  { apply (heappop_In _ _ _ E) in Iu. destruct Iu as [->|Iu]; [contradiction|exact Iu]. }
  constructor; simpl.
  - apply Qle_trans with (at_time u); [apply (heappop_least _ _ _ E); exact Iu'|].
    apply Qle_lteq. right. apply Hh; [|exact Eu].
    apply (heappop_In _ _ _ E). auto.
  - apply Forall_forall. intros x Ix. split.
    + apply (heappop_least _ _ _ E). exact Ix.
    + apply Hh. apply (heappop_In _ _ _ E). auto.
  - apply Exists_exists. exists u. auto.
Qed.

Lemma clock_ok_extends (T : Q) (w w' : World) :
  clock_ok T w -> extends fresh w w' -> clock_ok T w'.
Proof.
  intros [Hn Hh Hu] [n [new [h F]] _ _ _ _]. constructor.
  - rewrite n. exact Hn.
  - rewrite h, n. apply Forall_app. split; [|exact Hh].
    eapply Forall_impl; [|exact F]. simpl. intros x [H1 H2]. split; [exact H1|].
    intros K. contradiction.
  - rewrite h. apply Exists_app. right. exact Hu.
Qed.

Lemma clock_ok_resumed (T : Q) (pid : nat) (f' : Frame) (w : World) :
  clock_ok T w -> clock_ok T (resumed returned pid f' w).
Proof.
  intros [Hn Hh Hu]. unfold resumed. destruct (returned f').
  - constructor; simpl; auto.
    constructor; [simpl; split; [lra|discriminate]|exact Hh].
  - constructor; simpl; auto.
Qed.

Lemma clock_ok_step (T : Q) (w w' : World) :
  clock_ok T w -> step resume returned w = Continue w' ->
  clock_ok T w' /\ now w <= now w'.
Proof.
  intros C S. apply step_Continue in S. destruct S as (s & rest & E & S).
  assert (Hs : event s <> Until).
  { destruct S as [(res & Ev & _)|[(pid & Ev & _)|(pid & f & f' & w2 & W & _)]];
      try (rewrite Ev; discriminate).
    destruct W as [Ev|[Ev|[res Ev]]]; rewrite Ev; discriminate. }
  destruct (clock_ok_popped _ _ _ _ C E Hs) as [C1 L].
  destruct S as [(res & Ev & ->)|[(pid & Ev & ->)|(pid & f & f' & w2 & W & P & R & ->)]].
  - pose proof (extends_trigger_put _ _ fresh res (popped w s rest)) as X.
    split; [eapply clock_ok_extends; eassumption|].
    rewrite (ext_now X). exact L.
  - split; [exact C1|exact L].
  - pose proof (resume_respects _ _ _ _ _ _ R) as X.
    split; [apply clock_ok_resumed; eapply clock_ok_extends; eassumption|].
    assert (N : now (resumed returned pid f' w2) = now w2)
      by (unfold resumed; destruct (returned f'); reflexivity).
    rewrite N, (ext_now X). exact L.
Qed.

(** When the stop event is reached the clock reads the horizon. *)
Lemma clock_ok_stop (T : Q) (w w' : World) :
  clock_ok T w -> step resume returned w = StopSimulation w' ->
  now w' == T /\ now w <= now w' /\ processes w' = processes w /\
  next_pid w' = next_pid w /\ obj w' = obj w.
Proof.
  intros [Hn Hh Hu] S. apply step_Stop in S. destruct S as (s & rest & E & Ev & ->).
  rewrite Forall_forall in Hh.
  assert (In_s : In s (heap w)) by (apply (heappop_In _ _ _ E); auto).
  simpl. repeat split; try apply Hh; auto.
Qed.

Lemma table_ok_extends (w w' : World) :
  table_ok w -> extends fresh w w' -> table_ok w'.
Proof.
  intros H X k Hk. rewrite (ext_none X) by exact Hk. apply H.
  pose proof (ext_pid X). lia.
Qed.

Lemma table_ok_resumed (pid : nat) (f' : Frame) (w : World) :
  table_ok w -> (pid < next_pid w)%nat -> table_ok (resumed returned pid f' w).
Proof.
  intros H Hp k Hk.
  assert (K : next_pid (resumed returned pid f' w) = next_pid w /\
              processes (resumed returned pid f' w) k =
              if (k =? pid)%nat then Some f' else processes w k)
    by (unfold resumed; destruct (returned f'); split; reflexivity).
  destruct K as [K1 K2]. rewrite K2. rewrite K1 in Hk.
  destruct (Nat.eqb_spec k pid); [lia|]. apply H. exact Hk.
Qed.

Lemma table_ok_lt (w : World) (pid : nat) (f : Frame) :
  table_ok w -> processes w pid = Some f -> (pid < next_pid w)%nat.
Proof.
  intros H P. destruct (Nat.lt_ge_cases pid (next_pid w)) as [L|L]; [exact L|].
  rewrite (H _ L) in P. discriminate.
Qed.

Lemma table_ok_step (w w' : World) :
  table_ok w -> step resume returned w = Continue w' -> table_ok w'.
Proof.
  intros H S. apply step_Continue in S. destruct S as (s & rest & E & S).
  assert (H1 : table_ok (popped w s rest)) by exact H.
  destruct S as [(res & Ev & ->)|[(pid & Ev & ->)|(pid & f & f' & w2 & W & P & R & ->)]].
  - eapply table_ok_extends; [exact H1|apply extends_trigger_put].
  - exact H1.
  - pose proof (resume_respects _ _ _ _ _ _ R) as X.
    apply table_ok_resumed; [eapply table_ok_extends; eassumption|].
    pose proof (table_ok_lt _ _ _ H1 P). pose proof (ext_pid X). lia.
Qed.

End Clock.


(** ** Counting frames *)

Section Counting.
Import Simpy.
Variables Frame Model : Type.
Variable returned fresh select : Frame -> bool.
Hypothesis fresh_not_selected : forall f, fresh f = true -> select f = false.

Local Abbreviation World := (Simpy.World Frame Model).

Lemma count_frames_ext (p p' : nat -> option Frame) (n : nat) :
  (forall k, (k < n)%nat -> p' k = p k) ->
  count_frames select p' n = count_frames select p n.
Proof.
  induction n as [|n IH]; intros H; simpl; [reflexivity|].
  rewrite IH by (intros; apply H; lia). rewrite H by lia. reflexivity.
Qed.

Lemma count_frames_update (p : nat -> option Frame) (pid : nat) (f f' : Frame) (n : nat) :
  (pid < n)%nat -> p pid = Some f ->
  count_frames select (fun k => if (k =? pid)%nat then Some f' else p k) n =
  (count_frames select p n - (if select f then 1 else 0)
   + (if select f' then 1 else 0))%Z.
Proof.
  intros Hn Hp. induction n as [|n IH]; [lia|]. simpl.
  destruct (Nat.eqb_spec n pid) as [->|Hne].
  - rewrite count_frames_ext with (p := p).
    + rewrite Hp. lia.
    + intros k Hk. destruct (Nat.eqb_spec k pid); [lia|reflexivity].
  - rewrite IH by lia. lia.
Qed.

Lemma count_frames_grow (p p' : nat -> option Frame) (n n' : nat) :
  (n <= n')%nat ->
  (forall k, (k < n)%nat -> p' k = p k) ->
  (forall k, (n <= k < n')%nat -> exists f, p' k = Some f /\ fresh f = true) ->
  count_frames select p' n' = count_frames select p n.
Proof.
  intros Hn Ho Hf. induction n' as [|n' IH].
  - assert (n = 0)%nat as -> by lia. reflexivity.
  - destruct (Nat.eq_dec n (S n')) as [->|Hne].
    + apply count_frames_ext. exact Ho.
    + simpl. rewrite IH; [|lia|intros; apply Hf; lia].
      destruct (Hf n') as (f & -> & Fr); [lia|].
      rewrite (fresh_not_selected _ Fr). lia.
Qed.

Lemma count_frames_extends (w w' : World) :
  extends fresh w w' ->
  count_frames select (processes w') (next_pid w') =
  count_frames select (processes w) (next_pid w).
Proof.
  intros X. apply count_frames_grow;
    [apply (ext_pid X)|apply (ext_old X)|apply (ext_new X)].
Qed.

(** Resuming process [pid] from frame [f] to frame [f'] moves the count
    by the difference between the two frames. *)
Lemma count_frames_resumed (w w' : World) (pid : nat) (f f' : Frame) :
  extends fresh w w' -> table_ok w -> processes w pid = Some f ->
  count_frames select (processes (resumed returned pid f' w'))
               (next_pid (resumed returned pid f' w')) =
  (count_frames select (processes w) (next_pid w)
   - (if select f then 1 else 0) + (if select f' then 1 else 0))%Z.
Proof.
  intros X Tb P.
  assert (L : (pid < next_pid w)%nat) by (eapply table_ok_lt; eassumption).
  assert (E : processes (resumed returned pid f' w') =
              (fun k => if (k =? pid)%nat then Some f' else processes w' k) /\
              next_pid (resumed returned pid f' w') = next_pid w')
    by (unfold resumed; destruct (returned f'); split; reflexivity).
  destruct E as [-> ->].
  rewrite count_frames_update with (f := f).
  - rewrite (count_frames_extends _ _ X). reflexivity.
  - pose proof (ext_pid X). lia.
  - rewrite (ext_old X) by exact L. exact P.
Qed.

End Counting.

Section Resumed.
Import Simpy.
Variables Frame Model : Type.
Variable returned : Frame -> bool.

Lemma resumed_same (pid : nat) (f' : Frame) (w : Simpy.World Frame Model) :
  obj (resumed returned pid f' w) = obj w /\
  now (resumed returned pid f' w) = now w /\
  next_pid (resumed returned pid f' w) = next_pid w /\
  resources (resumed returned pid f' w) = resources w /\
  processes (resumed returned pid f' w) =
    (fun k => if (k =? pid)%nat then Some f' else processes w k).
Proof.
  unfold resumed. destruct (returned f'); repeat split; reflexivity.
Qed.

Lemma resumed_heap (pid : nat) (f' : Frame) (w : Simpy.World Frame Model) :
  exists new, heap (resumed returned pid f' w) = new ++ heap w /\
              Forall (fun x => forall res p, event x <> Request res p) new.
Proof.
  unfold resumed. destruct (returned f').
  - eexists [_]. split; [reflexivity|]. constructor; [|constructor].
    simpl. discriminate.
  - exists []. split; [reflexivity|constructor].
Qed.

End Resumed.

(** ** Running a segment symbolically *)

(** Unfolds the binds of a segment that returned, and splits on the tests
    it made. *)
Ltac sim_run H :=
  unfold Simpy.bind, Simpy.randint, Simpy.divide, Simpy.expovariate, Simpy.timeout in H;
  cbn in H;
  repeat match type of H with
         | context [match ?x with _ => _ end] =>
             lazymatch x with
             | context [match _ with _ => _ end] => fail
             | _ => destruct x eqn:?; cbn in H
             end
         end;
  try discriminate H.

Lemma fold_max_app (l : list (Q * Z)) (t : Q) (v : Z) :
  fold_left Z.max (map snd (l ++ [(t, v)])) 0%Z =
  Z.max (fold_left Z.max (map snd l) 0%Z) v.
Proof. rewrite map_app, fold_left_app. reflexivity. Qed.

Lemma app_not_nil {A : Type} (l : list A) (x : A) : l ++ [x] <> [].
Proof. destruct l; discriminate. Qed.


(** ** The store: what each segment of the generators does *)

Section StoreSegments.
Import Simpy TaskA.

Local Abbreviation World := (Simpy.World Frame Supermarket).

#[local] Arguments VisitCounters : simpl never.

Lemma VisitCounters_respects (pid customerId : nat) (items : list (nat * CounterData)) :
  forall total, respects store_fresh (VisitCounters pid customerId items total).
Proof.
  induction items as [|[counterId cd] rest IH]; intros total.
  - unfold VisitCounters, CustomerProcess_checkout, CashierProcess,
      add_currentQueueLength, UpdateQueueStats, set_cashierBusyStart.
    respects_tac.
  - change (VisitCounters pid customerId ((counterId, cd) :: rest) total)
      with (bind random (fun u =>
              if Qltb u (probability cd)
              then bind (request (counters (counterId - 1)) pid)
                        (fun _ => ret (AwaitCounter customerId counterId cd rest total))
              else VisitCounters pid customerId rest total)).
    apply respects_bind; [auto with respects|intros u].
    destruct (Qltb u (probability cd)); [respects_tac|apply IH].
Qed.

Lemma store_resume_respects (pid : nat) (f : Frame) (ev : Event) :
  respects store_fresh (resume pid f ev).
Proof.
  destruct f; destruct ev; simpl; try apply respects_raise;
    unfold CustomerGenerator_loop, VisitCounters_granted, VisitCounters_chosen,
      CashierProcess_granted, CashierProcess_served, add_basketsInUse,
      UpdateBasketStats, add_currentQueueLength, UpdateQueueStats,
      set_stats, set_cashierBusyStart;
    respects_with ltac:(apply VisitCounters_respects).
Qed.


(** Closes the side conditions left by a segment on the fields of the
    object. *)
Ltac ok_fin :=
  cbn; intros;
  repeat match goal with
         | H : _ /\ _ |- _ => destruct H
         | H : ?x = _ |- context [match ?x with _ => _ end] => rewrite H; cbn
         end;
  first
    [ assumption
    | apply app_not_nil
    | rewrite fold_max_app; congruence
    | rewrite !length_app; cbn; lia
    | lia
    | lra
    | apply Forall_app; split; [assumption|repeat constructor]
    | match goal with
      | |- match ?l ++ _ with _ => _ end =>
          destruct l as [|[? ?] ?]; [cbn; try lia; try congruence | cbn; assumption]
      end
    | congruence ].

Lemma CashierProcess_effect (pid customerId : nat) (total : Z) (queueStartTime : Q)
      (w : World) (f' : Frame) (w' : World) :
  supermarket_ok (now w) (obj w) ->
  CashierProcess pid customerId total queueStartTime w = Ok f' w' ->
  supermarket_ok (now w) (obj w') /\ store_effect 0 0 (obj w) (obj w') /\
  f' = AwaitCashier customerId total queueStartTime /\
  queueLengths (stats (obj w')) <> [].
Proof.
  intros [A L1 L2 L3 M F B S] H. unfold CashierProcess in H. sim_run H.
  all: inversion H; subst; clear H; rewrite ?obj_trigger_put; cbn.
  all: repeat split; ok_fin.
Qed.

Lemma CashierProcess_granted_effect (pid customerId : nat) (total : Z)
      (queueStartTime : Q) (w : World) (f' : Frame) (w' : World) :
  supermarket_ok (now w) (obj w) ->
  queueLengths (stats (obj w)) <> [] ->
  CashierProcess_granted pid customerId total queueStartTime w = Ok f' w' ->
  supermarket_ok (now w) (obj w') /\ store_effect 0 0 (obj w) (obj w') /\
  f' = AtCashier customerId total queueStartTime.
Proof.
  intros [A L1 L2 L3 M F B S] N H. unfold CashierProcess_granted, timeout in H.
  sim_run H.
  all: inversion H; subst; clear H; rewrite ?obj_trigger_put; cbn.
  all: repeat split; ok_fin.
Qed.

Lemma CashierProcess_served_effect (pid customerId : nat) (total : Z)
      (queueStartTime : Q) (w : World) (f' : Frame) (w' : World) :
  supermarket_ok (now w) (obj w) ->
  CashierProcess_served pid customerId total queueStartTime w = Ok f' w' ->
  supermarket_ok (now w) (obj w') /\ store_effect (-1) 1 (obj w) (obj w') /\
  f' = CustomerDone customerId.
Proof.
  intros [A L1 L2 L3 M F B S] H. unfold CashierProcess_served in H.
  sim_run H.
  all: inversion H; subst; clear H; rewrite ?obj_trigger_put; cbn.
  all: repeat split; ok_fin.
Qed.


Lemma VisitCounters_effect (pid customerId : nat) (items : list (nat * CounterData)) :
  forall (total : Z) (w : World) (f' : Frame) (w' : World),
  supermarket_ok (now w) (obj w) ->
  VisitCounters pid customerId items total w = Ok f' w' ->
  supermarket_ok (now w) (obj w') /\ store_effect 0 0 (obj w) (obj w') /\
  in_store f' = true /\ returned f' = false /\
  (awaits_cashier f' = true -> queueLengths (stats (obj w')) <> []).
Proof.
  induction items as [|[counterId cd] rest IH]; intros total w f' w' Ok0 H.
  - destruct Ok0 as [A L1 L2 L3 M F B S].
    change (VisitCounters pid customerId [] total)
      with (CustomerProcess_checkout pid customerId total) in H.
    unfold CustomerProcess_checkout, CashierProcess in H. sim_run H.
    all: inversion H; subst; clear H; rewrite ?obj_trigger_put; cbn.
    all: repeat split; ok_fin.
  - change (VisitCounters pid customerId ((counterId, cd) :: rest) total)
      with (bind random (fun u =>
              if Qltb u (probability cd)
              then bind (request (counters (counterId - 1)) pid)
                        (fun _ => ret (AwaitCounter customerId counterId cd rest total))
              else VisitCounters pid customerId rest total)) in H.
    cbn in H. destruct (Qltb _ _).
    + destruct Ok0 as [A L1 L2 L3 M F B S].
      cbn in H. inversion H; subst; clear H; rewrite ?obj_trigger_put; cbn.
      repeat split; ok_fin.
    + apply IH in H; [exact H|exact Ok0].
Qed.

(** What resuming a process does to the object: the invariant of the
    object is kept, and the baskets in use and the customers served move
    with the frame of the process. *)
Lemma store_resume_effect (pid : nat) (f : Frame) (ev : Event)
      (w : World) (f' : Frame) (w' : World) :
  supermarket_ok (now w) (obj w) ->
  (awaits_cashier f = true -> queueLengths (stats (obj w)) <> []) ->
  resume pid f ev w = Ok f' w' ->
  supermarket_ok (now w) (obj w') /\
  store_effect (Z.b2z (in_store f') - Z.b2z (in_store f))
               (Z.b2z (returned f') - Z.b2z (returned f)) (obj w) (obj w') /\
  (awaits_cashier f' = true -> queueLengths (stats (obj w')) <> []).
Proof.
  intros Ok0 Aw H.
  destruct f; destruct ev; try discriminate H; cbn [resume CustomerGenerator CustomerProcess] in H.
  - (* CustomerGenerator starts *)
    destruct Ok0 as [A L1 L2 L3 M F B S].
    unfold CustomerGenerator_loop, timeout in H. sim_run H.
    all: inversion H; subst; clear H; rewrite ?obj_trigger_put; cbn.
    all: repeat split; ok_fin.
  - (* CustomerGenerator wakes up *)
    destruct Ok0 as [A L1 L2 L3 M F B S].
    unfold CustomerGenerator_loop, timeout in H. sim_run H.
    all: inversion H; subst; clear H; rewrite ?obj_trigger_put; cbn.
    all: repeat split; ok_fin.
  - (* CustomerProcess starts *)
    cbn in H.
    apply VisitCounters_effect in H.
    + cbn in H. destruct H as (Ok1 & [E1 E2 E3] & I & R & W). cbn in E1, E2, E3.
      rewrite I, R. split; [exact Ok1|]. split; [|exact W].
      constructor; cbn; auto; lia.
    + destruct Ok0 as [A L1 L2 L3 M F B S]. cbn. constructor; ok_fin.
  - (* a counter was granted *)
    destruct Ok0 as [A L1 L2 L3 M F B S].
    unfold VisitCounters_granted, timeout in H. sim_run H.
    all: inversion H; subst; clear H; rewrite ?obj_trigger_put; cbn.
    all: repeat split; ok_fin.
  - (* the choice at a counter is made *)
    unfold VisitCounters_chosen in H. destruct (purchases counterData) as [bp pv].
    unfold randint in H. cbn in H. destruct (_ <? _)%Z; [discriminate|]. cbn in H.
    apply VisitCounters_effect in H.
    + cbn in H. destruct H as (Ok1 & [E1 E2 E3] & I & R & W).
      rewrite I, R. split; [exact Ok1|]. split; [|exact W].
      constructor; cbn; auto; lia.
    + exact Ok0.
  - (* the cashier was granted *)
    specialize (Aw eq_refl).
    destruct Ok0 as [A L1 L2 L3 M F B S].
    unfold CashierProcess_granted, timeout in H. sim_run H.
    all: inversion H; subst; clear H; rewrite ?obj_trigger_put; cbn.
    all: repeat split; ok_fin.
  - (* the cashier is done *)
    destruct Ok0 as [A L1 L2 L3 M F B S].
    unfold CashierProcess_served in H. sim_run H.
    all: inversion H; subst; clear H; rewrite ?obj_trigger_put; cbn.
    all: repeat split; ok_fin.
Qed.

End StoreSegments.

(** ** The store: the invariant of a run *)

Section StoreRun.
Import Simpy TaskA.

Local Abbreviation World := (Simpy.World Frame Supermarket).

Lemma supermarket_ok_later (t t' : Q) (m : Supermarket) :
  t <= t' -> supermarket_ok t m -> supermarket_ok t' m.
Proof.
  intros L [A L1 L2 L3 M F B S]. constructor; auto.
  - lra.
  - destruct (cashierBusyStart m); [|exact I]. destruct S. split; lra.
Qed.

Lemma store_fresh_not_returned (f : Frame) : store_fresh f = true -> returned f = false.
Proof. destruct f; simpl; congruence. Qed.

Lemma store_fresh_not_in_store (f : Frame) : store_fresh f = true -> in_store f = false.
Proof. destruct f; simpl; congruence. Qed.

Lemma store_fresh_not_waiting (f : Frame) :
  store_fresh f = true -> awaits_cashier f = false.
Proof. destruct f; simpl; congruence. Qed.

(** Every step of the event loop keeps the invariant of the store. *)
Lemma store_ok_step (T : Q) (w w' : World) :
  store_ok T w -> step w = Continue w' -> store_ok T w'.
Proof.
  intros [C Tb Mo Se Ba Wa] S.
  destruct (clock_ok_step _ _ _ _ _ store_resume_respects T w w' C S) as [C' L].
  pose proof (table_ok_step _ _ _ _ _ store_resume_respects w w' Tb S) as Tb'.
  apply step_Continue in S. destruct S as (s & rest & E & S).
  destruct S as [(res & Ev & ->)|[(pid & Ev & ->)|(pid & f & f' & w2 & W & P & R & ->)]].
  - destruct (trigger_put_same _ _ res (popped w s rest)) as (Eo & En & Ep & Ei).
    constructor; auto; rewrite ?Eo, ?Ep, ?Ei; auto.
    eapply supermarket_ok_later; [exact L|exact Mo].
  - constructor; auto.
    eapply supermarket_ok_later; [exact L|exact Mo].
  - pose proof (store_resume_respects _ _ _ _ _ _ R) as X.
    destruct (resumed_same _ _ returned pid f' w2) as (Eo & En & Ei & _ & Ep).
    assert (Mo1 : supermarket_ok (now (popped w s rest)) (obj (popped w s rest))).
    { eapply supermarket_ok_later; [|exact Mo].
      rewrite En, (ext_now X) in L. exact L. }
    destruct (store_resume_effect _ _ _ _ _ _ Mo1 (Wa pid f P) R) as (Mo2 & [E1 E2 E3] & W2).
    constructor; auto.
    + rewrite Eo, En, (ext_now X). exact Mo2.
    + rewrite Eo, E2.
      rewrite (count_frames_resumed _ _ returned store_fresh returned
                 store_fresh_not_returned _ _ pid f f' X Tb P).
      cbn [obj popped with_heap]. rewrite Se. cbn [processes next_pid popped with_heap].
      destruct (returned f), (returned f'); cbn; lia.
    + rewrite Eo, E1.
      rewrite (count_frames_resumed _ _ returned store_fresh in_store
                 store_fresh_not_in_store _ _ pid f f' X Tb P).
      cbn [obj popped with_heap]. rewrite Ba. cbn [processes next_pid popped with_heap].
      destruct (in_store f), (in_store f'); cbn; lia.
    + intros k g Pk Ag. rewrite Eo. rewrite Ep in Pk.
      destruct (Nat.eqb_spec k pid) as [->|Hne].
      * inversion Pk; subst. apply W2. exact Ag.
      * apply E3.
        destruct (Nat.lt_ge_cases k (next_pid (popped w s rest))) as [Lk|Lk].
        -- rewrite (ext_old X) in Pk by exact Lk. apply (Wa k g); assumption.
        -- destruct (Nat.lt_ge_cases k (next_pid w2)) as [Lk2|Lk2].
           ++ destruct (ext_new X (conj Lk Lk2)) as (g' & Pg & Fg).
              rewrite Pg in Pk. inversion Pk; subst.
              rewrite (store_fresh_not_waiting _ Fg) in Ag. discriminate.
           ++ rewrite (ext_none X) in Pk by exact Lk2.
              cbn in Pk. rewrite (Tb k) in Pk by exact Lk. discriminate.
Qed.

(** The invariant holds when the event loop is entered. *)
Lemma store_ok_start (p : Params) (rng : nat -> Q) :
  0 < simTime p -> store_ok (simTime p) (launch (simTime p) (start p rng)).
Proof.
  intros H. constructor; cbn.
  - constructor; cbn.
    + lra.
    + repeat constructor; cbn; intros; try discriminate; lra.
    + constructor. reflexivity.
  - intros k Hk. cbn in *. destruct (Nat.eqb_spec k 0); [lia|reflexivity].
  - constructor; cbn; auto; try lra; reflexivity.
  - reflexivity.
  - reflexivity.
  - intros k f. destruct (Nat.eqb_spec k 0); [|discriminate].
    intros K; inversion K; subst. discriminate.
Qed.

Lemma store_ok_reachable (p : Params) (rng : nat -> Q) (w : World) :
  0 < simTime p ->
  reachable resume returned (launch (simTime p) (start p rng)) w ->
  store_ok (simTime p) w.
Proof.
  intros H R. induction R.
  - apply store_ok_start. exact H.
  - eapply store_ok_step; eassumption.
Qed.

End StoreRun.

(** ** The library: what each segment of the generators does *)

Section LibrarySegments.
Import Simpy TaskB.

Local Abbreviation World := (Simpy.World Frame Library).

Lemma spawn_readers_respects (readerN : nat) :
  forall readerId, respects library_fresh (spawn_readers readerN readerId).
Proof.
  induction readerN as [|n IH]; intros readerId; simpl.
  - apply respects_ret.
  - apply respects_bind; [apply respects_process; reflexivity|intros; apply IH].
Qed.

Lemma library_resume_respects (pid : nat) (f : Frame) (ev : Event) :
  respects library_fresh (resume pid f ev).
Proof.
  destruct f; destruct ev; simpl; try apply respects_raise;
    unfold uniform_loop, exponential_loop, normal_loop, poisson_loop,
      ReaderProcess_start, ReaderProcess_granted, ReaderProcess_served,
      add_currentQueueLen, UpdateQueueStats, set_statistic;
    respects_with ltac:(apply spawn_readers_respects).
Qed.

Lemma spawn_readers_keeps (readerN : nat) :
  forall readerId, keeps (spawn_readers readerN readerId).
Proof.
  induction readerN as [|n IH]; intros readerId; simpl.
  - apply keeps_ret.
  - apply keeps_bind; [apply keeps_process|intros; apply IH].
Qed.

(** [ReaderGenerator] touches neither the librarians nor the statistic,
    and stays a generator. *)
Lemma ReaderGenerator_keeps (pid : nat) (f : Frame) (ev : Event) :
  keeps (ReaderGenerator pid f ev).
Proof.
  destruct f; destruct ev; simpl; try apply keeps_raise;
    unfold uniform_loop, exponential_loop, normal_loop, poisson_loop;
    keeps_with ltac:(apply spawn_readers_keeps).
Qed.

Lemma ReaderGenerator_yields (pid : nat) (f : Frame) (ev : Event) :
  yields (fun f' => generator_frame f' = true) (ReaderGenerator pid f ev).
Proof.
  destruct f; destruct ev; simpl; try apply yields_raise;
    unfold uniform_loop, exponential_loop, normal_loop, poisson_loop;
    yields_tac.
Qed.


Lemma Qsum_app (l : list Q) (x : Q) : Qsum (l ++ [x]) == Qsum l + x.
Proof. induction l as [|y l IH]; simpl; [lra|rewrite IH; lra]. Qed.

Lemma Qsum_list_add (l : list Q) :
  forall i x, (i < List.length l)%nat -> Qsum (list_add i x l) == Qsum l + x.
Proof.
  induction l as [|y l IH]; intros i x H; simpl in H; [lia|].
  destruct i as [|i]; simpl; [lra|]. rewrite IH by lia. lra.
Qed.

Lemma nth_list_add_same (l : list Q) :
  forall i x, (i < List.length l)%nat -> nth i (list_add i x l) 0 = nth i l 0 + x.
Proof.
  induction l as [|y l IH]; intros i x H; simpl in H; [lia|].
  destruct i as [|i]; simpl; [reflexivity|]. apply IH. lia.
Qed.

Lemma nth_list_add_other (l : list Q) :
  forall i j x, i <> j -> nth j (list_add i x l) 0 = nth j l 0.
Proof.
  induction l as [|y l IH]; intros i j x H; [destruct i, j; reflexivity|].
  destruct i as [|i], j as [|j]; simpl; try reflexivity; [lia|].
  apply IH. lia.
Qed.

Ltac lib_fin :=
  cbn; intros;
  repeat match goal with
         | H : _ /\ _ |- _ => destruct H
         | H : ?x = _ |- context [match ?x with _ => _ end] => rewrite H; cbn
         end;
  first
    [ assumption
    | apply app_not_nil
    | rewrite fold_max_app; congruence
    | rewrite !length_app; cbn; lia
    | lia
    | lra
    | match goal with
      | |- match ?l ++ _ with _ => _ end =>
          destruct l as [|[? ?] ?]; [cbn; try lia; try congruence | cbn; assumption]
      end
    | congruence
    | reflexivity ].

(** [ReaderProcess] up to its request: the reader is appended to the put
    queue of the librarian it chose, and the head of that queue is
    tried. *)
Lemma ReaderProcess_start_spec (pid readerId : nat) (w : World) (f' : Frame) (w' : World) :
  statistic_ok (obj w) ->
  ReaderProcess_start pid readerId w = Ok f' w' ->
  exists i b v,
    f' = AwaitLibrarian readerId i b v (now w) /\
    (let r := resources w i in
     let wa := with_resource w i (mkResource (capacity r) (users r) (queue r ++ [pid])) in
     heap w' = heap (trigger_put i wa) /\
     resources w' = resources (trigger_put i wa)) /\
    now w' = now w /\
    LibrarianBusy (statistic (obj w')) = LibrarianBusy (statistic (obj w)) /\
    statistic_ok (obj w') /\ library_effect 0 (obj w) (obj w') /\
    QueueLen (statistic (obj w')) <> [].
Proof.
  intros [L1 L2 L3 M F C] H. unfold ReaderProcess_start, request in H.
  sim_run H. inversion H; subst; clear H. unfold librarians.
  set (i := choose_librarian _ _ _ _).
  exists i, q, q0.
  match goal with
  | |- context [trigger_put i ?wa] =>
      destruct (trigger_put_same _ _ i wa) as (Eo & En & _ & _)
  end.
  cbn. rewrite ?Eo, ?En. cbn.
  repeat split; lib_fin.
Qed.

(** [ReaderProcess] from the grant to its timeout. *)
Lemma ReaderProcess_granted_spec (pid readerId i : nat) (b v qs : Q)
      (w : World) (f' : Frame) (w' : World) :
  statistic_ok (obj w) ->
  QueueLen (statistic (obj w)) <> [] ->
  ReaderProcess_granted pid readerId i b v qs w = Ok f' w' ->
  f' = AtLibrarian readerId i (now w - qs) (now w) /\
  resources w' = resources w /\ now w' = now w /\
  (exists x, heap w' = x :: heap w /\ forall res p, event x <> Request res p) /\
  LibrarianBusy (statistic (obj w')) = LibrarianBusy (statistic (obj w)) /\
  statistic_ok (obj w') /\ library_effect 0 (obj w) (obj w').
Proof.
  intros [L1 L2 L3 M F C] N H. unfold ReaderProcess_granted, uniform in H.
  sim_run H. inversion H; subst; clear H. cbn.
  repeat split; try lib_fin.
  eexists. split; [reflexivity|]. cbn. discriminate.
Qed.

(** [ReaderProcess] after the service: the statistic is written and the
    librarian released. *)
Lemma ReaderProcess_served_spec (pid readerId i : nat) (qw s : Q)
      (w : World) (f' : Frame) (w' : World) :
  statistic_ok (obj w) ->
  ReaderProcess_served pid readerId i qw s w = Ok f' w' ->
  f' = ReaderDone readerId /\
  (i < List.length (LibrarianBusy (statistic (obj w))))%nat /\
  resources w' =
    (fun k => if (k =? i)%nat
              then mkResource (capacity (resources w i))
                              (remove_first pid (users (resources w i)))
                              (queue (resources w i))
              else resources w k) /\
  now w' = now w /\
  (exists x, heap w' = x :: heap w /\ forall res p, event x <> Request res p) /\
  LibrarianBusy (statistic (obj w')) =
    list_add i (now w - s) (LibrarianBusy (statistic (obj w))) /\
  statistic_ok (obj w') /\ library_effect 1 (obj w) (obj w').
Proof.
  intros [L1 L2 L3 M F C] H. unfold ReaderProcess_served, release in H.
  sim_run H. inversion H; subst; clear H. cbn.
  match goal with
  | E : (_ <? _)%nat = true |- _ => apply Nat.ltb_lt in E
  end.
  repeat split; try lib_fin.
  - eexists. split; [reflexivity|]. cbn. discriminate.
  - cbn. rewrite Qsum_list_add by assumption. rewrite Qsum_app. rewrite C.
    reflexivity.
Qed.

(** What resuming a process does to the statistic. *)
Lemma library_resume_effect (pid : nat) (f : Frame) (ev : Event)
      (w : World) (f' : Frame) (w' : World) :
  statistic_ok (obj w) ->
  (awaits_librarian f = true -> QueueLen (statistic (obj w)) <> []) ->
  resume pid f ev w = Ok f' w' ->
  statistic_ok (obj w') /\
  library_effect (Z.b2z (reader_done f') - Z.b2z (reader_done f)) (obj w) (obj w') /\
  (awaits_librarian f' = true -> QueueLen (statistic (obj w')) <> []).
Proof.
  intros Ok0 Aw H.
  assert (G : generator_frame f = true ->
              statistic_ok (obj w') /\
              library_effect (Z.b2z (reader_done f') - Z.b2z (reader_done f))
                             (obj w) (obj w') /\
              (awaits_librarian f' = true -> QueueLen (statistic (obj w')) <> [])).
  { intros Gf.
    assert (H' : ReaderGenerator pid f ev w = Ok f' w')
      by (destruct f; try discriminate Gf; exact H).
    pose proof (ReaderGenerator_keeps _ _ _ _ _ _ H') as K.
    pose proof (ReaderGenerator_yields _ _ _ _ _ _ H') as Y. cbn in Y.
    rewrite (calm_obj K).
    assert (reader_done f = false) as -> by (destruct f; try discriminate Gf; reflexivity).
    assert (reader_done f' = false) as -> by (destruct f'; try discriminate Y; reflexivity).
    split; [exact Ok0|]. split; [constructor; [cbn; lia|auto]|].
    destruct f'; try discriminate Y; cbn; intros D; discriminate D. }
  destruct f; try (apply G; reflexivity); destruct ev; try discriminate H;
    cbn [resume ReaderProcess] in H.
  - apply ReaderProcess_start_spec in H; [|exact Ok0].
    destruct H as (i & b & v & -> & _ & _ & _ & Ok1 & E & N).
    split; [exact Ok1|]. split; [exact E|]. intros _. exact N.
  - apply ReaderProcess_granted_spec in H; [|exact Ok0|apply Aw; reflexivity].
    destruct H as (-> & _ & _ & _ & _ & Ok1 & E).
    split; [exact Ok1|]. split; [exact E|]. cbn; intros D; discriminate D.
  - apply ReaderProcess_served_spec in H; [|exact Ok0].
    destruct H as (-> & _ & _ & _ & _ & _ & Ok1 & E).
    split; [exact Ok1|]. split; [exact E|]. cbn; intros D; discriminate D.
Qed.

End LibrarySegments.

(** ** The librarians serve one reader at a time *)

Section Desks.
Import Simpy TaskB.

Lemma filter_heappop (P : Scheduled -> bool) (q : list Scheduled) :
  forall s r, heappop q = Some (s, r) ->
  List.length (filter P q) =
  (List.length (filter P r) + if P s then 1 else 0)%nat.
Proof.
  induction q as [|y q IH]; intros s r H; simpl in H; [discriminate|].
  destruct (heappop q) as [[m r']|] eqn:E.
  - specialize (IH m r' eq_refl).
    destruct (before y m); inversion H; subst; clear H; simpl.
    + destruct (P s); simpl; lia.
    + destruct (P y); simpl; rewrite IH; destruct (P s); simpl; lia.
  - inversion H; subst; clear H.
    destruct q as [|z q].
    + simpl. destruct (P s); reflexivity.
    + simpl in E. destruct (heappop q) as [[? ?]|]; [destruct (before z s0)|]; discriminate.
Qed.

Lemma filter_nil_length {A : Type} (P : A -> bool) (l : list A) :
  List.length (filter P l) = 0%nat -> forall x, In x l -> P x = false.
Proof.
  intros H x Hx. destruct (P x) eqn:E; [|reflexivity].
  assert (In x (filter P l)) as K by (apply filter_In; auto).
  destruct (filter P l); [contradiction|discriminate].
Qed.

Lemma is_request_true (j : nat) (x : Scheduled) (p : nat) :
  event x = Request j p -> is_request j x = true.
Proof. intros E. unfold is_request. rewrite E. apply Nat.eqb_refl. Qed.

Lemma filter_not_requests (j : nat) (new : list Scheduled) :
  Forall (fun x => forall res pid, event x <> Request res pid) new ->
  filter (is_request j) new = [].
Proof.
  induction 1 as [|x l Hx _ IH]; [reflexivity|]. simpl. rewrite IH.
  unfold is_request. destruct (event x) eqn:E; try reflexivity.
  exfalso. eapply Hx. reflexivity.
Qed.

Variable roles : nat -> Role.
Variable hp : list Scheduled.
Variable rs : nat -> Resource.
Variable busy : list Q.
Variable t : Q.

(** Time passes, an event is popped. *)
Lemma desk_pop (s : Scheduled) (rest : list Scheduled) (t' : Q) (j : nat) :
  heappop hp = Some (s, rest) -> t <= t' ->
  desk_ok roles hp rs busy t j -> desk_ok roles rest rs busy t' j.
Proof.
  intros E L [Ca Nd Qu Us Pe Gr Se Bu]. constructor; auto.
  - rewrite (filter_heappop (is_request j) _ _ _ E) in Pe. lia.
  - intros x p Ix. apply Gr. apply (heappop_In _ _ _ E). auto.
  - intros p s0 R. destruct (Se p s0 R) as (U & B1 & B2). repeat split; auto. lra.
  - lra.
Qed.

(** The popped event is a granted request: it was the only one. *)
Lemma desk_popped_request (s : Scheduled) (rest : list Scheduled) (j p : nat) :
  heappop hp = Some (s, rest) -> event s = Request j p ->
  desk_ok roles hp rs busy t j ->
  (forall x q, In x rest -> event x <> Request j q) /\
  users (rs j) = [p] /\ roles p = Waiting j.
Proof.
  intros E Ev [Ca Nd Qu Us Pe Gr Se Bu]. split.
  - rewrite (filter_heappop (is_request j) _ _ _ E) in Pe.
    rewrite (is_request_true _ _ _ Ev) in Pe.
    intros x q Ix Ex.
    assert (K : is_request j x = false) by (apply filter_nil_length with (l := rest); [lia|exact Ix]).
    rewrite (is_request_true _ _ _ Ex) in K. discriminate.
  - apply (Gr s p); [|exact Ev]. apply (heappop_In _ _ _ E). auto.
Qed.

(** Events that are not granted requests are added. *)
Lemma desk_more_events (new : list Scheduled) (j : nat) :
  Forall (fun x => forall res pid, event x <> Request res pid) new ->
  desk_ok roles hp rs busy t j -> desk_ok roles (new ++ hp) rs busy t j.
Proof.
  intros F [Ca Nd Qu Us Pe Gr Se Bu]. constructor; auto.
  - rewrite filter_app, (filter_not_requests j _ F). exact Pe.
  - intros x p Ix Ex. apply in_app_or in Ix. destruct Ix as [Ix|Ix].
    + rewrite Forall_forall in F. exfalso. eapply F; eassumption.
    + eapply Gr; eassumption.
Qed.

Lemma desk_roles_ext (roles' : nat -> Role) (j : nat) :
  (forall k, roles' k = roles k) ->
  desk_ok roles hp rs busy t j -> desk_ok roles' hp rs busy t j.
Proof.
  intros X [Ca Nd Qu Us Pe Gr Se Bu]. constructor; auto.
  - intros h Ih. rewrite X. auto.
  - destruct Us as [U|(q & U & R)]; [left; exact U|right].
    exists q. rewrite X. auto.
  - intros x p Ix Ex. rewrite X. eauto.
  - intros p s R. rewrite X in R. auto.
Qed.

(** A process that is nothing to the librarians joins the put queue of
    librarian [i]. *)
Lemma desk_enqueue (p i : nat) :
  roles p = Idle ->
  (forall j, desk_ok roles hp rs busy t j) ->
  forall j,
    desk_ok (fun k => if (k =? p)%nat then Waiting i else roles k) hp
            (fun k => if (k =? i)%nat
                      then mkResource (capacity (rs i)) (users (rs i)) (queue (rs i) ++ [p])
                      else rs k)
            busy t j.
Proof.
  intros Hp H j. destruct (H j) as [Ca Nd Qu Us Pe Gr Se Bu].
  assert (NQ : ~ In p (queue (rs j))).
  { intros I. destruct (Qu p I) as [_ R]. congruence. }
  assert (NU : ~ In p (users (rs j))).
  { destruct Us as [U|(q & U & [R|[s R]])]; rewrite U; simpl; [tauto| |];
      intros [<-|[]]; congruence. }
  assert (Keep : forall q, roles q <> Idle ->
                 (if (q =? p)%nat then Waiting i else roles q) = roles q).
  { intros q R. destruct (Nat.eqb_spec q p) as [->|]; [contradiction|reflexivity]. }
  destruct (j =? i)%nat eqn:Eji;
    [apply Nat.eqb_eq in Eji; subst i; pose proof (Nat.eqb_refl j) as Eji|];
    constructor; cbn; rewrite ?Eji; cbn; auto.
  - apply NoDup_app; [exact Nd|repeat constructor; simpl; tauto|].
    intros x Ix [<-|[]]. contradiction.
  - intros h Ih. apply in_app_or in Ih. destruct Ih as [Ih|[<-|[]]].
    + destruct (Qu h Ih) as [U R]. split; [exact U|].
      rewrite Keep; congruence.
    + split; [exact NU|]. rewrite Nat.eqb_refl. reflexivity.
  - destruct Us as [U|(q & U & R)]; [left; exact U|right].
    exists q. split; [exact U|].
    rewrite Keep; [exact R|]. destruct R as [R|[s R]]; congruence.
  - intros x q Ix Ex. destruct (Gr x q Ix Ex) as [U R]. split; [exact U|].
    rewrite Keep; congruence.
  - intros q s R. destruct (Nat.eqb_spec q p) as [->|]; [discriminate|]. auto.
  - intros h Ih. destruct (Qu h Ih) as [U R]. split; [exact U|].
    rewrite Keep; congruence.
  - destruct Us as [U|(q & U & R)]; [left; exact U|right].
    exists q. split; [exact U|].
    rewrite Keep; [exact R|]. destruct R as [R|[s R]]; congruence.
  - intros x q Ix Ex. destruct (Gr x q Ix Ex) as [U R]. split; [exact U|].
    rewrite Keep; congruence.
  - intros q s R. destruct (Nat.eqb_spec q p) as [->|]; [discriminate|]. auto.
Qed.

(** The process [p], granted by librarian [i] and resumed, is served from
    now on. *)
Lemma desk_serve (p i : nat) :
  roles p = Waiting i -> users (rs i) = [p] ->
  (forall x q, In x hp -> event x <> Request i q) ->
  (forall j, desk_ok roles hp rs busy t j) ->
  forall j, desk_ok (fun k => if (k =? p)%nat then Serving i t else roles k)
                    hp rs busy t j.
Proof.
  intros Hp Up Np H j. destruct (H j) as [Ca Nd Qu Us Pe Gr Se Bu].
  destruct (H i) as [_ _ Qui _ _ _ _ Bui].
  assert (NQ : ~ In p (queue (rs j))).
  { intros I. destruct (Qu p I) as [U R]. rewrite Hp in R. inversion R; subst.
    apply (proj1 (Qui p I)). rewrite Up. left. reflexivity. }
  constructor; auto.
  - intros h Ih. destruct (Qu h Ih) as [U R]. split; [exact U|].
    destruct (Nat.eqb_spec h p) as [->|]; [contradiction|exact R].
  - destruct Us as [U|(q & U & R)]; [left; exact U|right].
    exists q. split; [exact U|].
    destruct (Nat.eqb_spec q p) as [->|]; [|exact R].
    right. exists t. destruct R as [R|[s R]]; congruence.
  - intros x q Ix Ex. destruct (Gr x q Ix Ex) as [U R]. split; [exact U|].
    destruct (Nat.eqb_spec q p) as [->|]; [|exact R].
    exfalso. rewrite Hp in R. inversion R; subst. eapply Np; eassumption.
  - intros q s R. destruct (Nat.eqb_spec q p) as [->|]; [|auto].
    inversion R; subst. repeat split; auto; lra.
Qed.

(** The process [p] leaves librarian [i], who served it since [s]: the
    service is added to the busy time. *)
Lemma desk_release (p i : nat) (s : Q) :
  roles p = Serving i s -> (i < List.length busy)%nat ->
  (forall j, desk_ok roles hp rs busy t j) ->
  forall j,
    desk_ok (fun k => if (k =? p)%nat then Idle else roles k) hp
            (fun k => if (k =? i)%nat
                      then mkResource (capacity (rs i))
                                      (remove_first p (users (rs i))) (queue (rs i))
                      else rs k)
            (list_add i (t - s) busy) t j.
Proof.
  intros Hp Li H j. destruct (H j) as [Ca Nd Qu Us Pe Gr Se Bu].
  destruct (H i) as [_ _ _ _ _ _ Sei _].
  destruct (Sei p s Hp) as (Up & B1 & B2).
  assert (Rm : remove_first p (users (rs i)) = []).
  { rewrite Up. simpl. rewrite Nat.eqb_refl. reflexivity. }
  destruct (j =? i)%nat eqn:Eji;
    [apply Nat.eqb_eq in Eji; subst j; pose proof (Nat.eqb_refl i) as Eji|];
    constructor; cbn; rewrite ?Eji; cbn; rewrite ?Rm; auto.
  - intros h Ih. destruct (Qu h Ih) as [U R]. split; [simpl; tauto|].
    destruct (Nat.eqb_spec h p) as [->|]; [congruence|exact R].
  - intros x q Ix Ex. destruct (Gr x q Ix Ex) as [U R]. exfalso.
    assert (q = p) by congruence. subst q. congruence.
  - intros q s' R. destruct (Nat.eqb_spec q p) as [->|]; [discriminate|].
    destruct (Se q s' R) as (U & _). congruence.
  - rewrite nth_list_add_same by exact Li. lra.
  - intros h Ih. destruct (Qu h Ih) as [U R]. split; [exact U|].
    destruct (Nat.eqb_spec h p) as [->|]; [congruence|exact R].
  - destruct Us as [U|(q & U & R)]; [left; exact U|right].
    exists q. split; [exact U|].
    destruct (Nat.eqb_spec q p) as [->|]; [|exact R].
    exfalso. apply Nat.eqb_neq in Eji. rewrite Hp in R.
    destruct R as [R|[s' R]]; [discriminate|]. inversion R. congruence.
  - intros x q Ix Ex. destruct (Gr x q Ix Ex) as [U R]. split; [exact U|].
    destruct (Nat.eqb_spec q p) as [->|]; [congruence|exact R].
  - intros q s' R. destruct (Nat.eqb_spec q p) as [->|]; [discriminate|].
    destruct (Se q s' R) as (U & B3 & B4). apply Nat.eqb_neq in Eji.
    rewrite nth_list_add_other by congruence. auto.
  - apply Nat.eqb_neq in Eji. rewrite nth_list_add_other by congruence. exact Bu.
Qed.

End Desks.

Section DeskGrant.
Import Simpy TaskB.
Variables Frame Model : Type.

(** [_trigger_put]: a free librarian takes the head of its put queue. *)
Lemma desk_trigger_put (roles : nat -> Role) (busy : list Q) (t : Q) (i : nat)
      (w : Simpy.World Frame Model) :
  (forall j, desk_ok roles (heap w) (resources w) busy t j) ->
  forall j, desk_ok roles (heap (trigger_put i w)) (resources (trigger_put i w))
                    busy t j.
Proof.
  intros H j. unfold trigger_put.
  destruct (queue (resources w i)) as [|h rest] eqn:Eq; [apply H|].
  destruct (List.length (users (resources w i)) <? capacity (resources w i))%nat eqn:El;
    [|apply H].
  destruct (H i) as [Cai Ndi Qui Usi Pei Gri Sei Bui].
  apply Nat.ltb_lt in El. rewrite Cai in El.
  assert (Ui : users (resources w i) = []).
  { destruct (users (resources w i)); [reflexivity|simpl in El; lia]. }
  rewrite Eq in Ndi, Qui. rewrite Ui in *.
  assert (NoReq : forall x q, In x (heap w) -> event x <> Request i q).
  { intros x q Ix Ex. destruct (Gri x q Ix Ex) as [U _]. discriminate. }
  destruct (H j) as [Ca Nd Qu Us Pe Gr Se Bu].
  destruct (j =? i)%nat eqn:Eji;
    [apply Nat.eqb_eq in Eji; subst j; pose proof (Nat.eqb_refl i) as Eji|];
    constructor; cbn; rewrite ?Eji; cbn; auto.
  - inversion Ndi; assumption.
  - intros k Ik. split.
    + intros [<-|[]]. inversion Ndi; contradiction.
    + apply Qui. right. exact Ik.
  - right. exists h. split; [reflexivity|]. left. apply Qui. left. reflexivity.
  - assert (K : filter (is_request i) (heap w) = []).
    { destruct (filter (is_request i) (heap w)) as [|x l] eqn:F; [reflexivity|].
      assert (Ix : In x (filter (is_request i) (heap w))) by (rewrite F; left; reflexivity).
      apply filter_In in Ix. destruct Ix as [Ix Rx]. exfalso.
      unfold is_request in Rx. destruct (event x) eqn:Ex; try discriminate.
      apply Nat.eqb_eq in Rx. subst res. eapply NoReq; eassumption. }
    rewrite K. simpl. lia.
  - intros x q [<-|Ix] Ex.
    + cbn in Ex. inversion Ex; subst. split; [reflexivity|]. apply Qui. left. reflexivity.
    + exfalso. eapply NoReq; eassumption.
  - intros q s R. destruct (Sei q s R) as [U _]. discriminate.
  - unfold is_request at 1. cbn. rewrite Nat.eqb_sym, Eji. exact Pe.
  - intros x q [<-|Ix] Ex.
    + cbn in Ex. inversion Ex; subst. rewrite Nat.eqb_refl in Eji. discriminate.
    + eapply Gr; eassumption.
Qed.

End DeskGrant.

(** ** The library: the invariant of a run *)

Section LibraryRun.
Import Simpy TaskB.

Local Abbreviation World := (Simpy.World Frame Library).

Lemma library_fresh_not_done (f : Frame) :
  library_fresh f = true -> reader_done f = false.
Proof. destruct f; simpl; congruence. Qed.

Lemma library_fresh_not_waiting (f : Frame) :
  library_fresh f = true -> awaits_librarian f = false.
Proof. destruct f; simpl; congruence. Qed.

Lemma library_fresh_idle (f : Frame) : library_fresh f = true -> role (Some f) = Idle.
Proof. destruct f; simpl; congruence. Qed.

Lemma generator_frame_idle (f : Frame) : generator_frame f = true -> role (Some f) = Idle.
Proof. destruct f; simpl; congruence. Qed.

(** The roles after process [pid] was resumed: only its own changed. *)
Lemma roles_resumed (w1 w2 : World) (pid : nat) (f f' : Frame) :
  extends library_fresh w1 w2 -> table_ok w1 -> processes w1 pid = Some f ->
  forall k, role (processes (resumed returned pid f' w2) k) =
            if (k =? pid)%nat then role (Some f') else role (processes w1 k).
Proof.
  intros X Tb P k.
  destruct (resumed_same _ _ returned pid f' w2) as (_ & _ & _ & _ & ->).
  destruct (Nat.eqb_spec k pid) as [->|Hne]; [reflexivity|].
  destruct (Nat.lt_ge_cases k (next_pid w1)) as [Lk|Lk].
  - rewrite (ext_old X) by exact Lk. reflexivity.
  - rewrite (Tb k Lk).
    destruct (Nat.lt_ge_cases k (next_pid w2)) as [Lk2|Lk2].
    + destruct (ext_new X (conj Lk Lk2)) as (g & -> & Fg).
      apply library_fresh_idle. exact Fg.
    + rewrite (ext_none X) by exact Lk2. rewrite (Tb k Lk). reflexivity.
Qed.

(** The desks after a segment: whatever the segment did to the roles of
    its process, the heap, the librarians and the busy times, the frame is
    written and, for a reader that is done, its [Process] event
    scheduled. *)
Lemma desks_resumed (w1 w2 : World) (pid : nat) (f f' : Frame) (r' : Role) :
  extends library_fresh w1 w2 -> table_ok w1 -> processes w1 pid = Some f ->
  role (Some f') = r' ->
  (forall j, desk_ok (fun k => if (k =? pid)%nat then r' else role (processes w1 k))
                     (heap w2) (resources w2)
                     (LibrarianBusy (statistic (obj w2))) (now w2) j) ->
  forall j, desk_ok (fun k => role (processes (resumed returned pid f' w2) k))
                    (heap (resumed returned pid f' w2))
                    (resources (resumed returned pid f' w2))
                    (LibrarianBusy (statistic (obj (resumed returned pid f' w2))))
                    (now (resumed returned pid f' w2)) j.
Proof.
  intros X Tb P Rf H j.
  destruct (resumed_same _ _ returned pid f' w2) as (-> & -> & _ & -> & _).
  destruct (resumed_heap _ _ returned pid f' w2) as (new & -> & Fn).
  apply desk_more_events; [exact Fn|].
  eapply desk_roles_ext; [|apply H].
  intros k. rewrite (roles_resumed _ _ _ _ f' X Tb P). rewrite Rf. reflexivity.
Qed.

(** What a segment does to the desks. *)
Lemma desks_segment (w1 w2 : World) (pid : nat) (f : Frame) (ev : Event) (f' : Frame) :
  statistic_ok (obj w1) ->
  (awaits_librarian f = true -> QueueLen (statistic (obj w1)) <> []) ->
  processes w1 pid = Some f ->
  wakes ev pid ->
  (forall j, desk_ok (fun k => role (processes w1 k)) (heap w1) (resources w1)
                     (LibrarianBusy (statistic (obj w1))) (now w1) j) ->
  (forall res, ev = Request res pid ->
     (forall x q, In x (heap w1) -> event x <> Request res q) /\
     users (resources w1 res) = [pid] /\
     role (processes w1 pid) = Waiting res) ->
  resume pid f ev w1 = Ok f' w2 ->
  forall j, desk_ok (fun k => if (k =? pid)%nat then role (Some f')
                              else role (processes w1 k))
                    (heap w2) (resources w2)
                    (LibrarianBusy (statistic (obj w2))) (now w2) j.
Proof.
  intros Ok0 Aw P W D1 Rq H.
  assert (G : generator_frame f = true ->
              forall j, desk_ok (fun k => if (k =? pid)%nat then role (Some f')
                                          else role (processes w1 k))
                                (heap w2) (resources w2)
                                (LibrarianBusy (statistic (obj w2))) (now w2) j).
  { intros Gf j.
    assert (H' : ReaderGenerator pid f ev w1 = Ok f' w2)
      by (destruct f; try discriminate Gf; exact H).
    pose proof (ReaderGenerator_keeps _ _ _ _ _ _ H') as [Kr Ko (new & Kh & Kf)].
    pose proof (ReaderGenerator_yields _ _ _ _ _ _ H') as Y. cbn in Y.
    pose proof (library_resume_respects _ _ _ _ _ _ H) as X.
    rewrite Kr, Ko, Kh, (ext_now X).
    apply desk_more_events; [exact Kf|].
    eapply desk_roles_ext; [|apply D1].
    intros k. cbn beta. destruct (Nat.eqb_spec k pid) as [->|]; [|reflexivity].
    rewrite P, (generator_frame_idle _ Y), (generator_frame_idle _ Gf). reflexivity. }
  destruct f; try (apply G; reflexivity); destruct ev; try discriminate H;
    cbn [resume ReaderProcess] in H.
  - (* the reader asks for a librarian *)
    apply ReaderProcess_start_spec in H; [|exact Ok0].
    destruct H as (i & b & v & -> & (Eh & Er) & En & Eb & _).
    intros j. rewrite Eh, Er, En, Eb. cbn [role].
    apply (desk_trigger_put _ _
             (fun k => if (k =? pid)%nat then Waiting i else role (processes w1 k))).
    apply desk_enqueue; [rewrite P; reflexivity|exact D1].
  - (* the librarian was granted *)
    destruct W as [W|[W|[res' W]]]; try discriminate W. inversion W; subst.
    destruct (Rq _ eq_refl) as (Nr & Up & Rp).
    rewrite P in Rp. cbn in Rp. inversion Rp; subst.
    apply ReaderProcess_granted_spec in H; [|exact Ok0|apply Aw; reflexivity].
    destruct H as (-> & Er & En & (x & Eh & Nx) & Eb & _).
    intros j. rewrite Eh, Er, En, Eb. cbn [role].
    apply (desk_more_events _ _ _ _ _ [x]); [constructor; [exact Nx|constructor]|].
    apply desk_serve; auto. rewrite P. reflexivity.
  - (* the service is over *)
    apply ReaderProcess_served_spec in H; [|exact Ok0].
    destruct H as (-> & Li & Er & En & (x & Eh & Nx) & Eb & _).
    intros j. rewrite Eh, Er, En, Eb. cbn [role].
    apply (desk_more_events _ _ _ _ _ [x]); [constructor; [exact Nx|constructor]|].
    apply desk_release; auto. rewrite P. reflexivity.
Qed.

(** Every step of the event loop keeps the invariant of the library. *)
Lemma library_ok_step (T : Q) (w w' : World) :
  library_ok T w -> step w = Continue w' -> library_ok T w'.
Proof.
  intros [C Tb Mo Se Wa De] S.
  destruct (clock_ok_step _ _ _ _ _ library_resume_respects T w w' C S) as [C' L].
  pose proof (table_ok_step _ _ _ _ _ library_resume_respects w w' Tb S) as Tb'.
  apply step_Continue in S. destruct S as (s & rest & E & S).
  assert (Ls : now w <= at_time s).
  { destruct C as [_ Hh _]. rewrite Forall_forall in Hh. apply Hh.
    apply (heappop_In _ _ _ E). auto. }
  assert (D1 : forall j, desk_ok (fun k => role (processes w k)) rest (resources w)
                                 (LibrarianBusy (statistic (obj w))) (at_time s) j).
  { intros j. eapply desk_pop; [exact E|exact Ls|apply De]. }
  destruct S as [(res & Ev & ->)|[(pid & Ev & ->)|(pid & f & f' & w2 & W & P & R & ->)]].
  - destruct (trigger_put_same _ _ res (popped w s rest)) as (Eo & En & Ep & Ei).
    constructor; auto; rewrite ?Eo, ?Ep, ?Ei; auto.
    intros j. rewrite En.
    apply (desk_trigger_put _ _ _ _ _ res (popped w s rest)). exact D1.
  - constructor; auto.
  - pose proof (library_resume_respects _ _ _ _ _ _ R) as X.
    destruct (resumed_same _ _ returned pid f' w2) as (Eo & En & Ei & _ & Ep).
    assert (Mo1 : statistic_ok (obj (popped w s rest))) by exact Mo.
    destruct (library_resume_effect _ _ _ _ _ _ Mo1 (Wa pid f P) R) as (Mo2 & [E1 E3] & W2).
    constructor; auto.
    + rewrite Eo. exact Mo2.
    + rewrite Eo, E1.
      rewrite (count_frames_resumed _ _ returned library_fresh reader_done
                 library_fresh_not_done _ _ pid f f' X Tb P).
      cbn [obj popped with_heap]. rewrite Se. cbn [processes next_pid popped with_heap].
      destruct (reader_done f), (reader_done f'); cbn; lia.
    + intros k g Pk Ag. rewrite Eo. rewrite Ep in Pk.
      destruct (Nat.eqb_spec k pid) as [->|Hne].
      * inversion Pk; subst. apply W2. exact Ag.
      * apply E3.
        destruct (Nat.lt_ge_cases k (next_pid (popped w s rest))) as [Lk|Lk].
        -- rewrite (ext_old X) in Pk by exact Lk. apply (Wa k g); assumption.
        -- destruct (Nat.lt_ge_cases k (next_pid w2)) as [Lk2|Lk2].
           ++ destruct (ext_new X (conj Lk Lk2)) as (g' & Pg & Fg).
              rewrite Pg in Pk. inversion Pk; subst.
              rewrite (library_fresh_not_waiting _ Fg) in Ag. discriminate.
           ++ rewrite (ext_none X) in Pk by exact Lk2.
              cbn in Pk. rewrite (Tb k) in Pk by exact Lk. discriminate.
    + apply (desks_resumed (popped w s rest) w2 pid f f' (role (Some f')) X Tb P eq_refl).
      apply (desks_segment (popped w s rest) w2 pid f (event s) f' Mo1 (Wa pid f P) P W D1);
        [|exact R].
      intros res Ev.
      destruct (desk_popped_request _ _ _ _ _ s rest res pid E Ev (De res)) as (N & U & Rp).
      auto.
Qed.

(** The invariant holds when the event loop is entered. *)
Lemma library_ok_start (p : Params) (rng : nat -> Q) :
  0 < SimTime p -> library_ok (SimTime p) (launch (SimTime p) (start p rng)).
Proof.
  intros H. constructor; cbn.
  - constructor; cbn.
    + lra.
    + repeat constructor; cbn; intros; try discriminate; lra.
    + constructor. reflexivity.
  - intros k Hk. cbn in *. destruct (Nat.eqb_spec k 0); [lia|reflexivity].
  - constructor; cbn; auto; try lra; reflexivity.
  - reflexivity.
  - intros k f. destruct (Nat.eqb_spec k 0); [|discriminate].
    intros K; inversion K; subst. discriminate.
  - intros j. constructor; cbn; auto.
    + constructor.
    + intros h [].
    + intros x q [<-|[<-|[]]]; discriminate.
    + intros q s. destruct (q =? 0)%nat; discriminate.
    + destruct j as [|[|[|j]]]; apply Qle_refl.
Qed.

Lemma library_ok_reachable (p : Params) (rng : nat -> Q) (w : World) :
  0 < SimTime p ->
  reachable resume returned (launch (SimTime p) (start p rng)) w ->
  library_ok (SimTime p) w.
Proof.
  intros H R. induction R.
  - apply library_ok_start. exact H.
  - eapply library_ok_step; eassumption.
Qed.

End LibraryRun.

(** ** Runs that reach the horizon *)

Section Returns.

(** A run of the store that returns has stopped out of a world [w1] in
    which the invariant holds; popping the stop event moves the clock to
    the horizon and nothing else. *)
Lemma store_run_Returned (fuel : nat) (p : TaskA.Params) (rng : nat -> Q)
      (w : Simpy.World TaskA.Frame TaskA.Supermarket) :
  Simpy.run TaskA.resume TaskA.returned (TaskA.simTime p) fuel (TaskA.start p rng)
    = Simpy.Returned w ->
  exists w1, store_ok (TaskA.simTime p) w1 /\
    Simpy.obj w = Simpy.obj w1 /\ Simpy.processes w = Simpy.processes w1 /\
    Simpy.next_pid w = Simpy.next_pid w1 /\
    Simpy.now w == TaskA.simTime p /\ Simpy.now w1 <= Simpy.now w.
Proof.
  intros E. apply run_Returned in E. destruct E as (Pos & w1 & R & St).
  assert (O : store_ok (TaskA.simTime p) w1) by (apply (store_ok_reachable p rng); assumption).
  destruct (clock_ok_stop _ _ _ _ _ _ _ (st_clock O) St) as (N & L & Ep & Ei & Eo).
  exists w1. auto 10.
Qed.

Lemma store_RunSim_Return (fuel : nat) (p : TaskA.Params) (rng : nat -> Q)
      (s : TaskA.Stats) :
  TaskA.RunSim fuel p rng = TaskA.Return s ->
  exists w, Simpy.run TaskA.resume TaskA.returned (TaskA.simTime p) fuel
                      (TaskA.start p rng) = Simpy.Returned w /\
            s = TaskA.finish p (Simpy.obj w).
Proof.
  unfold TaskA.RunSim. intros H.
  destruct (Simpy.run _ _ _ _ _) as [w| |] eqn:E; try discriminate.
  inversion H; subst. exists w. auto.
Qed.

Lemma library_run_Returned (fuel : nat) (p : TaskB.Params) (rng : nat -> Q)
      (w : Simpy.World TaskB.Frame TaskB.Library) :
  Simpy.run TaskB.resume TaskB.returned (TaskB.SimTime p) fuel (TaskB.start p rng)
    = Simpy.Returned w ->
  exists w1, library_ok (TaskB.SimTime p) w1 /\
    Simpy.obj w = Simpy.obj w1 /\ Simpy.processes w = Simpy.processes w1 /\
    Simpy.next_pid w = Simpy.next_pid w1 /\
    Simpy.now w == TaskB.SimTime p /\ Simpy.now w1 <= Simpy.now w.
Proof.
  intros E. apply run_Returned in E. destruct E as (Pos & w1 & R & St).
  assert (O : library_ok (TaskB.SimTime p) w1)
    by (apply (library_ok_reachable p rng); assumption).
  destruct (clock_ok_stop _ _ _ _ _ _ _ (lib_clock O) St) as (N & L & Ep & Ei & Eo).
  exists w1. auto 10.
Qed.

Lemma library_RunSim_Return (fuel : nat) (p : TaskB.Params) (rng : nat -> Q)
      (s : TaskB.Statistic) :
  TaskB.RunSim fuel p rng = TaskB.Return s ->
  exists w, Simpy.run TaskB.resume TaskB.returned (TaskB.SimTime p) fuel
                      (TaskB.start p rng) = Simpy.Returned w /\
            s = TaskB.statistic (Simpy.obj w).
Proof.
  unfold TaskB.RunSim. intros H.
  destruct (Simpy.run _ _ _ _ _) as [w| |] eqn:E; try discriminate.
  inversion H; subst. exists w. auto.
Qed.

(** The lines of [RunSim] after the run change the busy time only. *)
Lemma finish_same (p : TaskA.Params) (m : TaskA.Supermarket) :
  TaskA.customersServed (TaskA.finish p m) = TaskA.customersServed (TaskA.stats m) /\
  TaskA.maxQueueLength (TaskA.finish p m) = TaskA.maxQueueLength (TaskA.stats m) /\
  TaskA.queueLengths (TaskA.finish p m) = TaskA.queueLengths (TaskA.stats m) /\
  TaskA.basketsInUse (TaskA.finish p m) = TaskA.basketsInUse (TaskA.stats m) /\
  TaskA.waitTimes (TaskA.finish p m) = TaskA.waitTimes (TaskA.stats m) /\
  TaskA.purchaseCounts (TaskA.finish p m) = TaskA.purchaseCounts (TaskA.stats m) /\
  TaskA.customerData (TaskA.finish p m) = TaskA.customerData (TaskA.stats m).
Proof.
  unfold TaskA.finish. destruct (TaskA.cashierBusyStart m); repeat split; reflexivity.
Qed.

Lemma maximum_fold (l : list (Q * Z)) :
  l <> [] ->
  match l with [] => True | (_, v) :: _ => (0 <= v)%Z end ->
  Some (fold_left Z.max (map snd l) 0%Z) = maximum (map snd l).
Proof.
  destruct l as [|[t v] l]; [congruence|]. intros _ H. cbn [map snd maximum].
  unfold fold_left at 1. fold (fold_left Z.max (map snd l)).
  rewrite Z.max_r by exact H. reflexivity.
Qed.

End Returns.

(** ** The sampled durations (claim C7) *)

Section StandardExponential.
Import Reals Qreals Lra.
Local Open Scope R_scope.

(** The variate that the random stream supplies to [expovariate] is not
    negative, and it is 0 when [random()] returns 0. *)
Lemma standard_exponential_nonneg (u : R) :
  0 <= u < 1 -> 0 <= Sampling.standard_exponential u.
Proof.
  intros [U0 U1]. unfold Sampling.standard_exponential.
  destruct (Req_dec u 0) as [->|N].
  - rewrite Rminus_0_r, ln_1. lra.
  - assert (ln (1 - u) < ln 1) by (apply ln_increasing; lra).
    rewrite ln_1 in H. lra.
Qed.

Lemma standard_exponential_0 : Sampling.standard_exponential 0 = 0.
Proof. unfold Sampling.standard_exponential. rewrite Rminus_0_r, ln_1. lra. Qed.

End StandardExponential.

Section SampledDurations.
Import Simpy.

(** A timeout with a delay that is not negative is scheduled. *)
Lemma timeout_scheduled (Frame Model : Type) (pid : nat) (d : Q)
      (w : World Frame Model) :
  0 <= d -> timeout pid d w = Ok tt (schedule (Timeout pid) NORMAL d w).
Proof. intros H. unfold timeout. rewrite (Qltb_nonneg _ H). reflexivity. Qed.

(** [1.0 / mean] and [expovariate] for a positive mean that converts to a
    float. *)
Lemma divide_Ok (Frame Model : Type) (mean : Q) (w : World Frame Model) :
  0 < mean < float_limit -> divide 1 mean w = Ok (1 / mean) w.
Proof.
  intros [M0 M1]. unfold divide. rewrite (Qeq_bool_pos _ M0).
  assert (R : - float_limit < mean < float_limit)
    by (split; [|exact M1]; assert (0 < float_limit) by reflexivity; lra).
  rewrite (divide_in_range _ R). reflexivity.
Qed.

Lemma expovariate_Ok (Frame Model : Type) (lambd : Q) (w : World Frame Model) :
  0 < lambd ->
  expovariate lambd w =
  Ok (random_stream w (random_pos w) / lambd)
     (mkWorld (now w) (next_eid w) (heap w) (resources w) (processes w)
              (next_pid w) (random_stream w) (S (random_pos w)) (obj w)).
Proof.
  intros L. unfold expovariate, bind, random, draw.
  rewrite (Qeq_bool_pos _ L). reflexivity.
Qed.

(** The interval [e / (1 / mean)] is not negative, and zero when [e] is. *)
Lemma exponential_interval (e mean : Q) :
  0 <= e -> 0 < mean -> 0 <= e / (1 / mean) /\ (e == 0 -> e / (1 / mean) == 0).
Proof.
  intros E M. split; [apply exponential_delay; assumption|].
  intros Z. rewrite Z. unfold Qdiv. apply Qmult_0_l.
Qed.

(** C7 (amended).  The delays with which the processes suspend themselves,
    for a draw [u] of [random()] in [0, 1) taken from the random stream.
    The service time of a reader ([ReaderProcess]) and the uniform
    interval between two readers, drawn between [max(1, base -
    variation)] and [base + variation], are scheduled and are at least 1
    when [base + variation] is.  The normal interval is clamped to at
    least 0.1.  The selection time at a counter ([VisitCounters]) is
    clamped to be not negative only, and for the three counters of
    [COUNTERSDATA] it is at least 60 seconds.  The exponential interval
    (in [CustomerGenerator], and in [ReaderGenerator] under the
    exponential law) is not clamped: for a positive mean and the variate
    [e] of the stream it is not negative, and it is zero when [e] is. *)
Theorem sampled_durations_floor :
  (forall pid readerId librarIndex baseTime variation queueStart
          (w : World TaskB.Frame TaskB.Library),
     0 <= random_stream w (random_pos w) < 1 -> 1 <= baseTime + variation ->
     delays pid (fun d => 1 <= d)
       (TaskB.ReaderProcess_granted pid readerId librarIndex baseTime variation
                                    queueStart) w) /\
  (forall pid readerId baseTime variation (w : World TaskB.Frame TaskB.Library),
     0 <= random_stream w (random_pos w) < 1 -> 1 <= baseTime + variation ->
     delays pid (fun d => 1 <= d)
       (TaskB.uniform_loop pid readerId baseTime variation) w) /\
  (forall pid readerId (w : World TaskB.Frame TaskB.Library),
     delays pid (fun d => (1 # 10) <= d) (TaskB.normal_loop pid readerId) w) /\
  (forall pid customerId counterId cd rest total
          (w : World TaskA.Frame TaskA.Supermarket),
     0 <= random_stream w (random_pos w) < 1 ->
     0 <= fst (TaskA.time cd) + snd (TaskA.time cd) ->
     delays pid (fun d => 0 <= d)
       (TaskA.VisitCounters_granted pid customerId counterId cd rest total) w) /\
  (forall pid customerId counterId cd rest total
          (w : World TaskA.Frame TaskA.Supermarket),
     0 <= random_stream w (random_pos w) < 1 ->
     In (counterId, cd) TaskA.COUNTERSDATA ->
     delays pid (fun d => 60 <= d)
       (TaskA.VisitCounters_granted pid customerId counterId cd rest total) w) /\
  (forall pid customerId (w : World TaskA.Frame TaskA.Supermarket),
     0 < TaskA.meanInterval (TaskA.params (obj w)) < float_limit ->
     0 <= random_stream w (random_pos w) ->
     delays pid (fun d => 0 <= d /\ (random_stream w (random_pos w) == 0 -> d == 0))
       (TaskA.CustomerGenerator_loop pid customerId) w) /\
  (forall pid readerId (w : World TaskB.Frame TaskB.Library),
     0 < fst (TaskB.ArrivalTime (TaskB.params (obj w))) < float_limit ->
     0 <= random_stream w (random_pos w) ->
     delays pid (fun d => 0 <= d /\ (random_stream w (random_pos w) == 0 -> d == 0))
       (TaskB.exponential_loop pid readerId) w).
Proof.
  repeat apply conj.
  - intros pid readerId j b v qs w U H.
    unfold delays, sleeps_for, TaskB.ReaderProcess_granted, bind, uniform. cbn.
    match goal with
    | |- context [timeout pid ?d _] => assert (D : 1 <= d)
    end.
    { apply uniform_floor; [lra|apply Q.le_max_l|exact H]. }
    rewrite timeout_scheduled by lra. cbn.
    do 3 eexists. split; [reflexivity|]. split; [reflexivity|exact D].
  - intros pid readerId b v w U H.
    unfold delays, sleeps_for, TaskB.uniform_loop, bind, uniform. cbn.
    match goal with
    | |- context [timeout pid ?d _] => assert (D : 1 <= d)
    end.
    { apply uniform_floor; [lra|apply Q.le_max_l|exact H]. }
    rewrite timeout_scheduled by lra. cbn.
    do 3 eexists. split; [reflexivity|]. split; [reflexivity|exact D].
  - intros pid readerId w.
    unfold delays, sleeps_for, TaskB.normal_loop, bind, gauss. cbn.
    destruct (TaskB.ArrivalTime _) as [b v]. cbn.
    match goal with
    | |- context [timeout pid ?d _] => assert (D : (1 # 10) <= d)
    end.
    { apply Q.le_max_l. }
    rewrite timeout_scheduled by lra. cbn.
    do 3 eexists. split; [reflexivity|]. split; [reflexivity|exact D].
  - intros pid customerId counterId cd rest total w U H.
    unfold delays, sleeps_for, TaskA.VisitCounters_granted, bind, uniform.
    destruct (TaskA.time cd) as [b v]. cbn in H. cbn.
    match goal with
    | |- context [timeout pid ?d _] => assert (D : 0 <= d)
    end.
    { apply uniform_floor; [lra|apply Q.le_max_l|exact H]. }
    rewrite timeout_scheduled by lra. cbn.
    do 3 eexists. split; [reflexivity|]. split; [reflexivity|exact D].
  - intros pid customerId counterId cd rest total w U H.
    unfold delays, sleeps_for, TaskA.VisitCounters_granted, bind, uniform.
    assert (K : 60 <= Qmax 0 (fst (TaskA.time cd) - snd (TaskA.time cd)) /\
                60 <= fst (TaskA.time cd) + snd (TaskA.time cd)).
    { simpl in H. destruct H as [H|[H|[H|[]]]]; inversion H; subst; clear H;
        cbn [TaskA.time fst snd];
        (split; [eapply Qle_trans; [|apply Q.le_max_r]|]); vm_compute; discriminate. }
    destruct (TaskA.time cd) as [b v]. cbn in K. cbn.
    match goal with
    | |- context [timeout pid ?d _] => assert (D : 60 <= d)
    end.
    { apply uniform_floor; [lra|apply K|apply K]. }
    rewrite timeout_scheduled by lra. cbn.
    do 3 eexists. split; [reflexivity|]. split; [reflexivity|exact D].
  - intros pid customerId w M E.
    unfold delays, sleeps_for, TaskA.CustomerGenerator_loop, bind, get_obj.
    rewrite (divide_Ok _ _ _ _ M).
    rewrite (expovariate_Ok _ _ _ _ (Qinv_pos _ (proj1 M))).
    pose proof (exponential_interval _ _ E (proj1 M)) as D.
    rewrite timeout_scheduled by apply D. cbn.
    do 3 eexists. split; [reflexivity|]. split; [reflexivity|exact D].
  - intros pid readerId w M E.
    unfold delays, sleeps_for, TaskB.exponential_loop, bind, get_obj.
    rewrite (divide_Ok _ _ _ _ M).
    rewrite (expovariate_Ok _ _ _ _ (Qinv_pos _ (proj1 M))).
    pose proof (exponential_interval _ _ E (proj1 M)) as D.
    rewrite timeout_scheduled by apply D. cbn.
    do 3 eexists. split; [reflexivity|]. split; [reflexivity|exact D].
Qed.

Lemma sampled_durations_floor_witness :
  delays 1 (fun d => 1 <= d) (TaskB.ReaderProcess_granted 1 1 0 180 120 0)
         idle_library /\
  delays 0 (fun d => 1 <= d) (TaskB.uniform_loop 0 1 120 60) idle_library /\
  delays 1 (fun d => 60 <= d)
         (TaskA.VisitCounters_granted
            1 1 1 (TaskA.mkCounterData (75 # 100) (120, 60) (3, 1)%Z) [] 0)
         idle_store /\
  delays 0 (fun d => 0 <= d /\
                     (random_stream idle_store (random_pos idle_store) == 0 -> d == 0))
         (TaskA.CustomerGenerator_loop 0 1) idle_store.
Proof.
  destruct sampled_durations_floor as (A1 & A2 & _ & _ & A5 & A6 & _).
  split; [|split; [|split]].
  - apply A1; [split; [vm_compute; discriminate|vm_compute; reflexivity]
              |vm_compute; discriminate].
  - apply A2; [split; [vm_compute; discriminate|vm_compute; reflexivity]
              |vm_compute; discriminate].
  - apply A5; [split; [vm_compute; discriminate|vm_compute; reflexivity]
              |left; reflexivity].
  - apply A6; [split; vm_compute; reflexivity|vm_compute; discriminate].
Defined.

(** C7 as stated fails: in the run of the store on a stream whose first
    variate is 0, the first step of the event loop runs the first round
    of [CustomerGenerator], which comes to its [yield] with a delay of 0;
    the timeout of the generator (process 0) is scheduled at the present
    time, and the step that processes it leaves the clock where it
    was. *)
Lemma zero_delay_is_scheduled :
  let w0 := launch 3600 (TaskA.start store_params burst_stream) in
  exists s rest w1 w2,
    heappop (heap w0) = Some (s, rest) /\ event s = Initialize 0 /\
    delays 0 (fun d => d == 0) (TaskA.CustomerGenerator_loop 0 1) (popped w0 s rest) /\
    TaskA.step w0 = Continue w1 /\
    Exists (fun x => event x = Timeout 0 /\ at_time x == now w1) (heap w1) /\
    TaskA.step w1 = Continue w2 /\ now w2 == now w1.
Proof.
  cbv zeta. do 4 eexists.
  split; [vm_compute; reflexivity|]. split; [reflexivity|].
  split.
  { exists (burst_stream 0 / (1 / 120)). do 2 eexists.
    split; [vm_compute; reflexivity|].
    split; [vm_compute; reflexivity|reflexivity]. }
  split; [vm_compute; reflexivity|].
  split; [apply Exists_cons_hd; split; reflexivity|].
  split; [vm_compute; reflexivity|reflexivity].
Qed.

End SampledDurations.

(** ** The choice of the librarian (claim C1) *)

Section Librarian.
Import Simpy TaskB.

Lemma Qltb_irrefl (a b : Q) : a == b -> Qltb a b = false.
Proof.
  intros E. unfold Qltb. apply Qeq_alt in E. rewrite E. reflexivity.
Qed.

Lemma choose_librarian_tie (load0 load1 : nat) (busy0 busy1 : Q) :
  load0 = load1 -> busy0 == busy1 -> choose_librarian load0 load1 busy0 busy1 = 1%nat.
Proof.
  intros -> E. unfold choose_librarian.
  rewrite Nat.ltb_irrefl, (Qltb_irrefl _ _ E). reflexivity.
Qed.

(** C1 (amended).  When a reader arrives and the two librarians carry the
    same load, users plus queued requests, and have the same busy time,
    the reader asks for librarian 1: the same choice at every such
    arrival, from the loads and the busy times alone. *)
Theorem tie_selects_librarian_1 (pid readerId : nat) (w : World Frame Library) :
  (count (resources w 0) + List.length (queue (resources w 0)) =
   count (resources w 1) + List.length (queue (resources w 1)))%nat ->
  nth 0 (LibrarianBusy (statistic (obj w))) 0 ==
  nth 1 (LibrarianBusy (statistic (obj w))) 0 ->
  exists w',
    ReaderProcess_start pid readerId w =
    Ok (AwaitLibrarian readerId 1 (fst (ServeTime (params (obj w))))
                       (snd (ServeTime (params (obj w)))) (now w)) w'.
Proof.
  intros L B. unfold ReaderProcess_start, bind, get_obj, get_resource, librarians.
  destruct (ServeTime (params (obj w))) as [b v].
  rewrite (choose_librarian_tie _ _ _ _ L B).
  cbn. destruct (trigger_put_same _ _ 1%nat
    (with_resource w 1
       (mkResource (capacity (resources w 1)) (users (resources w 1))
                   (queue (resources w 1) ++ [pid])))) as (_ & En & _ & _).
  rewrite En. cbn. eexists. reflexivity.
Qed.

Lemma tie_selects_librarian_1_witness :
  exists w',
    ReaderProcess_start 1 1 fresh_library = Ok (AwaitLibrarian 1 1 180 120 0) w'.
Proof.
  apply (tie_selects_librarian_1 1 1 fresh_library); reflexivity.
Defined.

(** C1 as stated fails: in a library where nothing has happened, both
    librarians idle with busy time 0, the first reader does not ask for
    librarian 0. *)
Lemma tie_does_not_select_librarian_0 :
  count (resources fresh_library 0) = 0%nat /\
  count (resources fresh_library 1) = 0%nat /\
  queue (resources fresh_library 0) = [] /\
  queue (resources fresh_library 1) = [] /\
  LibrarianBusy (statistic (obj fresh_library)) = [0; 0] /\
  forall f w', ReaderProcess_start 1 1 fresh_library = Ok f w' ->
               forall b v t, f <> AwaitLibrarian 1 0 b v t.
Proof.
  repeat split. intros f w' H b v t E. subst f.
  vm_compute in H. discriminate H.
Qed.

End Librarian.

(** ** An arrival law that is not known (claim C5) *)

Section UnknownLaw.
Import Simpy TaskB.

#[local] Arguments before : simpl never.
#[local] Arguments Nat.eqb : simpl nomatch.

Lemma before_later (a b : Scheduled) : at_time b < at_time a -> before a b = false.
Proof.
  intros H. unfold before. destruct (at_time a ?= at_time b) eqn:E; [| |reflexivity].
  - apply Qeq_alt in E. lra.
  - apply Qlt_alt in E. lra.
Qed.

Lemma before_earlier (a b : Scheduled) : at_time a < at_time b -> before a b = true.
Proof.
  intros H. unfold before. destruct (at_time a ?= at_time b) eqn:E; [|reflexivity|].
  - apply Qeq_alt in E. lra.
  - apply Qgt_alt in E. lra.
Qed.

(** C5 (amended).  When the arrival law of the parameters is none of the
    four laws and the horizon is positive, [RunSim] reports no error:
    [ReaderGenerator] returns at once without creating a reader, the run
    goes on to the horizon (three events: the start of the generator, its
    [Process] event, the stop event) and returns the statistic as
    [Library] created it. *)
Theorem unknown_law_runs_without_readers (p : Params) (rng : nat -> Q) :
  ArrivalLaw p <> LAW_UNIFORM -> ArrivalLaw p <> LAW_EXPONENTIAL ->
  ArrivalLaw p <> LAW_NORMAL -> ArrivalLaw p <> LAW_POISSON ->
  0 < SimTime p ->
  RunSim 3 p rng = Return (statistic (Library_init p)).
Proof.
  intros HU HE HN HP HT.
  apply String.eqb_neq in HU, HE, HN, HP.
  unfold RunSim, run. cbn. rewrite (Qleb_later _ _ HT).
  unfold launch, Simpy.step, resume_process. cbn.
  rewrite before_later by (cbn; lra). cbn.
  rewrite HU, HE, HN, HP. cbn.
  rewrite before_earlier by (cbn; lra). cbn.
  reflexivity.
Qed.

Lemma unknown_law_runs_without_readers_witness :
  RunSim 3 unknown_params reader_stream =
  Return (mkStatistic 0 [] [] 0 [] [0; 0] []).
Proof.
  apply (unknown_law_runs_without_readers unknown_params reader_stream);
    try (intros H; discriminate H). reflexivity.
Defined.

(** C5 as stated fails: with the arrival law "Gamma" the run raises no
    exception; it returns, with no reader served. *)
Lemma unknown_law_is_not_reported :
  (forall e, RunSim 3 unknown_params reader_stream <> Exception e) /\
  exists s, RunSim 3 unknown_params reader_stream = Return s /\
            ReaderServed s = 0%Z /\ QueueLen s = [].
Proof.
  split.
  - intros e H. vm_compute in H. discriminate H.
  - eexists. split; [vm_compute; reflexivity|]. split; reflexivity.
Qed.

End UnknownLaw.

(** ** The store: what a run returns *)

Section StoreClaims.
Import Simpy TaskA.

(** C6.  In every record of [customerData] that a run returns, the field
    [arrivalTime] holds the environment object, never a number: the
    clock reading at arrival is not recorded. *)
Theorem arrivalTime_is_the_environment (fuel : nat) (p : Params) (rng : nat -> Q)
        (s : Stats) :
  RunSim fuel p rng = Return s ->
  Forall (fun r => arrivalTime r = EnvironmentObject /\
                   forall t, arrivalTime r <> Number t) (customerData s).
Proof.
  intros H. destruct (store_RunSim_Return _ _ _ _ H) as (w & E & ->).
  destruct (store_run_Returned _ _ _ _ E) as (w1 & O & Eo & _).
  destruct (finish_same p (obj w)) as (_ & _ & _ & _ & _ & _ & ->).
  rewrite Eo. eapply Forall_impl; [|apply (ok_arrival (st_model O))].
  intros r A. split; [exact A|]. intros t. rewrite A. discriminate.
Qed.

Lemma arrivalTime_is_the_environment_witness :
  exists s, RunSim 64 store_params burst_stream = Return s /\
            List.length (customerData s) = 10%nat /\
            Forall (fun r => arrivalTime r = EnvironmentObject /\
                             forall t, arrivalTime r <> Number t) (customerData s).
Proof.
  eexists. split; [vm_compute; reflexivity|]. split; [reflexivity|].
  apply (arrivalTime_is_the_environment 64 store_params burst_stream).
  vm_compute. reflexivity.
Defined.

(** C2, on the code.  In the burst, ten customers at the cashier at time
    0 with 5 seconds of service each, the wait times recorded are 5, 10,
    ..., 50: the k-th customer is granted the cashier after (k-1)*5
    seconds and records k*5, the service included.  A single customer who
    finds the cashier idle (the queue length goes to 1 and back to 0 at
    the time of arrival, 120) records the wait time 5, not 0. *)
Theorem wait_times_include_service :
  (exists s, RunSim 64 store_params burst_stream = Return s /\
     map Qred (waitTimes s) = [5; 10; 15; 20; 25; 30; 35; 40; 45; 50] /\
     map Qred (serviceTimes s) = [5; 5; 5; 5; 5; 5; 5; 5; 5; 5]) /\
  (exists s, RunSim 20 store_params single_stream = Return s /\
     map (fun q => (Qred (fst q), snd q)) (queueLengths s) = [(120, 1%Z); (120, 0%Z)] /\
     map Qred (serviceTimes s) = [5] /\
     map Qred (waitTimes s) = [5]).
Proof.
  split; eexists; (split; [vm_compute; reflexivity|]); repeat split.
Qed.

(** C3, on the code.  In the burst the cashier serves ten customers back
    to back, 50 seconds in all, and the busy time that the run returns is
    5 seconds: the interval that the first customer opened is closed when
    its service ends, and the customers who were already queueing never
    open another one. *)
Theorem burst_busy_time_is_5 :
  exists s, RunSim 64 store_params burst_stream = Return s /\
    customersServed s = 10%Z /\
    Qred (fold_right Qplus 0 (serviceTimes s)) = 50 /\
    Qred (cashierBusyTime s) = 5.
Proof.
  eexists. split; [vm_compute; reflexivity|]. repeat split.
Qed.

(** C9.  At every point of a run of the store, the basket counter is the
    number of customers who have started and not finished (each one
    counted once from its first step to its completion); the lines after
    the run leave it alone, so the counter that a run returns is the
    number of customers abandoned at the horizon, waiting or in
    service. *)
Theorem baskets_count_customers_in_store (p : Params) (rng : nat -> Q) :
  (forall w, 0 < simTime p ->
     reachable resume returned (launch (simTime p) (start p rng)) w ->
     basketsInUse (stats (obj w)) = count_frames in_store (processes w) (next_pid w)) /\
  (forall fuel w,
     run resume returned (simTime p) fuel (start p rng) = Returned w ->
     RunSim fuel p rng = Return (finish p (obj w)) /\
     basketsInUse (finish p (obj w)) =
     count_frames in_store (processes w) (next_pid w)).
Proof.
  split.
  - intros w H R. apply (st_baskets (store_ok_reachable p rng w H R)).
  - intros fuel w E. split; [unfold RunSim; rewrite E; reflexivity|].
    destruct (store_run_Returned _ _ _ _ E) as (w1 & O & Eo & Ep & Ei & _).
    destruct (finish_same p (obj w)) as (_ & _ & _ & -> & _).
    rewrite Eo, Ep, Ei. apply (st_baskets O).
Qed.

(** A run in which the only customer is at a counter when the horizon is
    reached: the counter stays at 1. *)
Lemma baskets_count_customers_in_store_witness :
  exists w,
    run resume returned (simTime short_params) 20 (start short_params abandoned_stream)
      = Returned w /\
    RunSim 20 short_params abandoned_stream = Return (finish short_params (obj w)) /\
    basketsInUse (finish short_params (obj w)) = 1%Z /\
    count_frames in_store (processes w) (next_pid w) = 1%Z.
Proof.
  eexists. split; [vm_compute; reflexivity|].
  destruct (proj2 (baskets_count_customers_in_store short_params abandoned_stream) 20%nat _
              ltac:(vm_compute; reflexivity)) as [R B].
  split; [exact R|]. split; [|rewrite <- B]; vm_compute; reflexivity.
Defined.

End StoreClaims.

(** ** Both models: what a run returns *)

Section BothModels.
Import Simpy.

(** C8.  In the statistics that a run returns, of the store and of the
    library, the maximum queue length is the greatest value of the log of
    queue lengths, when the log is not empty. *)
Theorem max_queue_length_is_log_maximum :
  (forall fuel p rng s,
     TaskA.RunSim fuel p rng = TaskA.Return s ->
     TaskA.queueLengths s <> [] ->
     Some (TaskA.maxQueueLength s) = maximum (map snd (TaskA.queueLengths s))) /\
  (forall fuel p rng s,
     TaskB.RunSim fuel p rng = TaskB.Return s ->
     TaskB.QueueLen s <> [] ->
     Some (TaskB.MaxQueueLen s) = maximum (map snd (TaskB.QueueLen s))).
Proof.
  split; intros fuel p rng s H N.
  - destruct (store_RunSim_Return _ _ _ _ H) as (w & E & ->).
    destruct (store_run_Returned _ _ _ _ E) as (w1 & O & Eo & _).
    destruct (finish_same p (obj w)) as (_ & E1 & E2 & _).
    rewrite E1, E2 in *. rewrite Eo in *.
    destruct (st_model O) as [_ _ _ _ M F _ _]. rewrite M.
    apply maximum_fold; [exact N|].
    destruct (TaskA.queueLengths (TaskA.stats (obj w1))) as [|[t v] l]; [exact I|exact F].
  - destruct (library_RunSim_Return _ _ _ _ H) as (w & E & ->).
    destruct (library_run_Returned _ _ _ _ E) as (w1 & O & Eo & _).
    rewrite Eo in *.
    destruct (lib_model O) as [_ _ _ M F _]. rewrite M.
    apply maximum_fold; [exact N|].
    destruct (TaskB.QueueLen (TaskB.statistic (obj w1))) as [|[t v] l]; [exact I|exact F].
Qed.

Lemma max_queue_length_is_log_maximum_witness :
  (exists s, TaskA.RunSim 64 store_params burst_stream = TaskA.Return s /\
             TaskA.queueLengths s <> [] /\
             Some (TaskA.maxQueueLength s) = maximum (map snd (TaskA.queueLengths s)) /\
             TaskA.maxQueueLength s = 9%Z) /\
  (exists s, TaskB.RunSim 20 (library_params 3600) reader_stream = TaskB.Return s /\
             TaskB.QueueLen s <> [] /\
             Some (TaskB.MaxQueueLen s) = maximum (map snd (TaskB.QueueLen s)) /\
             TaskB.MaxQueueLen s = 1%Z).
Proof.
  split; eexists; (split; [vm_compute; reflexivity|]); (split; [discriminate|]);
    (split; [|reflexivity]).
  - apply (proj1 max_queue_length_is_log_maximum 64%nat store_params burst_stream);
      [vm_compute; reflexivity|discriminate].
  - apply (proj2 max_queue_length_is_log_maximum 20%nat (library_params 3600) reader_stream);
      [vm_compute; reflexivity|discriminate].
Defined.

(** C10.  At every point of a run, and in the world in which it stops
    (so in the statistics it returns), the number served is the length of
    each list of samples, and it is the number of processes that have
    completed: a customer or reader still waiting or in service counts in
    none of them.  Store: [customersServed], [waitTimes],
    [purchaseCounts], [customerData]; library: [ReaderServed],
    [TimeWaiting], [TimeServed], [BooksPerReader]. *)
Theorem served_count_is_sample_count :
  (forall p rng w,
     0 < TaskA.simTime p ->
     reachable TaskA.resume TaskA.returned
               (launch (TaskA.simTime p) (TaskA.start p rng)) w \/
     (exists fuel, run TaskA.resume TaskA.returned (TaskA.simTime p) fuel
                       (TaskA.start p rng) = Returned w) ->
     let s := TaskA.stats (obj w) in
     TaskA.customersServed s = Z.of_nat (List.length (TaskA.waitTimes s)) /\
     TaskA.customersServed s = Z.of_nat (List.length (TaskA.purchaseCounts s)) /\
     TaskA.customersServed s = Z.of_nat (List.length (TaskA.customerData s)) /\
     TaskA.customersServed s =
       count_frames TaskA.returned (processes w) (next_pid w)) /\
  (forall p rng w,
     0 < TaskB.SimTime p ->
     reachable TaskB.resume TaskB.returned
               (launch (TaskB.SimTime p) (TaskB.start p rng)) w \/
     (exists fuel, run TaskB.resume TaskB.returned (TaskB.SimTime p) fuel
                       (TaskB.start p rng) = Returned w) ->
     let s := TaskB.statistic (obj w) in
     TaskB.ReaderServed s = Z.of_nat (List.length (TaskB.TimeWaiting s)) /\
     TaskB.ReaderServed s = Z.of_nat (List.length (TaskB.TimeServed s)) /\
     TaskB.ReaderServed s = Z.of_nat (List.length (TaskB.BooksPerReader s)) /\
     TaskB.ReaderServed s = count_frames reader_done (processes w) (next_pid w)).
Proof.
  split; intros p rng w H [R|[fuel E]]; cbn zeta.
  - pose proof (store_ok_reachable p rng w H R) as O.
    destruct (st_model O) as [_ L1 L2 L3 _ _ _ _].
    repeat split; auto. apply (st_served O).
  - destruct (store_run_Returned _ _ _ _ E) as (w1 & O & Eo & Ep & Ei & _).
    rewrite Eo, Ep, Ei. destruct (st_model O) as [_ L1 L2 L3 _ _ _ _].
    repeat split; auto. apply (st_served O).
  - pose proof (library_ok_reachable p rng w H R) as O.
    destruct (lib_model O) as [L1 L2 L3 _ _ _].
    repeat split; auto. apply (lib_served O).
  - destruct (library_run_Returned _ _ _ _ E) as (w1 & O & Eo & Ep & Ei & _).
    rewrite Eo, Ep, Ei. destruct (lib_model O) as [L1 L2 L3 _ _ _].
    repeat split; auto. apply (lib_served O).
Qed.

Lemma served_count_is_sample_count_witness :
  (exists w,
     run TaskA.resume TaskA.returned (TaskA.simTime store_params) 64
         (TaskA.start store_params burst_stream) = Returned w /\
     TaskA.customersServed (TaskA.stats (obj w)) = 10%Z /\
     TaskA.customersServed (TaskA.stats (obj w)) =
       Z.of_nat (List.length (TaskA.customerData (TaskA.stats (obj w))))) /\
  (exists w,
     run TaskB.resume TaskB.returned (TaskB.SimTime (library_params 200)) 20
         (TaskB.start (library_params 200) reader_stream) = Returned w /\
     processes w 1%nat = Some (TaskB.AtLibrarian 1 1 0 120) /\
     TaskB.ReaderServed (TaskB.statistic (obj w)) = 0%Z /\
     TaskB.ReaderServed (TaskB.statistic (obj w)) =
       count_frames reader_done (processes w) (next_pid w)).
Proof.
  split; eexists; (split; [vm_compute; reflexivity|]); (split; [reflexivity|]).
  - apply (proj1 served_count_is_sample_count store_params burst_stream);
      [reflexivity|].
    right. exists 64%nat. vm_compute. reflexivity.
  - split; [reflexivity|].
    apply (proj2 served_count_is_sample_count (library_params 200) reader_stream);
      [reflexivity|].
    right. exists 20%nat. vm_compute. reflexivity.
Defined.

(** C4, on the code.  A busy interval that is open at the horizon is
    dropped.  Store: two customers arrive at time 0 with one item each,
    50 seconds a service, and the run stops at 70; the cashier is busy
    from 0 on and at the horizon serves customer 2, yet the interval that
    customer 1 opened was closed at 50 and [cashierBusyStart] is unset,
    so the lines after the run credit nothing: the busy time returned is
    50, not 70.  Library: in the run to the horizon 200, reader 1 is
    served by librarian 1 from time 120 on and still is when the run
    stops; the busy time returned for librarian 1 is 0, not the 80
    seconds of the interval that is open at the horizon. *)
Theorem open_busy_interval_is_dropped :
  (exists w,
     run TaskA.resume TaskA.returned (TaskA.simTime pair_params) 16
         (TaskA.start pair_params pair_stream) = Returned w /\
     Qred (now w) = 70 /\
     users (resources w TaskA.cashier) = [2%nat] /\
     processes w 2%nat = Some (TaskA.AtCashier 2 1 0) /\
     TaskA.cashierBusyStart (obj w) = None /\
     TaskA.RunSim 16 pair_params pair_stream =
       TaskA.Return (TaskA.finish pair_params (obj w)) /\
     map Qred (TaskA.serviceTimes (TaskA.finish pair_params (obj w))) = [50; 50] /\
     Qred (TaskA.cashierBusyTime (TaskA.finish pair_params (obj w))) = 50 /\
     ~ TaskA.cashierBusyTime (TaskA.finish pair_params (obj w)) == 70) /\
  (exists w,
     run TaskB.resume TaskB.returned (TaskB.SimTime (library_params 200)) 20
         (TaskB.start (library_params 200) reader_stream) = Returned w /\
     Qred (now w) = 200 /\
     users (resources w 1%nat) = [1%nat] /\
     processes w 1%nat = Some (TaskB.AtLibrarian 1 1 0 120) /\
     TaskB.RunSim 20 (library_params 200) reader_stream =
       TaskB.Return (TaskB.statistic (obj w)) /\
     TaskB.LibrarianBusy (TaskB.statistic (obj w)) = [0; 0] /\
     ~ nth 1 (TaskB.LibrarianBusy (TaskB.statistic (obj w))) 0 == 200 - 120).
Proof.
  split; (eexists; split; [vm_compute; reflexivity|]).
  - repeat split. intros H. vm_compute in H. discriminate H.
  - repeat split. intros H. vm_compute in H. discriminate H.
Qed.

End BothModels.

(** ** Triples for the code between two yields *)

Section Triples.
Import Simpy.
Variables Frame Model : Type.

Local Abbreviation World := (Simpy.World Frame Model).
Local Abbreviation Sim := (Simpy.Sim Frame Model).

Lemma triple_ret {A : Type} (P : World -> Prop) (Q : A -> World -> Prop) (a : A) :
  (forall w, P w -> Q a w) -> triple P (ret a : Sim A) Q.
Proof. intros H w b w' Hp E. inversion E; subst. apply H. exact Hp. Qed.

Lemma triple_raise {A : Type} (P : World -> Prop) (Q : A -> World -> Prop)
      (e : Exception) :
  triple P (raise e : Sim A) Q.
Proof. intros w b w' _ E. discriminate. Qed.

Lemma triple_bind {A B : Type} (P : World -> Prop) (R : A -> World -> Prop)
      (Q : B -> World -> Prop) (m : Sim A) (k : A -> Sim B) :
  triple P m R -> (forall a, triple (R a) (k a) Q) -> triple P (bind m k) Q.
Proof.
  intros Hm Hk w b w' Hp E. unfold bind in E.
  destruct (m w) as [a w1|] eqn:Em; [|discriminate].
  eapply Hk; [eapply Hm; eassumption|exact E].
Qed.

Lemma inert_ret {A : Type} (a : A) : inert (ret a : Sim A).
Proof. intros w b w' E. inversion E; subst. auto. Qed.

Lemma inert_raise {A : Type} (e : Exception) : inert (raise e : Sim A).
Proof. intros w b w' E. discriminate. Qed.

Lemma inert_bind {A B : Type} (m : Sim A) (k : A -> Sim B) :
  inert m -> (forall a, inert (k a)) -> inert (bind m k).
Proof.
  intros Hm Hk w b w' E. unfold bind in E.
  destruct (m w) as [a w1|] eqn:Em; [|discriminate].
  destruct (Hm _ _ _ Em) as (h1 & r1 & p1 & n1).
  destruct (Hk _ _ _ _ E) as (h2 & r2 & p2 & n2).
  repeat split; congruence.
Qed.

Lemma inert_get_now : inert (get_now : Sim Q).
Proof. intros w a w' E. inversion E; subst. auto. Qed.

Lemma inert_get_obj : inert (get_obj : Sim Model).
Proof. intros w a w' E. inversion E; subst. auto. Qed.

Lemma inert_get_resource (res : nat) : inert (get_resource res : Sim Resource).
Proof. intros w a w' E. inversion E; subst. auto. Qed.

Lemma inert_modify (f : Model -> Model) : inert (modify f : Sim unit).
Proof. intros w a w' E. inversion E; subst. simpl. auto. Qed.

Lemma inert_draw : inert (draw : Sim Q).
Proof. intros w a w' E. inversion E; subst. simpl. auto. Qed.

Lemma inert_random : inert (random : Sim Q).
Proof. apply inert_draw. Qed.

Lemma inert_uniform (a b : Q) : inert (uniform a b : Sim Q).
Proof. apply inert_bind; [apply inert_random|intros; apply inert_ret]. Qed.

Lemma inert_randint (a b : Z) : inert (randint a b : Sim Z).
Proof.
  unfold randint. destruct (b <? a)%Z; [apply inert_raise|].
  apply inert_bind; [apply inert_random|intros; apply inert_ret].
Qed.

Lemma inert_expovariate (l : Q) : inert (expovariate l : Sim Q).
Proof.
  apply inert_bind; [apply inert_random|intros].
  destruct (Qeq_bool l 0); [apply inert_raise|apply inert_ret].
Qed.

Lemma inert_gauss (mu sigma : Q) : inert (gauss mu sigma : Sim Q).
Proof. apply inert_bind; [apply inert_random|intros; apply inert_ret]. Qed.

Lemma inert_poisson (lam : Q) : inert (poisson lam : Sim nat).
Proof.
  unfold poisson. destruct (Qltb lam 0); [apply inert_raise|].
  destruct (Qltb POISSON_LAM_MAX lam); [apply inert_raise|].
  apply inert_bind; [apply inert_random|intros; apply inert_ret].
Qed.

Lemma inert_divide (a b : Q) : inert (divide a b : Sim Q).
Proof.
  unfold divide. destruct (Qeq_bool b 0); [apply inert_raise|].
  destruct (_ || _)%bool; [apply inert_raise|apply inert_ret].
Qed.

End Triples.

Create HintDb inert.

#[export] Hint Resolve inert_ret inert_raise inert_get_now inert_get_obj
  inert_get_resource inert_modify inert_draw inert_random inert_uniform
  inert_randint inert_expovariate inert_gauss inert_poisson inert_divide : inert.

Ltac inert_tac :=
  repeat first
    [ apply inert_bind; [|intros]
    | solve [auto with inert]
    | match goal with
      | |- inert (match ?x with _ => _ end) => destruct x
      | |- inert (let (_, _) := ?x in _) => destruct x
      end ].

(** ** The agenda: who is woken by what *)

Section Agenda.
Import Simpy.

Lemma accepts_nothing (ev : Event) : accepts ForNothing ev = false.
Proof. reflexivity. Qed.

Lemma wakes_b_one (p q : nat) (x : Scheduled) :
  wakes_b p x = true -> wakes_b q x = true -> q = p.
Proof.
  unfold wakes_b. destruct (event x); try discriminate; intros H1 H2;
    apply Nat.eqb_eq in H1; apply Nat.eqb_eq in H2; congruence.
Qed.

Lemma wakes_b_wakes (p : nat) (x : Scheduled) :
  wakes (event x) p -> wakes_b p x = true.
Proof.
  unfold wakes_b. intros [E|[E|[res E]]]; rewrite E; apply Nat.eqb_refl.
Qed.

Lemma pending_nil (p : nat) (hp : list Scheduled) :
  (forall x, In x hp -> wakes_b p x = false) -> pending p hp = [].
Proof.
  induction hp as [|y hp IH]; intros H; [reflexivity|]. unfold pending. simpl.
  rewrite (H y) by (left; reflexivity). apply IH. intros x Hx. apply H. right. exact Hx.
Qed.

Lemma pending_none (p : nat) (hp : list Scheduled) (x : Scheduled) :
  pending p hp = [] -> In x hp -> wakes_b p x = false.
Proof.
  intros H Hx. destruct (wakes_b p x) eqn:E; [|reflexivity].
  assert (In x (pending p hp)) as K by (apply filter_In; auto).
  rewrite H in K. contradiction.
Qed.

Lemma length_nil {A : Type} (l : list A) : (List.length l <= 0)%nat -> l = [].
Proof. destruct l; simpl; [reflexivity|lia]. Qed.

Lemma length_remove_first (p : nat) (l : list nat) :
  (List.length (remove_first p l) <= List.length l)%nat.
Proof.
  induction l as [|x l IH]; simpl; [lia|]. destruct (x =? p)%nat; simpl; lia.
Qed.

Variable hp : list Scheduled.
Variable rs : nat -> Resource.

(** A process that waits for nothing is woken by nothing and stands in no
    put queue. *)
Lemma waiting_nothing (p : nat) :
  waiting_ok ForNothing p hp rs ->
  pending p hp = [] /\ forall r, ~ In p (queue (rs r)).
Proof.
  intros [Ac On Qu]. split.
  - apply pending_nil. intros x Hx. destruct (wakes_b p x) eqn:E; [|reflexivity].
    specialize (Ac x Hx E). discriminate.
  - intros r Hr. destruct (Qu r Hr) as [K _]. discriminate.
Qed.

Variable stat : nat -> Wait.

Lemma agenda_stat_ext (stat' : nat -> Wait) :
  (forall k, stat' k = stat k) -> agenda_ok stat hp rs -> agenda_ok stat' hp rs.
Proof.
  intros X [Wa Nd Ca]. constructor; auto. intros p. rewrite X. apply Wa.
Qed.

(** An event that wakes nobody is popped. *)
Lemma agenda_pop_quiet (s : Scheduled) (rest : list Scheduled) :
  heappop hp = Some (s, rest) -> agenda_ok stat hp rs -> agenda_ok stat rest rs.
Proof.
  intros E [Wa Nd Ca]. constructor; auto. intros p.
  destruct (Wa p) as [Ac On Qu].
  pose proof (filter_heappop (wakes_b p) _ _ _ E) as L. fold (pending p hp) in L.
  fold (pending p rest) in L.
  constructor.
  - intros x Hx. apply Ac. apply (heappop_In _ _ _ E). auto.
  - lia.
  - intros r Hr. destruct (Qu r Hr) as [K1 K2]. split; [exact K1|].
    apply length_nil. rewrite K2 in L. simpl in L. lia.
Qed.

(** The event that wakes [p] is popped: [p] waited for it, and now runs. *)
Lemma agenda_pop_wake (s : Scheduled) (rest : list Scheduled) (p : nat) :
  heappop hp = Some (s, rest) -> wakes_b p s = true -> agenda_ok stat hp rs ->
  accepts (stat p) (event s) = true /\
  agenda_ok (fun k => if (k =? p)%nat then ForNothing else stat k) rest rs.
Proof.
  intros E W A. split.
  - apply (wait_accepts (agenda_waiting A p)); [|exact W].
    apply (heappop_In _ _ _ E). auto.
  - pose proof (agenda_pop_quiet _ _ E A) as [Wa Nd Ca]. constructor; auto.
    intros q. destruct (Nat.eqb_spec q p) as [->|Hne]; [|apply Wa].
    destruct (agenda_waiting A p) as [Ac On Qu].
    pose proof (filter_heappop (wakes_b p) _ _ _ E) as L. rewrite W in L.
    fold (pending p hp) in L. fold (pending p rest) in L.
    assert (N : pending p rest = []) by (apply length_nil; lia).
    constructor.
    + intros x Hx Wx. rewrite (pending_none _ _ _ N Hx) in Wx. discriminate.
    + rewrite N. simpl. lia.
    + intros r Hr. destruct (Qu r Hr) as [_ K]. rewrite K in L. simpl in L. lia.
Qed.

(** An event that wakes nobody is scheduled. *)
Lemma agenda_quiet_event (x : Scheduled) :
  (forall p, wakes_b p x = false) -> agenda_ok stat hp rs ->
  agenda_ok stat (x :: hp) rs.
Proof.
  intros Q [Wa Nd Ca]. constructor; auto. intros p.
  destruct (Wa p) as [Ac On Qu].
  assert (E : pending p (x :: hp) = pending p hp)
    by (unfold pending; simpl; rewrite Q; reflexivity).
  constructor.
  - intros y [<-|Hy] Wy; [rewrite Q in Wy; discriminate|auto].
  - rewrite E. exact On.
  - intros r Hr. rewrite E. auto.
Qed.

(** A process that waits for nothing gets an event that will wake it. *)
Lemma agenda_wake (p : nat) (st : Wait) (x : Scheduled) :
  stat p = ForNothing -> wakes_b p x = true -> accepts st (event x) = true ->
  agenda_ok stat hp rs ->
  agenda_ok (fun k => if (k =? p)%nat then st else stat k) (x :: hp) rs.
Proof.
  intros Sp W Acc [Wa Nd Ca]. constructor; auto. intros q.
  destruct (Nat.eqb_spec q p) as [->|Hne].
  - pose proof (Wa p) as Wp. rewrite Sp in Wp.
    destruct (waiting_nothing _ Wp) as [N Nq].
    constructor.
    + intros y [<-|Hy] Wy; [exact Acc|].
      rewrite (pending_none _ _ _ N Hy) in Wy. discriminate.
    + unfold pending in *. simpl. rewrite W, N. simpl. lia.
    + intros r Hr. exfalso. apply (Nq r). exact Hr.
  - assert (Wq : wakes_b q x = false).
    { destruct (wakes_b q x) eqn:K; [|reflexivity].
      exfalso. apply Hne. apply (wakes_b_one _ _ _ W K). }
    destruct (Wa q) as [Ac On Qu].
    assert (E : pending q (x :: hp) = pending q hp)
      by (unfold pending; simpl; rewrite Wq; reflexivity).
    constructor.
    + intros y [<-|Hy] Wy; [rewrite Wq in Wy; discriminate|auto].
    + rewrite E. exact On.
    + intros r Hr. rewrite E. auto.
Qed.

(** The users of the resources change, not their number for the worse. *)
Lemma agenda_users (rs' : nat -> Resource) :
  (forall r, queue (rs' r) = queue (rs r) /\ capacity (rs' r) = capacity (rs r) /\
             (List.length (users (rs' r)) <= List.length (users (rs r)))%nat) ->
  agenda_ok stat hp rs -> agenda_ok stat hp rs'.
Proof.
  intros X [Wa Nd Ca]. constructor.
  - intros p. destruct (Wa p) as [Ac On Qu]. constructor; auto.
    intros r Hr. destruct (X r) as (Eq & _). rewrite Eq in Hr. auto.
  - intros r. destruct (X r) as (Eq & _). rewrite Eq. apply Nd.
  - intros r. destruct (X r) as (_ & Ec & Lu). destruct (Ca r). split; [congruence|lia].
Qed.

(** A process that waits for nothing joins the put queue of [r]. *)
Lemma agenda_enqueue (p r : nat) :
  stat p = ForNothing -> agenda_ok stat hp rs ->
  agenda_ok (fun k => if (k =? p)%nat then ForRequest r else stat k) hp
            (fun k => if (k =? r)%nat
                      then mkResource (capacity (rs r)) (users (rs r))
                                      (queue (rs r) ++ [p])
                      else rs k).
Proof.
  intros Sp [Wa Nd Ca].
  pose proof (Wa p) as Wp. rewrite Sp in Wp.
  destruct (waiting_nothing _ Wp) as [N Nq].
  constructor.
  - intros q. destruct (Nat.eqb_spec q p) as [->|Hne].
    + constructor.
      * intros y Hy Wy. rewrite (pending_none _ _ _ N Hy) in Wy. discriminate.
      * rewrite N. simpl. lia.
      * intros r' Hr. destruct (Nat.eqb_spec r' r) as [Hr'|Hr'].
        -- subst r'. split; [reflexivity|exact N].
        -- exfalso. apply (Nq r'). exact Hr.
    + destruct (Wa q) as [Ac On Qu]. constructor; auto.
      intros r' Hr. destruct (Nat.eqb_spec r' r) as [Hr'|Hr'].
      * subst r'. simpl in Hr. apply in_app_or in Hr. destruct Hr as [Hr|[Hr|[]]]; [auto|].
        congruence.
      * auto.
  - intros r'. destruct (Nat.eqb_spec r' r) as [->|Hr']; [|apply Nd].
    simpl. apply NoDup_app; [apply Nd|repeat constructor; intros []|].
    intros a Ha [<-|[]]. apply (Nq r). exact Ha.
  - intros r'. destruct (Nat.eqb_spec r' r) as [->|Hr']; [|apply Ca].
    simpl. apply Ca.
Qed.

End Agenda.

Section AgendaKernel.
Import Simpy.
Variables Frame Model : Type.

Local Abbreviation World := (Simpy.World Frame Model).
Local Abbreviation Sim := (Simpy.Sim Frame Model).

(** [_trigger_put]: the head of the put queue, if it is granted, waited
    for this resource. *)
Lemma agenda_trigger_put (stat : nat -> Wait) (res : nat) (w : World) :
  agenda_ok stat (heap w) (resources w) ->
  agenda_ok stat (heap (trigger_put res w)) (resources (trigger_put res w)).
Proof.
  intros A. unfold trigger_put.
  destruct (queue (resources w res)) as [|h t] eqn:Eq; [exact A|].
  destruct (List.length (users (resources w res)) <? capacity (resources w res))%nat
    eqn:Lt; [|exact A].
  apply Nat.ltb_lt in Lt. destruct A as [Wa Nd Ca]. cbn.
  assert (Hh : In h (queue (resources w res))) by (rewrite Eq; left; reflexivity).
  destruct (wait_queue (Wa h) res Hh) as [Sh Nh].
  pose proof (Nd res) as Ndr. rewrite Eq in Ndr. inversion Ndr as [|? ? Nin Ndt]; subst.
  set (x := mkScheduled (now w + 0) NORMAL (next_eid w) (Request res h)).
  assert (Wx : forall q, wakes_b q x = (h =? q)%nat) by reflexivity.
  constructor.
  - intros q. destruct (Wa q) as [Ac On Qu].
    destruct (Nat.eqb_spec h q) as [->|Hne].
    + constructor.
      * intros y [<-|Hy] Wy.
        -- rewrite Sh. simpl. apply Nat.eqb_refl.
        -- rewrite (pending_none _ _ _ Nh Hy) in Wy. discriminate.
      * unfold pending in *. simpl. rewrite Wx, Nat.eqb_refl, Nh. simpl. lia.
      * intros r Hr. exfalso. destruct (Nat.eqb_spec r res) as [Hr'|Hr'].
        -- subst r. simpl in Hr. contradiction.
        -- destruct (Qu r Hr) as [K _]. rewrite Sh in K. inversion K. congruence.
    + assert (E : pending q (x :: heap w) = pending q (heap w)).
      { unfold pending. simpl. rewrite Wx.
        destruct (Nat.eqb_spec h q); [contradiction|reflexivity]. }
      constructor.
      * intros y [<-|Hy] Wy; [|auto]. rewrite Wx in Wy.
        destruct (Nat.eqb_spec h q); [contradiction|discriminate].
      * rewrite E. exact On.
      * intros r Hr. rewrite E. apply Qu.
        destruct (Nat.eqb_spec r res) as [Hr'|Hr']; [subst r|exact Hr].
        simpl in Hr. rewrite Eq. right. exact Hr.
  - intros r. destruct (Nat.eqb_spec r res) as [->|Hr']; [exact Ndt|apply Nd].
  - intros r. destruct (Nat.eqb_spec r res) as [->|Hr']; [|apply Ca].
    destruct (Ca res) as [C1 C2]. simpl. split; [exact C1|].
    rewrite length_app. simpl. lia.
Qed.

Variable waits : Frame -> Wait.

Lemma triple_inert {A : Type} (p : nat) (st : Wait) (m : Sim A) :
  inert m -> triple (running waits p st) m (fun _ => running waits p st).
Proof.
  intros Hm w a w' (Ag & Tb & Lp) E.
  destruct (Hm _ _ _ E) as (Eh & Er & Ep & En).
  unfold running, table_ok. rewrite Eh, Er, Ep, En. auto.
Qed.

Lemma triple_timeout (p : nat) (d : Q) :
  triple (running waits p ForNothing) (timeout p d : Sim unit)
         (fun _ => running waits p ForTimeout).
Proof.
  intros w a w' (Ag & Tb & Lp) E. unfold timeout in E.
  destruct (Qltb d 0); [discriminate|]. inversion E; subst; clear E.
  split; [|split; [exact Tb|exact Lp]]. cbn [heap resources processes schedule with_heap].
  eapply agenda_stat_ext;
    [|apply (agenda_wake _ _ _ p ForTimeout) with (4 := Ag)].
  - intros k. cbn beta. destruct (Nat.eqb_spec k p); reflexivity.
  - cbn beta. rewrite Nat.eqb_refl. reflexivity.
  - unfold wakes_b. simpl. apply Nat.eqb_refl.
  - reflexivity.
Qed.

Lemma triple_request (p res : nat) :
  triple (running waits p ForNothing) (request res p : Sim unit)
         (fun _ => running waits p (ForRequest res)).
Proof.
  intros w a w' (Ag & Tb & Lp) E. unfold request in E. inversion E; subst; clear E.
  match goal with
  | |- running _ _ _ (trigger_put res ?wa) =>
      destruct (trigger_put_same _ _ res wa) as (_ & _ & Ep & En)
  end.
  split; [|split; [intros k; rewrite Ep, En; apply Tb|rewrite En; exact Lp]].
  rewrite Ep. apply agenda_trigger_put.
  cbn [heap resources processes with_resource].
  eapply agenda_stat_ext; [|apply (agenda_enqueue _ _ _ p res) with (2 := Ag)].
  - intros k. cbn beta. destruct (Nat.eqb_spec k p); reflexivity.
  - cbn beta. rewrite Nat.eqb_refl. reflexivity.
Qed.

Lemma triple_release (p : nat) (st : Wait) (res q : nat) :
  triple (running waits p st) (release res q : Sim unit)
         (fun _ => running waits p st).
Proof.
  intros w a w' (Ag & Tb & Lp) E. unfold release in E. inversion E; subst; clear E.
  split; [|split; [exact Tb|exact Lp]].
  cbn [heap resources processes schedule with_heap with_resource].
  apply agenda_quiet_event; [reflexivity|].
  eapply agenda_users; [|exact Ag].
  intros r. destruct (Nat.eqb_spec r res) as [->|]; simpl; auto.
  repeat split; auto. apply length_remove_first.
Qed.

Lemma triple_process (p : nat) (st : Wait) (f : Frame) :
  waits f = ForStart ->
  triple (running waits p st) (process f : Sim nat) (fun _ => running waits p st).
Proof.
  intros Wf w a w' (Ag & Tb & Lp) E. unfold process in E. inversion E; subst; clear E.
  split; [|split].
  - cbn [heap resources processes schedule with_heap].
    eapply agenda_stat_ext;
      [|apply (agenda_wake _ _ _ (next_pid w) ForStart) with (4 := Ag)].
    + intros k. cbn beta.
      destruct (Nat.eqb_spec k p) as [Hp|Hp];
        destruct (Nat.eqb_spec k (next_pid w)) as [Hn|Hn];
        try reflexivity; try lia.
      simpl. exact Wf.
    + cbn beta. destruct (Nat.eqb_spec (next_pid w) p); [lia|].
      rewrite (Tb (next_pid w)) by lia. reflexivity.
    + unfold wakes_b. simpl. apply Nat.eqb_refl.
    + reflexivity.
  - intros k Hk. cbn in Hk. cbn [processes schedule with_heap].
    destruct (Nat.eqb_spec k (next_pid w)); [lia|]. apply Tb. lia.
  - cbn. lia.
Qed.

End AgendaKernel.


(** Walks through a segment run by process [p]; [extra] closes the calls
    that have a lemma of their own. *)
Ltac triple_with extra :=
  repeat first
    [ extra
    | apply triple_raise
    | apply triple_timeout
    | apply triple_request
    | apply triple_release
    | apply triple_process; reflexivity
    | apply triple_inert; solve [inert_tac]
    | apply triple_ret; intros ? ?; eassumption
    | eapply triple_bind; [|intros]
    | match goal with
      | |- triple _ (match ?x with _ => _ end) _ => destruct x
      | |- triple _ (let (_, _) := ?x in _) _ => destruct x
      end ].

(** ** The agenda along a run *)

Section AgendaRun.
Import Simpy.
Variables Frame Model : Type.
Variable resume : nat -> Frame -> Event -> Sim Frame Model Frame.
Variable returned : Frame -> bool.
Variable waits : Frame -> Wait.
Hypothesis resume_running :
  forall pid f ev,
    triple (running waits pid ForNothing) (resume pid f ev)
           (fun f' => running waits pid (waits f')).

Local Abbreviation World := (Simpy.World Frame Model).

(** The popped event that wakes a process finds it in a frame that waits
    for it. *)
Lemma popped_accepts (w : World) (s : Scheduled) (rest : list Scheduled) (pid : nat) :
  scheduled_ok waits w -> heappop (heap w) = Some (s, rest) ->
  wakes (event s) pid ->
  exists f, processes w pid = Some f /\ accepts (waits f) (event s) = true.
Proof.
  intros A E W. apply wakes_b_wakes in W.
  destruct (agenda_pop_wake _ _ _ _ _ pid E W A) as [Acc _]. cbn beta in Acc.
  destruct (processes w pid) as [f|]; [eauto|discriminate].
Qed.

Lemma scheduled_ok_step (w w' : World) :
  table_ok w -> scheduled_ok waits w -> step resume returned w = Continue w' ->
  scheduled_ok waits w'.
Proof.
  intros Tb A S. apply step_Continue in S. destruct S as (s & rest & E & S).
  destruct S as [(res & Ev & ->)|[(pid & Ev & ->)|(pid & f & f' & w2 & W & P & R & ->)]].
  - unfold scheduled_ok.
    destruct (trigger_put_same _ _ res (popped w s rest)) as (_ & _ & -> & _).
    apply agenda_trigger_put. cbn. eapply agenda_pop_quiet; eassumption.
  - unfold scheduled_ok. cbn. eapply agenda_pop_quiet; eassumption.
  - apply wakes_b_wakes in W.
    destruct (agenda_pop_wake _ _ _ _ _ pid E W A) as [_ A1].
    assert (Lp : (pid < next_pid w)%nat) by (eapply table_ok_lt; eassumption).
    assert (Run : running waits pid ForNothing (popped w s rest))
      by (split; [exact A1|split; [exact Tb|exact Lp]]).
    destruct (resume_running pid f (event s) _ _ _ Run R) as (A2 & _ & _).
    unfold scheduled_ok.
    destruct (resumed_same _ _ returned pid f' w2) as (_ & _ & _ & -> & ->).
    assert (A3 : agenda_ok (fun k => wait_of waits (if (k =? pid)%nat then Some f'
                                                    else processes w2 k))
                           (heap w2) (resources w2)).
    { eapply agenda_stat_ext; [|exact A2]. intros k. cbn beta.
      destruct (Nat.eqb_spec k pid); reflexivity. }
    unfold resumed. destruct (returned f'); [|exact A3].
    cbn [heap schedule with_heap with_process].
    apply agenda_quiet_event; [reflexivity|exact A3].
  Qed.

End AgendaRun.

(** ** Code between two yields leaves the random stream as it is *)

Section Steady.
Import Simpy.
Variables Frame Model : Type.

Local Abbreviation World := (Simpy.World Frame Model).
Local Abbreviation Sim := (Simpy.Sim Frame Model).

Lemma steady_ret {A : Type} (a : A) : steady (ret a : Sim A).
Proof. intros w b w' E. inversion E; subst. reflexivity. Qed.

Lemma steady_raise {A : Type} (e : Exception) : steady (raise e : Sim A).
Proof. intros w b w' E. discriminate. Qed.

Lemma steady_bind {A B : Type} (m : Sim A) (k : A -> Sim B) :
  steady m -> (forall a, steady (k a)) -> steady (bind m k).
Proof.
  intros Hm Hk w b w' E. unfold bind in E.
  destruct (m w) as [a w1|] eqn:Em; [|discriminate].
  rewrite (Hk _ _ _ _ E). eapply Hm. exact Em.
Qed.

Lemma steady_get_now : steady (get_now : Sim Q).
Proof. intros w a w' E. inversion E; subst. reflexivity. Qed.

Lemma steady_get_obj : steady (get_obj : Sim Model).
Proof. intros w a w' E. inversion E; subst. reflexivity. Qed.

Lemma steady_get_resource (res : nat) : steady (get_resource res : Sim Resource).
Proof. intros w a w' E. inversion E; subst. reflexivity. Qed.

Lemma steady_modify (f : Model -> Model) : steady (modify f : Sim unit).
Proof. intros w a w' E. inversion E; subst. reflexivity. Qed.

Lemma steady_draw : steady (draw : Sim Q).
Proof. intros w a w' E. inversion E; subst. reflexivity. Qed.

Lemma steady_timeout (pid : nat) (d : Q) : steady (timeout pid d : Sim unit).
Proof.
  intros w a w' E. unfold timeout in E. destruct (Qltb d 0); [discriminate|].
  inversion E; subst. reflexivity.
Qed.

Lemma stream_trigger_put (res : nat) (w : World) :
  random_stream (trigger_put res w) = random_stream w.
Proof.
  unfold trigger_put. destruct (queue (resources w res)); [reflexivity|].
  destruct (_ <? _)%nat; reflexivity.
Qed.

Lemma steady_request (res pid : nat) : steady (request res pid : Sim unit).
Proof.
  intros w a w' E. unfold request in E. inversion E; subst.
  rewrite stream_trigger_put. reflexivity.
Qed.

Lemma steady_release (res pid : nat) : steady (release res pid : Sim unit).
Proof. intros w a w' E. inversion E; subst. reflexivity. Qed.

Lemma steady_process (f : Frame) : steady (process f : Sim nat).
Proof. intros w a w' E. inversion E; subst. reflexivity. Qed.

Lemma steady_random : steady (random : Sim Q).
Proof. apply steady_draw. Qed.

Lemma steady_uniform (a b : Q) : steady (uniform a b : Sim Q).
Proof. apply steady_bind; [apply steady_random|intros; apply steady_ret]. Qed.

Lemma steady_randint (a b : Z) : steady (randint a b : Sim Z).
Proof.
  unfold randint. destruct (b <? a)%Z; [apply steady_raise|].
  apply steady_bind; [apply steady_random|intros; apply steady_ret].
Qed.

Lemma steady_expovariate (l : Q) : steady (expovariate l : Sim Q).
Proof.
  apply steady_bind; [apply steady_random|intros].
  destruct (Qeq_bool l 0); [apply steady_raise|apply steady_ret].
Qed.

Lemma steady_gauss (mu sigma : Q) : steady (gauss mu sigma : Sim Q).
Proof. apply steady_bind; [apply steady_random|intros; apply steady_ret]. Qed.

Lemma steady_poisson (lam : Q) : steady (poisson lam : Sim nat).
Proof.
  unfold poisson. destruct (Qltb lam 0); [apply steady_raise|].
  destruct (Qltb POISSON_LAM_MAX lam); [apply steady_raise|].
  apply steady_bind; [apply steady_random|intros; apply steady_ret].
Qed.

Lemma steady_divide (a b : Q) : steady (divide a b : Sim Q).
Proof.
  unfold divide. destruct (Qeq_bool b 0); [apply steady_raise|].
  destruct (_ || _)%bool; [apply steady_raise|apply steady_ret].
Qed.

End Steady.

Create HintDb steady.

#[export] Hint Resolve steady_ret steady_raise steady_get_now steady_get_obj
  steady_get_resource steady_modify steady_draw steady_timeout steady_request
  steady_release steady_process steady_random steady_uniform steady_randint
  steady_expovariate steady_gauss steady_poisson steady_divide : steady.

Ltac steady_with extra :=
  repeat first
    [ extra
    | apply steady_bind; [|intros]
    | solve [auto with steady]
    | match goal with
      | |- steady (match ?x with _ => _ end) => destruct x
      | |- steady (let (_, _) := ?x in _) => destruct x
      end ].

(** ** Runs that do not fail *)

Section Safety.
Import Simpy.
Variables Frame Model : Type.
Variable resume : nat -> Frame -> Event -> Sim Frame Model Frame.
Variable returned : Frame -> bool.

Local Abbreviation World := (Simpy.World Frame Model).

Lemma heappop_some (q : list Scheduled) :
  q <> [] -> exists s r, heappop q = Some (s, r).
Proof.
  destruct q as [|x q]; [congruence|]. intros _. simpl.
  destruct (heappop q) as [[m r]|]; [destruct (before x m)|]; eauto.
Qed.

(** A step does not fail when the stop event is pending and the process
    that the next event wakes, if any, runs its segment to the end. *)
Lemma step_total (T : Q) (w : World) :
  clock_ok T w ->
  (forall s rest pid, heappop (heap w) = Some (s, rest) -> wakes (event s) pid ->
     exists f f' w2, processes w pid = Some f /\
                     resume pid f (event s) (popped w s rest) = Ok f' w2) ->
  (exists w', step resume returned w = Continue w') \/
  (exists w', step resume returned w = StopSimulation w').
Proof.
  intros [_ _ Hu] H.
  assert (N : heap w <> []).
  { apply Exists_exists in Hu. destruct Hu as (u & Iu & _).
    intros K. rewrite K in Iu. contradiction. }
  destruct (heappop_some _ N) as (s & rest & E).
  specialize (H s rest). unfold step. rewrite E. fold (popped w s rest).
  assert (R : forall pid, wakes (event s) pid ->
            exists w', resume_process resume returned pid (event s) (popped w s rest)
                       = Continue w').
  { intros pid W. destruct (H pid E W) as (f & f' & w2 & P & K).
    unfold resume_process. cbn [processes popped with_heap]. rewrite P, K. eauto. }
  destruct (event s) eqn:Ev; eauto.
  - left. apply R. left. reflexivity.
  - left. apply R. right. left. reflexivity.
  - left. apply R. right. right. eauto.
Qed.

(** A run does not fail when an invariant of its steps makes each of
    them go on or stop. *)
Lemma run_loop_safe (Inv : World -> Prop) :
  (forall w, Inv w ->
     (exists w', step resume returned w = Continue w' /\ Inv w') \/
     (exists w', step resume returned w = StopSimulation w')) ->
  forall fuel w, Inv w -> forall e, run_loop resume returned fuel w <> Failed e.
Proof.
  intros H fuel. induction fuel as [|n IH]; intros w Hw e; simpl; [discriminate|].
  destruct (H w Hw) as [(w' & -> & Hw')|(w' & ->)]; [apply IH; exact Hw'|discriminate].
Qed.

(** A step fails when a process is missing or its segment raises. *)
Lemma step_Crash (w : World) (e : Exception) :
  step resume returned w = Crash e ->
  exists s rest pid,
    heappop (heap w) = Some (s, rest) /\ wakes (event s) pid /\
    (processes w pid = None /\ e = RuntimeError \/
     exists f, processes w pid = Some f /\
               resume pid f (event s) (popped w s rest) = Raised e).
Proof.
  unfold step. destruct (heappop (heap w)) as [[s rest]|] eqn:E; [|discriminate].
  intros H. exists s, rest. fold (popped w s rest) in H.
  assert (R : forall pid, wakes (event s) pid ->
            resume_process resume returned pid (event s) (popped w s rest) = Crash e ->
            processes w pid = None /\ e = RuntimeError \/
            exists f, processes w pid = Some f /\
                      resume pid f (event s) (popped w s rest) = Raised e).
  { intros pid _ K. unfold resume_process in K. cbn [processes popped with_heap] in K.
    destruct (processes w pid) as [f|]; [|inversion K; auto].
    right. exists f. split; [reflexivity|].
    destruct (resume pid f (event s) (popped w s rest)) as [f' w2|e']; [discriminate|].
    inversion K. reflexivity. }
  destruct (event s) eqn:Ev; try discriminate.
  - exists pid. split; [reflexivity|]. split; [left; reflexivity|].
    apply R; [left; reflexivity|exact H].
  - exists pid. split; [reflexivity|]. split; [right; left; reflexivity|].
    apply R; [right; left; reflexivity|exact H].
  - exists pid. split; [reflexivity|]. split; [right; right; eauto|].
    apply R; [right; right; eauto|exact H].
Qed.

Lemma step_Empty (w : World) :
  step resume returned w = EmptySchedule -> heap w = [].
Proof.
  unfold step. destruct (heappop (heap w)) as [[s rest]|] eqn:E.
  - destruct (event s); try discriminate; unfold resume_process;
      destruct (processes _ _); try discriminate;
      destruct (resume _ _ _ _); discriminate.
  - intros _. destruct (heap w) as [|x q]; [reflexivity|].
    destruct (heappop_some (x :: q)) as (s & r & K); [discriminate|].
    rewrite K in E. discriminate.
Qed.

(** A run that fails does so in a step out of a reachable world. *)
Lemma run_loop_Failed (fuel : nat) :
  forall w0 e, run_loop resume returned fuel w0 = Failed e ->
  exists w, reachable resume returned w0 w /\
            (step resume returned w = Crash e \/
             step resume returned w = EmptySchedule /\ e = RuntimeError).
Proof.
  induction fuel as [|n IH]; intros w0 e H; simpl in H; [discriminate|].
  destruct (step resume returned w0) as [w1|w1|e'|] eqn:S; try discriminate.
  - destruct (IH _ _ H) as (w & R & St). exists w. split; [|exact St].
    eapply reachable_after_step; eassumption.
  - inversion H; subst. exists w0. split; [apply reachable_start|left; exact S].
  - inversion H; subst. exists w0. split; [apply reachable_start|right; auto].
Qed.

End Safety.

(** ** Logs of (time, value) pairs *)

Section Logs.

Lemma sorted_app_last (l : list (Q * Z)) (t : Q) (v : Z) :
  StronglySorted Qle (map fst l) -> Forall (fun e => fst e <= t) l ->
  StronglySorted Qle (map fst (l ++ [(t, v)])).
Proof.
  induction l as [|[t0 v0] l IH]; intros S F; simpl.
  - constructor; constructor.
  - inversion S; subst. inversion F; subst. constructor; [auto|].
    rewrite map_app. apply Forall_app. split; [assumption|].
    constructor; [assumption|constructor].
Qed.

Lemma last_app_one (l : list (Q * Z)) (t : Q) (v : Z) :
  last (map snd (l ++ [(t, v)])) 0%Z = v.
Proof. rewrite map_app. apply last_last. Qed.

Lemma log_ok_nil (t : Q) : log_ok t 0 [].
Proof. constructor; simpl; try constructor. Qed.

(** What [UpdateQueueStats] and [UpdateBasketStats] do to a log. *)
Lemma log_ok_app (t : Q) (v v' : Z) (log : list (Q * Z)) :
  log_ok t v log -> (0 <= v')%Z -> log_ok t v' (log ++ [(t, v')]).
Proof.
  intros [S P V L] H. constructor.
  - apply sorted_app_last; assumption.
  - apply Forall_app. split; [assumption|]. constructor; [apply Qle_refl|constructor].
  - apply Forall_app. split; [assumption|]. constructor; [exact H|constructor].
  - apply last_app_one.
Qed.

Lemma log_ok_later (t t' : Q) (v : Z) (log : list (Q * Z)) :
  t <= t' -> log_ok t v log -> log_ok t' v log.
Proof.
  intros H [S P V L]. constructor; auto.
  eapply Forall_impl; [|exact P]. simpl. intros e He. lra.
Qed.

Lemma last_Forall {A : Type} (P : A -> Prop) (l : list A) (d : A) :
  Forall P l -> P d -> P (last l d).
Proof.
  induction 1 as [|x l Hx Hl IH]; intros Hd; simpl; [exact Hd|].
  destruct l; [exact Hx|]. apply IH. exact Hd.
Qed.

(** The value a log stands at is not negative. *)
Lemma log_ok_value (t : Q) (v : Z) (log : list (Q * Z)) :
  log_ok t v log -> (0 <= v)%Z.
Proof.
  intros [S P V L]. rewrite <- L.
  apply (last_Forall (fun v => (0 <= v)%Z)); [|lia].
  apply Forall_map. exact V.
Qed.

(** [random.randint(a, b)] is in its range. *)
Lemma randint_bounds (a b k : Z) :
  (b <? a)%Z = false -> (a <= a + k mod (b - a + 1) <= b)%Z.
Proof.
  intros H. apply Z.ltb_ge in H.
  pose proof (Z.mod_pos_bound k (b - a + 1)). lia.
Qed.

Lemma count_frames_pos {Frame : Type} (select : Frame -> bool)
      (procs : nat -> option Frame) (n k : nat) (f : Frame) :
  (k < n)%nat -> procs k = Some f -> select f = true ->
  (1 <= Simpy.count_frames select procs n)%Z.
Proof.
  intros L P S. induction n as [|n IH]; [lia|]. simpl.
  assert (N : forall m, (0 <= Simpy.count_frames select procs m)%Z).
  { induction m as [|m IHm]; simpl; [lia|].
    destruct (procs m) as [g|]; [destruct (select g)|]; lia. }
  destruct (Nat.eq_dec k n) as [->|Hne].
  - rewrite P, S. specialize (N n). lia.
  - specialize (IH ltac:(lia)). destruct (procs n) as [g|]; [destruct (select g)|]; lia.
Qed.

End Logs.

(** ** The store: more of what each segment does *)

Section StoreMoreSegments.
Import Simpy TaskA.

Local Abbreviation World := (Simpy.World Frame Supermarket).

#[local] Arguments VisitCounters : simpl never.

Lemma supermarket_more_later (p : Params) (t t' : Q) (m : Supermarket) :
  t <= t' -> supermarket_more p t m -> supermarket_more p t' m.
Proof.
  intros L [Pa Bu Qu Ba Mx Se Re Wt Pc]. constructor; auto.
  - eapply log_ok_later; eassumption.
  - eapply log_ok_later; eassumption.
  - eapply Forall_impl; [|exact Re]. intros r ((R0 & R1) & R2 & R3 & R4).
    repeat split; auto; lra.
Qed.

Lemma customer_frame_ok_later (t t' : Q) (f : Frame) :
  t <= t' -> customer_frame_ok t f -> customer_frame_ok t' f.
Proof.
  intros L. destruct f; simpl; auto; intros [H1 H2]; split; auto; lra.
Qed.

Ltac more_fin :=
  cbn; intros;
  repeat match goal with
         | H : _ /\ _ |- _ => destruct H
         | H : ?x = _ |- context [match ?x with _ => _ end] => rewrite H; cbn
         end;
  repeat match goal with
         | |- context [(?a + ?k mod (?b - ?a + 1))%Z] =>
             lazymatch goal with
             | _ : (a <= a + k mod (b - a + 1) <= b)%Z |- _ => fail
             | E : (b <? a)%Z = false |- _ => pose proof (randint_bounds a b k E)
             end
         end;
  repeat match goal with
         | H : log_ok _ ?v _ |- _ =>
             lazymatch goal with
             | _ : (0 <= v)%Z |- _ => fail
             | _ => pose proof (log_ok_value _ _ _ H)
             end
         end;
  first
    [ assumption
    | reflexivity
    | eapply log_ok_app; [eassumption|lia]
    | rewrite fold_max_app; congruence
    | lia
    | lra
    | rewrite !map_app; cbn; congruence
    | apply Forall_app; split; [assumption|];
      constructor; [|constructor]; unfold record_ok; cbn;
      first [ lra | lia
            | eexists; split; [|reflexivity]; lia
            | repeat split; first [lia | lra | reflexivity] ]
    | congruence
    | repeat split; first [lia | lra | reflexivity | assumption] ].

Lemma VisitCounters_more (p : Params) (pid customerId : nat)
      (items : list (nat * CounterData)) :
  forall (total : Z) (w : World) (f' : Frame) (w' : World),
  supermarket_more p (now w) (obj w) ->
  round_ok items total ->
  VisitCounters pid customerId items total w = Ok f' w' ->
  supermarket_more p (now w) (obj w') /\ customer_frame_ok (now w) f' /\
  currentQueueLength (obj w') =
    (currentQueueLength (obj w) + Z.b2z (awaits_cashier f'))%Z.
Proof.
  induction items as [|[counterId cd] rest IH]; intros total w f' w' M0 R0 H.
  - destruct M0 as [Pa Bu Qu Ba Mx Se Re Wt Pc]. destruct R0 as (_ & T0 & T1).
    cbn in T1.
    change (VisitCounters pid customerId [] total)
      with (CustomerProcess_checkout pid customerId total) in H.
    unfold CustomerProcess_checkout, CashierProcess in H. sim_run H.
    all: inversion H; subst; clear H; rewrite ?obj_trigger_put; cbn.
    all: (split; [constructor|split]); more_fin.
  - change (VisitCounters pid customerId ((counterId, cd) :: rest) total)
      with (bind random (fun u =>
              if Qltb u (probability cd)
              then bind (request (counters (counterId - 1)) pid)
                        (fun _ => ret (AwaitCounter customerId counterId cd rest total))
              else VisitCounters pid customerId rest total)) in H.
    cbn in H. destruct (Qltb _ _).
    + cbn in H. inversion H; subst; clear H; rewrite ?obj_trigger_put; cbn.
      split; [exact M0|]. split; [exact R0|lia].
    + apply IH in H; [exact H|exact M0|].
      destruct R0 as (F & T0 & T1). inversion F; subst. cbn in T1.
      destruct cd as [pr tm [bp pv]]. cbn in *.
      match goal with K : counter_ok _ |- _ => destruct K as [_ K]; cbn in K end.
      repeat split; auto; lia.
Qed.

Lemma COUNTERSDATA_ok : round_ok COUNTERSDATA 0.
Proof.
  split; [|split; [lia|vm_compute; discriminate]].
  repeat constructor; vm_compute; discriminate.
Qed.

(** What resuming a process does to the object and to the local
    variables of the process. *)
Lemma store_resume_more (p : Params) (pid : nat) (f : Frame) (ev : Event)
      (w : World) (f' : Frame) (w' : World) :
  supermarket_ok (now w) (obj w) ->
  supermarket_more p (now w) (obj w) ->
  customer_frame_ok (now w) f ->
  (in_store f = true -> (1 <= basketsInUse (stats (obj w)))%Z) ->
  (awaits_cashier f = true -> (1 <= currentQueueLength (obj w))%Z) ->
  resume pid f ev w = Ok f' w' ->
  supermarket_more p (now w) (obj w') /\ customer_frame_ok (now w) f' /\
  currentQueueLength (obj w') =
    (currentQueueLength (obj w) + Z.b2z (awaits_cashier f')
     - Z.b2z (awaits_cashier f))%Z.
Proof.
  intros Ok0 M0 F0 Hb Hq H.
  destruct f; destruct ev; try discriminate H;
    cbn [resume CustomerGenerator CustomerProcess] in H.
  - (* CustomerGenerator starts *)
    unfold CustomerGenerator_loop, timeout in H. sim_run H.
    all: inversion H; subst; clear H; cbn.
    all: split; [exact M0|split; [exact I|lia]].
  - (* CustomerGenerator wakes up *)
    unfold CustomerGenerator_loop, timeout in H. sim_run H.
    all: inversion H; subst; clear H; cbn.
    all: split; [exact M0|split; [exact I|lia]].
  - (* CustomerProcess starts *)
    cbn in H. apply (VisitCounters_more p) in H; [|cbn|apply COUNTERSDATA_ok].
    + cbn in H. destruct H as (M1 & F1 & Q1).
      split; [exact M1|]. split; [exact F1|]. cbn. lia.
    + destruct M0 as [Pa Bu Qu Ba Mx Se Re Wt Pc]. constructor; more_fin.
  - (* a counter was granted *)
    unfold VisitCounters_granted, timeout in H. sim_run H.
    all: inversion H; subst; clear H; cbn.
    all: split; [exact M0|split; [exact F0|lia]].
  - (* the choice at a counter is made *)
    unfold VisitCounters_chosen in H. destruct counterData as [pr tm [bp pv]].
    unfold randint in H. cbn in H. destruct (_ <? _)%Z eqn:Lt; [discriminate|].
    cbn in H. apply (VisitCounters_more p) in H; [|exact M0|].
    + cbn in H. destruct H as (M1 & F1 & Q1).
      split; [exact M1|]. split; [exact F1|]. cbn. lia.
    + destruct F0 as (F & T0 & T1). inversion F; subst. cbn in T1.
      pose proof (randint_bounds _ _ (Qfloor (random_stream w (random_pos w))) Lt).
      repeat split; auto; lia.
  - (* the cashier was granted *)
    specialize (Hq eq_refl). destruct F0 as [F1 F2].
    destruct M0 as [Pa Bu Qu Ba Mx Se Re Wt Pc].
    unfold CashierProcess_granted, timeout in H. sim_run H.
    all: inversion H; subst; clear H; cbn.
    all: (split; [constructor|split]); more_fin.
  - (* the cashier is done *)
    specialize (Hb eq_refl). destruct F0 as [F1 F2].
    destruct Ok0 as [_ _ _ _ _ _ _ St].
    destruct M0 as [Pa Bu Qu Ba Mx Se Re Wt Pc].
    unfold CashierProcess_served in H. sim_run H.
    all: inversion H; subst; clear H; cbn.
    all: (split; [constructor|split]); more_fin.
Qed.

Lemma VisitCounters_steady (pid customerId : nat) (items : list (nat * CounterData)) :
  forall total, steady (VisitCounters pid customerId items total).
Proof.
  induction items as [|[counterId cd] rest IH]; intros total.
  - unfold VisitCounters, CustomerProcess_checkout, CashierProcess,
      add_currentQueueLength, UpdateQueueStats, set_cashierBusyStart.
    steady_with fail.
  - change (VisitCounters pid customerId ((counterId, cd) :: rest) total)
      with (bind random (fun u =>
              if Qltb u (probability cd)
              then bind (request (counters (counterId - 1)) pid)
                        (fun _ => ret (AwaitCounter customerId counterId cd rest total))
              else VisitCounters pid customerId rest total)).
    apply steady_bind; [auto with steady|intros u].
    destruct (Qltb u (probability cd)); [steady_with fail|apply IH].
Qed.

Lemma store_resume_steady (pid : nat) (f : Frame) (ev : Event) :
  steady (resume pid f ev).
Proof.
  destruct f; destruct ev; simpl; try apply steady_raise;
    unfold CustomerGenerator_loop, VisitCounters_granted, VisitCounters_chosen,
      CashierProcess_granted, CashierProcess_served, add_basketsInUse,
      UpdateBasketStats, add_currentQueueLength, UpdateQueueStats,
      set_stats, set_cashierBusyStart;
    steady_with ltac:(apply VisitCounters_steady).
Qed.

Lemma VisitCounters_running (pid customerId : nat) (items : list (nat * CounterData)) :
  forall total,
    triple (running store_waits pid ForNothing)
           (VisitCounters pid customerId items total)
           (fun f' => running store_waits pid (store_waits f')).
Proof.
  induction items as [|[counterId cd] rest IH]; intros total.
  - unfold VisitCounters, CustomerProcess_checkout, CashierProcess,
      add_currentQueueLength, UpdateQueueStats, set_cashierBusyStart.
    triple_with fail.
  - change (VisitCounters pid customerId ((counterId, cd) :: rest) total)
      with (bind random (fun u =>
              if Qltb u (probability cd)
              then bind (request (counters (counterId - 1)) pid)
                        (fun _ => ret (AwaitCounter customerId counterId cd rest total))
              else VisitCounters pid customerId rest total)).
    eapply triple_bind; [apply triple_inert; auto with inert|intros u].
    destruct (Qltb u (probability cd)); [triple_with fail|apply IH].
Qed.

(** Every segment leaves its process waiting for what the frame it
    returns says. *)
Lemma store_resume_running (pid : nat) (f : Frame) (ev : Event) :
  triple (running store_waits pid ForNothing) (resume pid f ev)
         (fun f' => running store_waits pid (store_waits f')).
Proof.
  destruct f; destruct ev; simpl; try apply triple_raise;
    unfold CustomerGenerator_loop, VisitCounters_granted, VisitCounters_chosen,
      CashierProcess_granted, CashierProcess_served, add_basketsInUse,
      UpdateBasketStats, add_currentQueueLength, UpdateQueueStats,
      set_stats, set_cashierBusyStart;
    triple_with ltac:(apply VisitCounters_running).
Qed.

End StoreMoreSegments.

(** ** The store: more of what holds along a run *)

Section StoreMoreRun.
Import Simpy TaskA.

Local Abbreviation World := (Simpy.World Frame Supermarket).

Lemma store_fresh_frame_ok (t : Q) (f : Frame) :
  store_fresh f = true -> customer_frame_ok t f.
Proof. destruct f; simpl; try discriminate; auto. Qed.

Lemma store_more_step (T : Q) (p : Params) (rng : nat -> Q) (w w' : World) :
  store_ok T w -> store_more p rng w -> step w = Continue w' ->
  store_more p rng w'.
Proof.
  intros [C Tb Mo Se Ba Wa] [M Fr Qc Sr Ag] S.
  destruct (clock_ok_step _ _ _ _ _ store_resume_respects T w w' C S) as [C' L].
  pose proof (scheduled_ok_step _ _ _ _ _ store_resume_running w w' Tb Ag S) as Ag'.
  apply step_Continue in S. destruct S as (s & rest & E & S).
  destruct S as [(res & Ev & ->)|[(pid & Ev & ->)|(pid & f & f' & w2 & W & P & R & ->)]].
  - destruct (trigger_put_same _ _ res (popped w s rest)) as (Eo & En & Ep & Ei).
    constructor; auto; rewrite ?Eo, ?Ep, ?Ei, ?stream_trigger_put; auto.
    + eapply supermarket_more_later; [exact L|exact M].
    + intros k f Pk. eapply customer_frame_ok_later; [exact L|]. eapply Fr. exact Pk.
  - constructor; auto.
    + eapply supermarket_more_later; [exact L|exact M].
    + intros k f Pk. eapply customer_frame_ok_later; [exact L|]. eapply Fr. exact Pk.
  - pose proof (store_resume_respects _ _ _ _ _ _ R) as X.
    destruct (resumed_same _ _ returned pid f' w2) as (Eo & En & Ei & _ & Ep).
    rewrite En, (ext_now X) in L.
    assert (Lp : (pid < next_pid w)%nat) by (eapply table_ok_lt; eassumption).
    assert (Mo1 : supermarket_ok (now (popped w s rest)) (obj (popped w s rest)))
      by (eapply supermarket_ok_later; [exact L|exact Mo]).
    assert (M1 : supermarket_more p (now (popped w s rest)) (obj (popped w s rest)))
      by (eapply supermarket_more_later; [exact L|exact M]).
    assert (F1 : customer_frame_ok (now (popped w s rest)) f)
      by (eapply customer_frame_ok_later; [exact L|eapply Fr; exact P]).
    assert (Hb : in_store f = true ->
                 (1 <= basketsInUse (stats (obj (popped w s rest))))%Z).
    { intros I. cbn [obj popped with_heap]. rewrite Ba.
      eapply count_frames_pos; eassumption. }
    assert (Hq : awaits_cashier f = true ->
                 (1 <= currentQueueLength (obj (popped w s rest)))%Z).
    { intros I. cbn [obj popped with_heap]. rewrite Qc.
      eapply count_frames_pos; eassumption. }
    destruct (store_resume_more p _ _ _ _ _ _ Mo1 M1 F1 Hb Hq R) as (M2 & F2 & Q2).
    constructor; auto.
    + rewrite Eo, En, (ext_now X). exact M2.
    + intros k g Pk. rewrite En, (ext_now X). rewrite Ep in Pk.
      destruct (Nat.eqb_spec k pid) as [->|Hne].
      * inversion Pk; subst. exact F2.
      * destruct (Nat.lt_ge_cases k (next_pid (popped w s rest))) as [Lk|Lk].
        -- rewrite (ext_old X) in Pk by exact Lk.
           eapply customer_frame_ok_later; [exact L|]. eapply Fr. exact Pk.
        -- destruct (Nat.lt_ge_cases k (next_pid w2)) as [Lk2|Lk2].
           ++ destruct (ext_new X (conj Lk Lk2)) as (g' & Pg & Fg).
              rewrite Pg in Pk. inversion Pk; subst.
              apply store_fresh_frame_ok. exact Fg.
           ++ rewrite (ext_none X) in Pk by exact Lk2.
              cbn in Pk. rewrite (Tb k) in Pk by exact Lk. discriminate.
    + rewrite Eo, Q2.
      rewrite (count_frames_resumed _ _ returned store_fresh awaits_cashier
                 store_fresh_not_waiting _ _ pid f f' X Tb P).
      cbn [obj popped with_heap]. rewrite Qc. cbn [processes next_pid popped with_heap].
      destruct (awaits_cashier f), (awaits_cashier f'); cbn; lia.
    + assert (Es : random_stream (resumed returned pid f' w2) = random_stream w2)
        by (unfold resumed; destruct (returned f'); reflexivity).
      rewrite Es, (store_resume_steady _ _ _ _ _ _ R). exact Sr.
Qed.

Lemma store_more_start (p : Params) (rng : nat -> Q) :
  store_more p rng (launch (simTime p) (start p rng)).
Proof.
  constructor; cbn.
  - constructor; cbn; auto; try apply log_ok_nil; try constructor. apply Qle_refl.
  - intros k f. destruct (Nat.eqb_spec k 0); [|discriminate].
    intros K; inversion K; subst. exact I.
  - reflexivity.
  - reflexivity.
  - constructor; cbn.
    + intros q. constructor; cbn.
      * intros x [<-|[<-|[]]]; cbn; [discriminate|].
        unfold wakes_b. cbn. intros Eq. apply Nat.eqb_eq in Eq. subst q.
        reflexivity.
      * unfold wakes_b. cbn. destruct (0 =? q)%nat; cbn; lia.
      * intros r [].
    + intros r. constructor.
    + intros r. split; [reflexivity|lia].
Qed.

Lemma store_more_reachable (p : Params) (rng : nat -> Q) (w : World) :
  0 < simTime p ->
  reachable resume returned (launch (simTime p) (start p rng)) w ->
  store_ok (simTime p) w /\ store_more p rng w.
Proof.
  intros H R. induction R.
  - split; [apply store_ok_start; exact H|apply store_more_start].
  - destruct IHR as [O M]. split.
    + eapply store_ok_step; eassumption.
    + eapply store_more_step; eassumption.
Qed.

End StoreMoreRun.

(** ** The store: no segment raises *)

Section StoreSafety.
Import Simpy TaskA.

Local Abbreviation World := (Simpy.World Frame Supermarket).

#[local] Arguments VisitCounters : simpl never.

(** Refutes the test that made a segment raise. *)
Ltac refute :=
  match goal with
  | E : (_ <? _)%Z = true |- _ => apply Z.ltb_lt in E; cbn in *; lia
  | E : (Qleb float_limit _ || _)%bool = true |- _ =>
      rewrite divide_in_range in E by assumption; discriminate E
  | E : ?t = true |- _ =>
      assert (t = false)
        by (first [ apply Qeq_bool_pos; first [assumption | apply Qinv_pos; assumption]
                  | apply Qltb_nonneg;
                    first [ apply exponential_delay; auto
                          | apply uniform_delay; auto
                          | apply Qmult_le_0_compat; auto ] ]);
      congruence
  end.

(** [VisitCounters] and the way to the cashier do not raise. *)
Lemma VisitCounters_total (pid customerId : nat) (items : list (nat * CounterData)) :
  forall (total : Z) (w : World),
  exists f' w', VisitCounters pid customerId items total w = Ok f' w'.
Proof.
  induction items as [|[counterId cd] rest IH]; intros total w.
  - destruct (VisitCounters pid customerId [] total w) as [f' w'|e] eqn:H; [eauto|].
    exfalso.
    change (VisitCounters pid customerId [] total)
      with (CustomerProcess_checkout pid customerId total) in H.
    unfold CustomerProcess_checkout, CashierProcess in H. sim_run H. refute.
  - change (VisitCounters pid customerId ((counterId, cd) :: rest) total)
      with (bind random (fun u =>
              if Qltb u (probability cd)
              then bind (request (counters (counterId - 1)) pid)
                        (fun _ => ret (AwaitCounter customerId counterId cd rest total))
              else VisitCounters pid customerId rest total)).
    cbn. destruct (Qltb _ _); [cbn; eauto|apply IH].
Qed.

(** A process resumed by an event it waits for runs to its next [yield]
    or to its end. *)
Lemma store_resume_total (p : Params) (rng : nat -> Q) (pid : nat) (f : Frame)
      (ev : Event) (w : World) :
  store_input_ok p rng -> params (obj w) = p -> random_stream w = rng ->
  customer_frame_ok (now w) f -> accepts (store_waits f) ev = true ->
  exists f' w', resume pid f ev w = Ok f' w'.
Proof.
  intros ((_ & Hf & _) & Hs & Hm & Hp & Hr) <- <- F0 Acc.
  unfold in_float_range in Hf.
  pose proof (Hr (random_pos w)) as Hr0.
  destruct (resume pid f ev w) as [f' w'|e] eqn:H; [eauto|]. exfalso.
  destruct f; destruct ev; try discriminate Acc;
    cbn [resume CustomerGenerator CustomerProcess] in H.
  - unfold CustomerGenerator_loop in H. sim_run H; refute.
  - unfold CustomerGenerator_loop in H. sim_run H; refute.
  - cbn in H.
    match type of H with
    | VisitCounters ?a ?b ?c ?d ?w1 = _ =>
        destruct (VisitCounters_total a b c d w1) as (f' & w' & K)
    end.
    rewrite K in H. discriminate.
  - destruct F0 as (F & _). inversion F as [|? ? [C1 C2] _]; subst. cbn in C1.
    unfold VisitCounters_granted in H. destruct (time counterData) as [bt v].
    cbn in C1. unfold uniform in H.
    assert (0 <= Qmax 0 (bt - v)) by apply Q.le_max_l.
    sim_run H; refute.
  - destruct F0 as (F & _). inversion F as [|? ? [C1 C2] _]; subst. cbn in C2.
    unfold VisitCounters_chosen in H. destruct (purchases counterData) as [bp pv].
    cbn in C2. unfold randint, bind in H.
    destruct (_ <? _)%Z eqn:Lt; [apply Z.ltb_lt in Lt; lia|].
    cbn in H.
    match type of H with
    | VisitCounters ?a ?b ?c ?d ?w1 = _ =>
        destruct (VisitCounters_total a b c d w1) as (f' & w' & K)
    end.
    rewrite K in H. discriminate.
  - destruct F0 as [F1 F2].
    assert (0 <= inject_Z total) by (apply inject_Z_nonneg; lia).
    unfold CashierProcess_granted in H. sim_run H; refute.
  - unfold CashierProcess_served in H. sim_run H.
Qed.

(** A process resumed by an event it waits for raises nothing but the
    errors of [random] and [timeout] and of the division by 0, when the
    mean interval converts to a float. *)
Lemma store_resume_raises (pid : nat) (f : Frame) (ev : Event) (w : World)
      (e : Simpy.Exception) :
  in_float_range (meanInterval (params (obj w))) ->
  accepts (store_waits f) ev = true -> resume pid f ev w = Raised e ->
  e = ValueError \/ e = ZeroDivisionError.
Proof.
  intros Hf Acc H. unfold in_float_range in Hf.
  destruct f; destruct ev; try discriminate Acc;
    cbn [resume CustomerGenerator CustomerProcess] in H.
  - unfold CustomerGenerator_loop in H.
    sim_run H; try (inversion H; auto; fail); refute.
  - unfold CustomerGenerator_loop in H.
    sim_run H; try (inversion H; auto; fail); refute.
  - cbn in H.
    match type of H with
    | VisitCounters ?a ?b ?c ?d ?w1 = _ =>
        destruct (VisitCounters_total a b c d w1) as (f' & w' & K)
    end.
    rewrite K in H. discriminate.
  - unfold VisitCounters_granted in H. destruct (time counterData) as [bt v].
    unfold uniform in H. sim_run H; inversion H; auto.
  - unfold VisitCounters_chosen in H. destruct (purchases counterData) as [bp pv].
    unfold randint, bind in H.
    destruct (_ <? _)%Z eqn:Lt; [inversion H; auto|].
    cbn in H.
    match type of H with
    | VisitCounters ?a ?b ?c ?d ?w1 = _ =>
        destruct (VisitCounters_total a b c d w1) as (f' & w' & K)
    end.
    rewrite K in H. discriminate.
  - unfold CashierProcess_granted in H. sim_run H; inversion H; auto.
  - unfold CashierProcess_served in H. sim_run H.
Qed.

(** With a positive horizon and mean interval, and a time per item and
    random numbers that are not negative, every step of a run of the
    store goes on or stops the run. *)
Lemma store_step_total (p : Params) (rng : nat -> Q) (w : World) :
  store_input_ok p rng -> store_ok (simTime p) w -> store_more p rng w ->
  (exists w', step w = Continue w' /\ store_ok (simTime p) w' /\ store_more p rng w') \/
  (exists w', step w = StopSimulation w').
Proof.
  intros In O M.
  destruct (step_total _ _ resume returned (simTime p) w (st_clock O)) as [(w' & S)|S].
  - intros s rest pid E W.
    destruct (popped_accepts _ _ _ _ _ _ _ (sm_agenda M) E W) as (f & P & Acc).
    assert (L : now w <= at_time s).
    { destruct (st_clock O) as [_ Hh _]. rewrite Forall_forall in Hh. apply Hh.
      apply (heappop_In _ _ _ E). auto. }
    destruct (store_resume_total p rng pid f (event s) (popped w s rest) In)
      as (f' & w2 & K); auto.
    + apply (more_params (sm_model M)).
    + apply (sm_stream M).
    + eapply customer_frame_ok_later; [exact L|]. apply (sm_frames M pid P).
    + exists f, f', w2. auto.
  - left. exists w'. split; [exact S|]. split.
    + eapply store_ok_step; eassumption.
    + eapply store_more_step; eassumption.
  - right. exact S.
Qed.

End StoreSafety.

(** ** The library: more of what each segment does *)

Section LibraryMoreSegments.
Import Simpy TaskB.

Local Abbreviation World := (Simpy.World Frame Library).

Lemma statistic_more_later (p : Params) (t t' : Q) (m : Library) :
  t <= t' -> statistic_more p t m -> statistic_more p t' m.
Proof.
  intros L [Pa Bl Bu Qu Wa Se Bo]. constructor; auto.
  eapply log_ok_later; eassumption.
Qed.

Lemma reader_frame_ok_later (p : Params) (t t' : Q) (f : Frame) :
  t <= t' -> reader_frame_ok p t f -> reader_frame_ok p t' f.
Proof.
  intros L. destruct f; simpl; auto; intros (H1 & H2 & H3); repeat split; auto; lra.
Qed.

(** The librarian chosen is one of the two. *)
Lemma choose_librarian_lt (a b : nat) (x y : Q) : (choose_librarian a b x y < 2)%nat.
Proof.
  unfold choose_librarian.
  destruct (a <? b)%nat; [lia|]. destruct (b <? a)%nat; [lia|].
  destruct (Qltb x y); lia.
Qed.

Lemma length_list_add (l : list Q) :
  forall i x, List.length (list_add i x l) = List.length l.
Proof.
  induction l as [|y l IH]; intros i x; [destruct i; reflexivity|].
  destruct i as [|i]; simpl; [reflexivity|]. rewrite IH. reflexivity.
Qed.

Lemma Forall_list_add (l : list Q) :
  forall i x, 0 <= x -> Forall (fun y => 0 <= y) l ->
              Forall (fun y => 0 <= y) (list_add i x l).
Proof.
  induction l as [|y l IH]; intros i x Hx F; [destruct i; constructor|].
  inversion F; subst. destruct i as [|i]; simpl; constructor; auto. lra.
Qed.

Ltac lmore_fin :=
  cbn; intros;
  repeat match goal with
         | H : _ /\ _ |- _ => destruct H
         | H : ?x = _ |- context [match ?x with _ => _ end] => rewrite H; cbn
         end;
  repeat match goal with
         | |- context [(?a + ?k mod (?b - ?a + 1))%Z] =>
             lazymatch goal with
             | _ : (a <= a + k mod (b - a + 1) <= b)%Z |- _ => fail
             | E : (b <? a)%Z = false |- _ => pose proof (randint_bounds a b k E)
             end
         end;
  repeat match goal with
         | H : log_ok _ ?v _ |- _ =>
             lazymatch goal with
             | _ : (0 <= v)%Z |- _ => fail
             | _ => pose proof (log_ok_value _ _ _ H)
             end
         end;
  first
    [ assumption
    | reflexivity
    | eapply log_ok_app; [eassumption|lia]
    | apply choose_librarian_lt
    | rewrite length_list_add; assumption
    | apply Forall_list_add; [lra|assumption]
    | lia
    | lra
    | apply Forall_app; split; [assumption|];
      constructor; [|constructor]; cbn; first [lra | lia]
    | congruence
    | repeat split;
      first [lia | lra | reflexivity | assumption | congruence
            | apply choose_librarian_lt] ].

Lemma poisson_round_yields (p : Params) (t : Q) (pid readerId : nat) (ev : Event) :
  ArrivalLaw p = LAW_POISSON ->
  yields (fun f' => reader_frame_ok p t f')
         (ReaderGenerator pid (PoissonSleep readerId) ev).
Proof.
  intros L. destruct ev; simpl; try apply yields_raise. unfold poisson_loop.
  repeat (apply yields_bind; intros). apply yields_ret. exact L.
Qed.

(** What resuming a process does to the statistic and to the local
    variables of the process. *)
Lemma library_resume_more (p : Params) (pid : nat) (f : Frame) (ev : Event)
      (w : World) (f' : Frame) (w' : World) :
  statistic_more p (now w) (obj w) ->
  reader_frame_ok p (now w) f ->
  (awaits_librarian f = true -> (1 <= currentQueueLen (obj w))%Z) ->
  resume pid f ev w = Ok f' w' ->
  statistic_more p (now w) (obj w') /\ reader_frame_ok p (now w) f' /\
  currentQueueLen (obj w') =
    (currentQueueLen (obj w) + Z.b2z (awaits_librarian f')
     - Z.b2z (awaits_librarian f))%Z.
Proof.
  intros M0 F0 Hq H.
  assert (G : generator_frame f = true -> reader_frame_ok p (now w) f' ->
              statistic_more p (now w) (obj w') /\ reader_frame_ok p (now w) f' /\
              currentQueueLen (obj w') =
                (currentQueueLen (obj w) + Z.b2z (awaits_librarian f')
                 - Z.b2z (awaits_librarian f))%Z).
  { intros Gf F1.
    assert (H' : ReaderGenerator pid f ev w = Ok f' w')
      by (destruct f; try discriminate Gf; exact H).
    pose proof (ReaderGenerator_keeps _ _ _ _ _ _ H') as K.
    pose proof (ReaderGenerator_yields _ _ _ _ _ _ H') as Y. cbn in Y.
    rewrite (calm_obj K).
    assert (awaits_librarian f = false) as ->
      by (destruct f; try discriminate Gf; reflexivity).
    assert (awaits_librarian f' = false) as ->
      by (destruct f'; try discriminate Y; reflexivity).
    split; [exact M0|]. split; [exact F1|]. cbn. lia. }
  pose proof (lmore_params M0) as Pa.
  destruct f; destruct ev; try discriminate H; cbn [resume ReaderProcess] in H.
  - (* ReaderGenerator starts *)
    apply G; [reflexivity|]. cbn [ReaderGenerator] in H.
    unfold uniform_loop, exponential_loop, normal_loop, poisson_loop, uniform, gauss in H.
    sim_run H. all: inversion H; subst; clear H; cbn; auto.
    all: try (split; [congruence|]).
    all: match goal with
         | E : String.eqb _ _ = true |- _ => apply String.eqb_eq in E; exact E
         end.
  - apply G; [reflexivity|]. cbn [ReaderGenerator] in H.
    unfold uniform_loop, uniform in H. sim_run H. inversion H; subst; clear H. exact F0.
  - apply G; [reflexivity|]. cbn [ReaderGenerator] in H.
    unfold exponential_loop in H. sim_run H. inversion H; subst; clear H. exact F0.
  - apply G; [reflexivity|]. cbn [ReaderGenerator] in H.
    unfold normal_loop, gauss in H. sim_run H. inversion H; subst; clear H. exact I.
  - apply G; [reflexivity|]. eapply poisson_round_yields; [exact F0|exact H].
  - (* the reader asks for a librarian *)
    clear G. destruct M0 as [_ Bl Bu Qu Wa Se Bo].
    unfold ReaderProcess_start, request in H. sim_run H.
    inversion H; subst; clear H. rewrite ?obj_trigger_put. cbn.
    match goal with
    | |- context [trigger_put ?i ?wa] =>
        destruct (trigger_put_same _ _ i wa) as (Eo & En & _ & _)
    end.
    rewrite ?Eo, ?En. cbn.
    (split; [constructor|split]); lmore_fin.
  - (* the librarian was granted *)
    clear G. specialize (Hq eq_refl). destruct F0 as (F1 & F2 & F3).
    destruct M0 as [_ Bl Bu Qu Wa Se Bo].
    unfold ReaderProcess_granted, uniform in H. sim_run H.
    inversion H; subst; clear H. cbn.
    (split; [constructor|split]); lmore_fin.
  - (* the service is over *)
    clear G. destruct F0 as (F1 & F2 & F3).
    destruct M0 as [_ Bl Bu Qu Wa Se Bo].
    unfold ReaderProcess_served, release in H. sim_run H.
    inversion H; subst; clear H. cbn.
    (split; [constructor|split]); lmore_fin.
Qed.

Lemma spawn_readers_steady (readerN : nat) :
  forall readerId, steady (spawn_readers readerN readerId).
Proof.
  induction readerN as [|n IH]; intros readerId; simpl.
  - apply steady_ret.
  - apply steady_bind; [apply steady_process|intros; apply IH].
Qed.

Lemma library_resume_steady (pid : nat) (f : Frame) (ev : Event) :
  steady (resume pid f ev).
Proof.
  destruct f; destruct ev; simpl; try apply steady_raise;
    unfold uniform_loop, exponential_loop, normal_loop, poisson_loop,
      ReaderProcess_start, ReaderProcess_granted, ReaderProcess_served,
      add_currentQueueLen, UpdateQueueStats, set_statistic;
    steady_with ltac:(apply spawn_readers_steady).
Qed.

Lemma spawn_readers_running (pid : nat) (st : Wait) (readerN : nat) :
  forall readerId,
    triple (running library_waits pid st) (spawn_readers readerN readerId)
           (fun _ => running library_waits pid st).
Proof.
  induction readerN as [|n IH]; intros readerId; simpl.
  - apply triple_ret. auto.
  - eapply triple_bind; [apply triple_process; reflexivity|intros; apply IH].
Qed.

(** Every segment leaves its process waiting for what the frame it
    returns says. *)
Lemma library_resume_running (pid : nat) (f : Frame) (ev : Event) :
  triple (running library_waits pid ForNothing) (resume pid f ev)
         (fun f' => running library_waits pid (library_waits f')).
Proof.
  destruct f; destruct ev; simpl; try apply triple_raise;
    unfold uniform_loop, exponential_loop, normal_loop, poisson_loop,
      ReaderProcess_start, ReaderProcess_granted, ReaderProcess_served,
      add_currentQueueLen, UpdateQueueStats, set_statistic;
    triple_with ltac:(apply spawn_readers_running).
Qed.

End LibraryMoreSegments.

(** ** The library: more of what holds along a run *)

Section LibraryMoreRun.
Import Simpy TaskB.

Local Abbreviation World := (Simpy.World Frame Library).

Lemma library_fresh_frame_ok (p : Params) (t : Q) (f : Frame) :
  library_fresh f = true -> reader_frame_ok p t f.
Proof. destruct f; simpl; try discriminate; auto. Qed.

Lemma library_more_step (T : Q) (p : Params) (rng : nat -> Q) (w w' : World) :
  library_ok T w -> library_more p rng w -> step w = Continue w' ->
  library_more p rng w'.
Proof.
  intros [C Tb Mo Se Wa De] [M Fr Qc Sr Ag] S.
  destruct (clock_ok_step _ _ _ _ _ library_resume_respects T w w' C S) as [C' L].
  pose proof (scheduled_ok_step _ _ _ _ _ library_resume_running w w' Tb Ag S) as Ag'.
  apply step_Continue in S. destruct S as (s & rest & E & S).
  destruct S as [(res & Ev & ->)|[(pid & Ev & ->)|(pid & f & f' & w2 & W & P & R & ->)]].
  - destruct (trigger_put_same _ _ res (popped w s rest)) as (Eo & En & Ep & Ei).
    constructor; auto; rewrite ?Eo, ?Ep, ?Ei, ?stream_trigger_put; auto.
    + eapply statistic_more_later; [exact L|exact M].
    + intros k f Pk. eapply reader_frame_ok_later; [exact L|]. eapply Fr. exact Pk.
  - constructor; auto.
    + eapply statistic_more_later; [exact L|exact M].
    + intros k f Pk. eapply reader_frame_ok_later; [exact L|]. eapply Fr. exact Pk.
  - pose proof (library_resume_respects _ _ _ _ _ _ R) as X.
    destruct (resumed_same _ _ returned pid f' w2) as (Eo & En & Ei & _ & Ep).
    rewrite En, (ext_now X) in L.
    assert (Lp : (pid < next_pid w)%nat) by (eapply table_ok_lt; eassumption).
    assert (M1 : statistic_more p (now (popped w s rest)) (obj (popped w s rest)))
      by (eapply statistic_more_later; [exact L|exact M]).
    assert (F1 : reader_frame_ok p (now (popped w s rest)) f)
      by (eapply reader_frame_ok_later; [exact L|eapply Fr; exact P]).
    assert (Hq : awaits_librarian f = true ->
                 (1 <= currentQueueLen (obj (popped w s rest)))%Z).
    { intros I. cbn [obj popped with_heap]. rewrite Qc.
      eapply count_frames_pos; eassumption. }
    destruct (library_resume_more p _ _ _ _ _ _ M1 F1 Hq R) as (M2 & F2 & Q2).
    constructor; auto.
    + rewrite Eo, En, (ext_now X). exact M2.
    + intros k g Pk. rewrite En, (ext_now X). rewrite Ep in Pk.
      destruct (Nat.eqb_spec k pid) as [->|Hne].
      * inversion Pk; subst. exact F2.
      * destruct (Nat.lt_ge_cases k (next_pid (popped w s rest))) as [Lk|Lk].
        -- rewrite (ext_old X) in Pk by exact Lk.
           eapply reader_frame_ok_later; [exact L|]. eapply Fr. exact Pk.
        -- destruct (Nat.lt_ge_cases k (next_pid w2)) as [Lk2|Lk2].
           ++ destruct (ext_new X (conj Lk Lk2)) as (g' & Pg & Fg).
              rewrite Pg in Pk. inversion Pk; subst.
              apply library_fresh_frame_ok. exact Fg.
           ++ rewrite (ext_none X) in Pk by exact Lk2.
              cbn in Pk. rewrite (Tb k) in Pk by exact Lk. discriminate.
    + rewrite Eo, Q2.
      rewrite (count_frames_resumed _ _ returned library_fresh awaits_librarian
                 library_fresh_not_waiting _ _ pid f f' X Tb P).
      cbn [obj popped with_heap]. rewrite Qc. cbn [processes next_pid popped with_heap].
      destruct (awaits_librarian f), (awaits_librarian f'); cbn; lia.
    + assert (Es : random_stream (resumed returned pid f' w2) = random_stream w2)
        by (unfold resumed; destruct (returned f'); reflexivity).
      rewrite Es, (library_resume_steady _ _ _ _ _ _ R). exact Sr.
Qed.

Lemma library_more_start (p : Params) (rng : nat -> Q) :
  library_more p rng (launch (SimTime p) (start p rng)).
Proof.
  constructor; cbn.
  - constructor; cbn; auto; try apply log_ok_nil; try constructor.
    + apply Qle_refl.
    + constructor; [apply Qle_refl|constructor].
  - intros k f. destruct (Nat.eqb_spec k 0); [|discriminate].
    intros K; inversion K; subst. exact I.
  - reflexivity.
  - reflexivity.
  - constructor; cbn.
    + intros q. constructor; cbn.
      * intros x [<-|[<-|[]]]; cbn; [discriminate|].
        unfold wakes_b. cbn. intros Eq. apply Nat.eqb_eq in Eq. subst q.
        reflexivity.
      * unfold wakes_b. cbn. destruct (0 =? q)%nat; cbn; lia.
      * intros r [].
    + intros r. constructor.
    + intros r. split; [reflexivity|lia].
Qed.

Lemma library_more_reachable (p : Params) (rng : nat -> Q) (w : World) :
  0 < SimTime p ->
  reachable resume returned (launch (SimTime p) (start p rng)) w ->
  library_ok (SimTime p) w /\ library_more p rng w.
Proof.
  intros H R. induction R.
  - split; [apply library_ok_start; exact H|apply library_more_start].
  - destruct IHR as [O M]. split.
    + eapply library_ok_step; eassumption.
    + eapply library_more_step; eassumption.
Qed.

End LibraryMoreRun.

(** ** The library: no segment raises *)

Section LibrarySafety.
Import Simpy TaskB.

Local Abbreviation World := (Simpy.World Frame Library).

Ltac lrefute :=
  match goal with
  | E : (_ <? _)%Z = true |- _ => apply Z.ltb_lt in E; cbn in *; lia
  | E : (Qleb float_limit _ || _)%bool = true |- _ =>
      rewrite divide_in_range in E by assumption; discriminate E
  | E : (_ <? _)%nat = false |- _ => apply Nat.ltb_ge in E; cbn in *; lia
  | E : ?t = true |- _ =>
      assert (t = false)
        by (first [ apply Qeq_bool_pos; first [assumption | apply Qinv_pos; assumption]
                  | apply Qltb_nonneg;
                    first [ apply exponential_delay; auto
                          | apply uniform_delay; first [assumption | lra]
                          | lra ] ]);
      congruence
  end.

Lemma spawn_readers_total (readerN : nat) :
  forall (readerId : nat) (w : World),
  exists r w', spawn_readers readerN readerId w = Ok r w'.
Proof.
  induction readerN as [|n IH]; intros readerId w; simpl; [unfold ret; eauto|].
  unfold bind, process. apply IH.
Qed.


(** A process resumed by an event it waits for raises nothing but the
    errors of [random], [timeout] and [poisson] and of the division by 0,
    when the mean interval converts to a float; the index of the
    librarian is in range. *)
Lemma library_resume_raises (p : Params) (pid : nat) (f : Frame) (ev : Event)
      (w : World) (e : Simpy.Exception) :
  in_float_range (fst (ArrivalTime p)) ->
  statistic_more p (now w) (obj w) -> reader_frame_ok p (now w) f ->
  accepts (library_waits f) ev = true -> resume pid f ev w = Raised e ->
  e = ValueError \/ e = ZeroDivisionError.
Proof.
  intros Hf [Pa Bl _ _ _ _ _] F0 Acc H. unfold in_float_range in Hf. subst p.
  destruct f; destruct ev; try discriminate Acc;
    cbn [resume ReaderProcess ReaderGenerator] in H.
  - unfold uniform_loop, exponential_loop, normal_loop, poisson_loop, uniform, gauss in H.
    sim_run H; try (inversion H; auto; fail); lrefute.
  - unfold uniform_loop, uniform in H. sim_run H; inversion H; auto.
  - unfold exponential_loop in H. sim_run H; try (inversion H; auto; fail); lrefute.
  - unfold normal_loop, gauss in H. sim_run H; inversion H; auto.
  - unfold poisson_loop, poisson, bind in H. cbn in H.
    destruct (Qltb _ 0); [inversion H; auto|].
    destruct (Qltb POISSON_LAM_MAX _); [inversion H; auto|]. cbn in H.
    match type of H with
    | context [spawn_readers ?n ?r ?w1] =>
        destruct (spawn_readers_total n r w1) as (r' & w' & K)
    end.
    rewrite K in H. unfold timeout in H. destruct (Qltb 3600 0); [|discriminate].
    inversion H; auto.
  - unfold ReaderProcess_start in H. sim_run H.
  - unfold ReaderProcess_granted, uniform in H. sim_run H; inversion H; auto.
  - destruct F0 as (F1 & F2 & F3).
    unfold ReaderProcess_served in H. sim_run H; try (inversion H; auto; fail).
    lrefute.
Qed.


End LibrarySafety.

(** ** Sampling a log for its chart *)

Section Sampling.

Lemma succ_mod (i n : nat) :
  (0 < n)%nat ->
  (S i mod n = if (S (i mod n) =? n)%nat then 0 else S (i mod n))%nat.
Proof.
  intros Hn. pose proof (Nat.div_mod_eq i n) as E.
  pose proof (Nat.mod_upper_bound i n ltac:(lia)) as U.
  destruct (Nat.eqb_spec (S (i mod n)) n) as [K|K]; symmetry.
  - apply (Nat.mod_unique (S i) n (S (i / n)) 0); lia.
  - apply (Nat.mod_unique (S i) n (i / n) (S (i mod n))); lia.
Qed.

Variables A B : Type.
Variable f : A -> B.

Lemma every_nth_length {C : Type} (g : A -> C) (step : nat) (l : list A) :
  forall i, List.length (every_nth f step i l) = List.length (every_nth g step i l).
Proof.
  induction l as [|x l IH]; intros i; simpl; [reflexivity|].
  destruct (i mod step =? 0)%nat; simpl; rewrite IH; reflexivity.
Qed.

(** With step 1 every entry is kept. *)
Lemma every_nth_all (l : list A) : forall i, every_nth f 1 i l = map f l.
Proof.
  induction l as [|x l IH]; intros i; cbn [every_nth map]; [reflexivity|].
  rewrite Nat.mod_1_r, Nat.eqb_refl, IH. reflexivity.
Qed.

(** The first entry is kept. *)
Lemma every_nth_first (step : nat) (x : A) (l : list A) :
  every_nth f step 0 (x :: l) = f x :: every_nth f step 1 l.
Proof.
  cbn [every_nth]. rewrite Nat.Div0.mod_0_l, Nat.eqb_refl. reflexivity.
Qed.

Lemma every_nth_Forall (P : B -> Prop) (step : nat) (l : list A) :
  forall i, Forall P (map f l) -> Forall P (every_nth f step i l).
Proof.
  induction l as [|x l IH]; intros i F; simpl; [constructor|].
  inversion F; subst. destruct (i mod step =? 0)%nat; [constructor|]; auto.
Qed.

Lemma every_nth_sorted (R : B -> B -> Prop) (step : nat) (l : list A) :
  forall i, StronglySorted R (map f l) -> StronglySorted R (every_nth f step i l).
Proof.
  induction l as [|x l IH]; intros i S; simpl; [constructor|].
  inversion S; subst. destruct (i mod step =? 0)%nat; [|auto].
  constructor; [auto|]. apply every_nth_Forall. assumption.
Qed.

(** Of [n] entries, about [n / step] are kept. *)
Lemma every_nth_bound (step : nat) (l : list A) :
  (0 < step)%nat ->
  forall i,
    (step * List.length (every_nth f step i l)
     + (if (i mod step =? 0)%nat then 0 else step - i mod step)
     <= List.length l + step - 1)%nat.
Proof.
  intros Hs. induction l as [|x l IH]; intros i.
  - simpl. destruct (Nat.eqb_spec (i mod step) 0); lia.
  - specialize (IH (S i)). rewrite (succ_mod i step Hs) in IH.
    pose proof (Nat.mod_upper_bound i step ltac:(lia)) as U.
    cbn [every_nth List.length].
    destruct (Nat.eqb_spec (i mod step) 0) as [E|E];
      destruct (Nat.eqb_spec (S (i mod step)) step) as [K|K];
      cbn [List.length]; rewrite ?Nat.mul_succ_r;
      repeat match type of IH with
             | context [(?a =? ?b)%nat] => destruct (Nat.eqb_spec a b)
             end;
      lia.
Qed.

End Sampling.

Section DrawLog.

Lemma draw_log_cases (log : list (Q * Z)) :
  (List.length log <= 10)%nat /\ draw_log log = inr None \/
  (10 < List.length log)%nat /\
  exists step, (0 < step)%nat /\
    (step = List.length log / Nat.min 1000 (List.length log))%nat /\
    draw_log log = inr (Some (mkFigure (every_nth fst step 0 log)
                                       (every_nth snd step 0 log))).
Proof.
  unfold draw_log. destruct log as [|e log]; [left; simpl; split; [lia|reflexivity]|].
  set (l := e :: log).
  destruct (Nat.ltb_spec 10 (List.length l)) as [L|L]; [right|left; split; [lia|reflexivity]].
  split; [exact L|]. cbv zeta.
  assert (M : (0 < Nat.min 1000 (List.length l))%nat) by lia.
  destruct (Nat.eqb_spec (Nat.min 1000 (List.length l)) 0) as [K|_]; [lia|].
  assert (D : (0 < List.length l / Nat.min 1000 (List.length l))%nat).
  { apply Nat.div_str_pos. lia. }
  destruct (Nat.eqb_spec (List.length l / Nat.min 1000 (List.length l)) 0) as [K|_]; [lia|].
  exists (List.length l / Nat.min 1000 (List.length l))%nat.
  split; [exact D|]. split; [reflexivity|].
  unfold CreateTimeSeriesChart. subst l. rewrite (every_nth_first _ _ fst).
  reflexivity.
Qed.

Lemma sample_step_one (n : nat) :
  (0 < n < 2000)%nat -> (n / Nat.min 1000 n = 1)%nat.
Proof.
  intros H. destruct (Nat.le_gt_cases n 1000) as [L|L].
  - rewrite Nat.min_r by exact L. apply Nat.div_same. lia.
  - rewrite Nat.min_l by lia. symmetry.
    apply (Nat.div_unique n 1000 1 (n - 1000)); lia.
Qed.

Lemma sample_size_bound (n c : nat) :
  (0 < n)%nat ->
  (n / Nat.min 1000 n * c <= n + n / Nat.min 1000 n - 1)%nat -> (c <= 1999)%nat.
Proof.
  intros Hn H. destruct (Nat.le_gt_cases n 1000) as [L|L].
  - rewrite Nat.min_r in H by exact L. rewrite Nat.div_same in H by lia. lia.
  - rewrite Nat.min_l in H by lia.
    pose proof (Nat.div_mod_eq n 1000) as E.
    pose proof (Nat.mod_upper_bound n 1000 ltac:(lia)) as U.
    assert (1 <= n / 1000)%nat by (apply Nat.div_le_lower_bound; lia).
    nia.
Qed.

End DrawLog.

(** ** Runs that return, and the invariants of their last world *)

Section ExtraReturns.
Import Simpy.

Lemma store_run_more (fuel : nat) (p : TaskA.Params) (rng : nat -> Q)
      (w : World TaskA.Frame TaskA.Supermarket) :
  run TaskA.resume TaskA.returned (TaskA.simTime p) fuel (TaskA.start p rng)
    = Returned w ->
  0 < TaskA.simTime p /\
  exists w1, store_ok (TaskA.simTime p) w1 /\ store_more p rng w1 /\
    obj w = obj w1 /\ processes w = processes w1 /\ next_pid w = next_pid w1 /\
    now w == TaskA.simTime p.
Proof.
  intros E. apply run_Returned in E. destruct E as (Pos & w1 & R & St).
  split; [exact Pos|].
  destruct (store_more_reachable p rng w1 Pos R) as [O M].
  destruct (clock_ok_stop _ _ _ _ _ _ _ (st_clock O) St) as (N & L & Ep & Ei & Eo).
  exists w1. auto 10.
Qed.

Lemma library_run_more (fuel : nat) (p : TaskB.Params) (rng : nat -> Q)
      (w : World TaskB.Frame TaskB.Library) :
  run TaskB.resume TaskB.returned (TaskB.SimTime p) fuel (TaskB.start p rng)
    = Returned w ->
  0 < TaskB.SimTime p /\
  exists w1, library_ok (TaskB.SimTime p) w1 /\ library_more p rng w1 /\
    obj w = obj w1 /\ processes w = processes w1 /\ next_pid w = next_pid w1 /\
    now w == TaskB.SimTime p.
Proof.
  intros E. apply run_Returned in E. destruct E as (Pos & w1 & R & St).
  split; [exact Pos|].
  destruct (library_more_reachable p rng w1 Pos R) as [O M].
  destruct (clock_ok_stop _ _ _ _ _ _ _ (lib_clock O) St) as (N & L & Ep & Ei & Eo).
  exists w1. auto 10.
Qed.

(** The statistics of the store that [RunSim] returns: those of the world
    in which the run stopped, but for the busy time. *)
Lemma store_Return_more (fuel : nat) (p : TaskA.Params) (rng : nat -> Q)
      (s : TaskA.Stats) :
  TaskA.RunSim fuel p rng = TaskA.Return s ->
  0 < TaskA.simTime p /\
  exists w1, store_ok (TaskA.simTime p) w1 /\ store_more p rng w1 /\
             s = TaskA.finish p (obj w1).
Proof.
  intros H. destruct (store_RunSim_Return _ _ _ _ H) as (w & E & ->).
  destruct (store_run_more _ _ _ _ E) as (Pos & w1 & O & M & Eo & _).
  split; [exact Pos|]. exists w1. rewrite Eo. auto.
Qed.

Lemma library_Return_more (fuel : nat) (p : TaskB.Params) (rng : nat -> Q)
      (s : TaskB.Statistic) :
  TaskB.RunSim fuel p rng = TaskB.Return s ->
  0 < TaskB.SimTime p /\
  exists w1, library_ok (TaskB.SimTime p) w1 /\ library_more p rng w1 /\
             s = TaskB.statistic (obj w1).
Proof.
  intros H. destruct (library_RunSim_Return _ _ _ _ H) as (w & E & ->).
  destruct (library_run_more _ _ _ _ E) as (Pos & w1 & O & M & Eo & _).
  split; [exact Pos|]. exists w1. rewrite Eo. auto.
Qed.

Lemma passes_by_nonneg : Forall (fun x => 0 <= x) passes_by.
Proof. repeat constructor; vm_compute; discriminate. Qed.

Lemma burst_stream_nonneg (n : nat) : 0 <= burst_stream n.
Proof.
  apply stream_of_nonneg; [|vm_compute; discriminate].
  repeat (apply Forall_cons; [vm_compute; discriminate|]). constructor.
Qed.


Lemma float_limit_large : 1000000000 < float_limit.
Proof. vm_compute. reflexivity. Qed.

Lemma in_float_range_bounded (x : Q) :
  - (1000000000) <= x <= 1000000000 -> in_float_range x.
Proof.
  intros [H1 H2]. pose proof float_limit_large. unfold in_float_range. lra.
Qed.

Lemma inject_Z_bounded (z : Z) :
  (0 <= z <= 100000)%Z -> 0 <= inject_Z z <= 100000.
Proof.
  intros [H1 H2]. split.
  - change 0 with (inject_Z 0). rewrite <- Zle_Qle. exact H1.
  - change 100000 with (inject_Z 100000). rewrite <- Zle_Qle. exact H2.
Qed.

Lemma pair_in_float_range_bounded (b v : Q) :
  0 <= b <= 100000 -> 0 <= v <= 100000 -> pair_in_float_range (b, v).
Proof.
  intros Hb Hv. unfold pair_in_float_range. cbn [fst snd].
  pose proof (Q.le_max_l 1 (b - v)) as M1.
  assert (M2 : Qmax 1 (b - v) <= 100000) by (apply Q.max_lub; lra).
  repeat split; apply in_float_range_bounded; lra.
Qed.

Lemma store_params_numbers_ok : store_numbers_ok store_params.
Proof.
  unfold store_numbers_ok, in_float_range. cbn. repeat split; vm_compute; reflexivity.
Qed.


End ExtraReturns.

(** ** Runs that do not raise *)

Section NeverRaises.
Import Simpy.

(** The event loop of the store, entered with [store_input_ok], does
    not fail. *)
Lemma store_run_safe (p : TaskA.Params) (rng : nat -> Q) :
  store_input_ok p rng ->
  forall fuel e,
    run_loop TaskA.resume TaskA.returned fuel
             (launch (TaskA.simTime p) (TaskA.start p rng)) <> Failed e.
Proof.
  intros In fuel e. pose proof In as (_ & Pos & _).
  apply (run_loop_safe _ _ _ _
           (fun w => store_ok (TaskA.simTime p) w /\ store_more p rng w)).
  - intros w [O M]. destruct (store_step_total p rng w In O M) as [(w' & S & K)|S].
    + left. exists w'. auto.
    + right. exact S.
  - split; [apply store_ok_start; exact Pos|apply store_more_start].
Qed.


(** X1.  With parameters that are numbers in the range of floats (below
    [float_limit]: the horizon, the mean interval and 18 times the time
    per item), a positive horizon and mean interval, and a time per item
    and random numbers that are not negative, [RunSim] of the store
    raises no exception: given any number of events to run, it returns
    the statistics or is still running. *)
Theorem store_never_raises (p : TaskA.Params) (rng : nat -> Q) :
  store_input_ok p rng ->
  forall fuel e, TaskA.RunSim fuel p rng <> TaskA.Exception e.
Proof.
  intros In fuel e. pose proof In as (_ & Pos & _).
  unfold TaskA.RunSim, run.
  change (now (TaskA.start p rng)) with 0. rewrite (Qleb_pos _ Pos).
  destruct (run_loop _ _ _ _) as [w|e'|w] eqn:E; try discriminate.
  exfalso. exact (store_run_safe p rng In fuel e' E).
Qed.

Lemma store_never_raises_witness :
  store_input_ok store_params burst_stream /\
  TaskA.RunSim 64 store_params burst_stream <> TaskA.Exception ValueError.
Proof.
  assert (In : store_input_ok store_params burst_stream).
  { split; [apply store_params_numbers_ok|].
    split; [reflexivity|]. split; [reflexivity|].
    split; [vm_compute; discriminate|apply burst_stream_nonneg]. }
  split; [exact In|]. apply (store_never_raises store_params burst_stream In).
Defined.



Lemma inject_Z_pos (z : Z) : (0 < z)%Z -> 0 < inject_Z z.
Proof. intros H. unfold Qlt, inject_Z. simpl. lia. Qed.


(** X3.  Whatever the three sliders of the dashboard of the store are set to
    (1 to 24 hours, a mean interval of 30 to 120 seconds, 1 to 10 seconds
    per item), [RunSim] on the parameters that [main] builds from them
    raises no exception, for random numbers that are not negative. *)
Theorem store_dashboard_never_raises (simulationHours meanInterarrival cashierSpeed : Z)
        (rng : nat -> Q) :
  StoreDashboard.sliders_ok simulationHours meanInterarrival cashierSpeed ->
  (forall n, 0 <= rng n) ->
  forall fuel e,
    TaskA.RunSim fuel
      (StoreDashboard.main_params simulationHours meanInterarrival cashierSpeed) rng
    <> TaskA.Exception e.
Proof.
  intros (Hh & Hm & Hc) Hr fuel e.
  set (p := StoreDashboard.main_params simulationHours meanInterarrival cashierSpeed).
  assert (Pos : 0 < TaskA.simTime p) by (apply inject_Z_pos; lia).
  assert (In : store_input_ok p rng).
  { split.
    - pose proof (inject_Z_bounded (simulationHours * 3600) ltac:(lia)).
      pose proof (inject_Z_bounded meanInterarrival ltac:(lia)).
      pose proof (inject_Z_bounded cashierSpeed ltac:(lia)).
      repeat split; apply in_float_range_bounded; subst p; cbn; lra.
    - split; [exact Pos|]. split; [apply inject_Z_pos; lia|].
      split; [apply inject_Z_nonneg; lia|exact Hr]. }
  unfold TaskA.RunSim, run.
  change (now (TaskA.start p rng)) with 0. rewrite (Qleb_pos _ Pos).
  destruct (run_loop _ _ _ _) as [w|e'|w] eqn:E; try discriminate.
  exfalso. exact (store_run_safe p rng In fuel e' E).
Qed.

Lemma store_dashboard_never_raises_witness :
  StoreDashboard.sliders_ok 8 75 3 /\
  TaskA.RunSim 64 (StoreDashboard.main_params 8 75 3) burst_stream
    <> TaskA.Exception ValueError.
Proof.
  assert (S : StoreDashboard.sliders_ok 8 75 3)
    by (unfold StoreDashboard.sliders_ok; lia).
  split; [exact S|].
  apply (store_dashboard_never_raises 8 75 3 burst_stream S burst_stream_nonneg).
Defined.



End NeverRaises.

(** ** The exceptions of a run *)

Section Exceptions.
Import Simpy.

#[local] Arguments before : simpl never.
#[local] Arguments Nat.eqb : simpl nomatch.

(** X5.  On a complete dictionary of parameters that are numbers in the
    range of floats (below [float_limit]), the only exceptions that
    [RunSim] raises, in both models, are [ValueError] (a horizon that is
    not positive, a negative delay, an empty range, a mean that numpy
    refuses) and [ZeroDivisionError]: no process is resumed by an event it
    does not wait for, the schedule does not run empty, the index of the
    librarian is in range, and no integer fails to convert to a float. *)
Theorem exceptions_are_arithmetic :
  (forall fuel p rng e,
     store_numbers_ok p ->
     TaskA.RunSim fuel p rng = TaskA.Exception e ->
     e = ValueError \/ e = ZeroDivisionError) /\
  (forall fuel p rng e,
     library_numbers_ok p ->
     TaskB.RunSim fuel p rng = TaskB.Exception e ->
     e = ValueError \/ e = ZeroDivisionError).
Proof.
  split; intros fuel p rng e Nu H.
  - unfold TaskA.RunSim, run in H. change (now (TaskA.start p rng)) with 0 in H.
    destruct (Qleb (TaskA.simTime p) 0) eqn:Le; [inversion H; auto|].
    apply Qleb_false in Le.
    destruct (run_loop _ _ _ _) as [w|e'|w] eqn:E; try discriminate.
    inversion H; subst e'; clear H.
    apply run_loop_Failed in E. destruct E as (w & R & S).
    destruct (store_more_reachable p rng w Le R) as [O M].
    destruct S as [S|[S _]].
    + apply step_Crash in S. destruct S as (s & rest & pid & Eh & W & S).
      destruct (popped_accepts _ _ _ _ _ _ _ (sm_agenda M) Eh W) as (f & P & Acc).
      destruct S as [(Pn & _)|(g & Pg & K)]; [congruence|].
      assert (g = f) by congruence. subst g.
      eapply store_resume_raises; [|exact Acc|exact K].
      change (obj (popped w s rest)) with (obj w).
      rewrite (more_params (sm_model M)). apply Nu.
    + apply step_Empty in S. destruct (st_clock O) as [_ _ Hu].
      rewrite S in Hu. inversion Hu.
  - unfold TaskB.RunSim, run in H. change (now (TaskB.start p rng)) with 0 in H.
    destruct (Qleb (TaskB.SimTime p) 0) eqn:Le; [inversion H; auto|].
    apply Qleb_false in Le.
    destruct (run_loop _ _ _ _) as [w|e'|w] eqn:E; try discriminate.
    inversion H; subst e'; clear H.
    apply run_loop_Failed in E. destruct E as (w & R & S).
    destruct (library_more_reachable p rng w Le R) as [O M].
    destruct S as [S|[S _]].
    + apply step_Crash in S. destruct S as (s & rest & pid & Eh & W & S).
      destruct (popped_accepts _ _ _ _ _ _ _ (lm_agenda M) Eh W) as (f & P & Acc).
      destruct S as [(Pn & _)|(g & Pg & K)]; [congruence|].
      assert (g = f) by congruence. subst g.
      assert (L : now w <= at_time s).
      { destruct (lib_clock O) as [_ Hh _]. rewrite Forall_forall in Hh. apply Hh.
        apply (heappop_In _ _ _ Eh). auto. }
      eapply (library_resume_raises p); [| | |exact Acc|exact K].
      * apply Nu.
      * eapply statistic_more_later; [exact L|]. apply (lm_model M).
      * eapply reader_frame_ok_later; [exact L|]. apply (lm_frames M pid P).
    + apply step_Empty in S. destruct (lib_clock O) as [_ _ Hu].
      rewrite S in Hu. inversion Hu.
Qed.

Lemma exceptions_are_arithmetic_witness :
  (store_numbers_ok zero_mean_store /\
   TaskA.RunSim 1 zero_mean_store burst_stream = TaskA.Exception ZeroDivisionError /\
   (ZeroDivisionError = ValueError \/ ZeroDivisionError = ZeroDivisionError)) /\
  (library_numbers_ok zero_mean_library /\
   TaskB.RunSim 1 zero_mean_library reader_stream = TaskB.Exception ZeroDivisionError /\
   (ZeroDivisionError = ValueError \/ ZeroDivisionError = ZeroDivisionError)).
Proof.
  assert (Ns : store_numbers_ok zero_mean_store).
  { unfold store_numbers_ok, in_float_range. cbn.
    repeat split; vm_compute; reflexivity. }
  assert (Nl : library_numbers_ok zero_mean_library).
  { split; [apply in_float_range_bounded; cbn; lra|].
    split; apply pair_in_float_range_bounded; cbn; lra. }
  split.
  - split; [exact Ns|]. split; [vm_compute; reflexivity|].
    apply (proj1 exceptions_are_arithmetic 1%nat zero_mean_store burst_stream _ Ns).
    vm_compute. reflexivity.
  - split; [exact Nl|]. split; [vm_compute; reflexivity|].
    apply (proj2 exceptions_are_arithmetic 1%nat zero_mean_library reader_stream _ Nl).
    vm_compute. reflexivity.
Defined.

(** X6.  A horizon that is not positive makes [RunSim] raise [ValueError], in
    both models, before any event is processed: [env.run(until = ..)]
    wants a time in the future. *)
Theorem horizon_must_be_positive :
  (forall fuel p rng,
     TaskA.simTime p <= 0 -> TaskA.RunSim fuel p rng = TaskA.Exception ValueError) /\
  (forall fuel p rng,
     TaskB.SimTime p <= 0 -> TaskB.RunSim fuel p rng = TaskB.Exception ValueError).
Proof.
  split; intros fuel p rng H.
  - unfold TaskA.RunSim, run. change (now (TaskA.start p rng)) with 0.
    rewrite (Qleb_true _ _ H). reflexivity.
  - unfold TaskB.RunSim, run. change (now (TaskB.start p rng)) with 0.
    rewrite (Qleb_true _ _ H). reflexivity.
Qed.

Lemma horizon_must_be_positive_witness :
  TaskA.RunSim 64 zero_horizon_store burst_stream = TaskA.Exception ValueError /\
  TaskB.RunSim 20 (library_params 0) reader_stream = TaskB.Exception ValueError.
Proof.
  split.
  - apply (proj1 horizon_must_be_positive 64%nat zero_horizon_store burst_stream).
    vm_compute. discriminate.
  - apply (proj2 horizon_must_be_positive 20%nat (library_params 0) reader_stream).
    vm_compute. discriminate.
Defined.

(** X7.  A mean interval of 0 makes [RunSim] raise [ZeroDivisionError] when
    the generator starts (the first event of the run), in the store and
    in the library under the exponential law: [1.0 / mean] is computed
    unguarded. *)
Theorem zero_mean_interval_divides_by_zero :
  (forall fuel p rng,
     0 < TaskA.simTime p -> TaskA.meanInterval p == 0 ->
     TaskA.RunSim (S fuel) p rng = TaskA.Exception ZeroDivisionError) /\
  (forall fuel p rng,
     0 < TaskB.SimTime p -> TaskB.ArrivalLaw p = TaskB.LAW_EXPONENTIAL ->
     fst (TaskB.ArrivalTime p) == 0 ->
     TaskB.RunSim (S fuel) p rng = TaskB.Exception ZeroDivisionError).
Proof.
  split.
  - intros fuel p rng HT HM. apply Qeq_bool_iff in HM.
    unfold TaskA.RunSim, run. cbn. rewrite (Qleb_later _ _ HT).
    unfold launch, Simpy.step, resume_process. cbn.
    rewrite before_later by (cbn; lra). cbn.
    unfold TaskA.CustomerGenerator_loop, bind, divide. cbn. rewrite HM. reflexivity.
  - intros fuel p rng HT HL HM. apply Qeq_bool_iff in HM.
    unfold TaskB.RunSim, run. cbn. rewrite (Qleb_later _ _ HT).
    unfold launch, Simpy.step, resume_process. cbn.
    rewrite before_later by (cbn; lra). cbn.
    rewrite HL. cbn.
    unfold TaskB.exponential_loop, bind, divide. cbn. rewrite HM. reflexivity.
Qed.

Lemma zero_mean_interval_divides_by_zero_witness :
  TaskA.RunSim 1 zero_mean_store burst_stream = TaskA.Exception ZeroDivisionError /\
  TaskB.RunSim 1 zero_mean_library reader_stream = TaskB.Exception ZeroDivisionError.
Proof.
  split.
  - apply (proj1 zero_mean_interval_divides_by_zero 0%nat zero_mean_store burst_stream);
      reflexivity.
  - apply (proj2 zero_mean_interval_divides_by_zero 0%nat zero_mean_library reader_stream);
      reflexivity.
Defined.

(** X8.  Under the Poisson law the first readers are created at time 3600;
    with a horizon of at most 3600 seconds (the least the dashboard
    offers is one hour) the run stops before them, the stop event being
    urgent: [RunSim] returns the statistic as [Library] created it, after
    two events. *)
Theorem poisson_first_hour_is_empty (p : TaskB.Params) (rng : nat -> Q) (fuel : nat) :
  TaskB.ArrivalLaw p = TaskB.LAW_POISSON ->
  0 < TaskB.SimTime p -> TaskB.SimTime p <= 3600 ->
  TaskB.RunSim (S (S fuel)) p rng = TaskB.Return (TaskB.statistic (TaskB.Library_init p)).
Proof.
  intros HL HT HH.
  unfold TaskB.RunSim, run. cbn. rewrite (Qleb_later _ _ HT).
  unfold launch, Simpy.step, resume_process. cbn.
  rewrite before_later by (cbn; lra). cbn.
  rewrite HL. cbn.
  unfold TaskB.poisson_loop, bind, timeout. cbn.
  rewrite (Qltb_nonneg 3600) by (vm_compute; discriminate). cbn.
  assert (B : forall e1 e2,
            before (mkScheduled (0 + 3600) NORMAL e1 (Timeout 0))
                   (mkScheduled (0 + (TaskB.SimTime p - 0)) URGENT e2 Until) = false).
  { intros e1 e2. unfold before. cbn [at_time priority eid].
    destruct (0 + 3600 ?= 0 + (TaskB.SimTime p - 0)) eqn:E.
    - reflexivity.
    - apply Qlt_alt in E. lra.
    - reflexivity. }
  rewrite B. cbn. reflexivity.
Qed.

Lemma poisson_first_hour_is_empty_witness :
  TaskB.RunSim 2 (poisson_params 3600) reader_stream =
  TaskB.Return (TaskB.mkStatistic 0 [] [] 0 [] [0; 0] []).
Proof.
  apply (poisson_first_hour_is_empty (poisson_params 3600) reader_stream 0);
    [reflexivity|reflexivity|vm_compute; discriminate].
Defined.




(** X23.  A mean interval that is an integer at or beyond [float_limit] makes
    [RunSim] raise [OverflowError] when the generator starts (the first
    event of the run), in the store and in the library under the
    exponential law: [1.0 / mean] converts the mean to a float. *)
Theorem huge_mean_interval_overflows :
  (forall fuel p rng,
     0 < TaskA.simTime p -> float_limit <= TaskA.meanInterval p ->
     TaskA.RunSim (S fuel) p rng = TaskA.Exception OverflowError) /\
  (forall fuel p rng,
     0 < TaskB.SimTime p -> TaskB.ArrivalLaw p = TaskB.LAW_EXPONENTIAL ->
     float_limit <= fst (TaskB.ArrivalTime p) ->
     TaskB.RunSim (S fuel) p rng = TaskB.Exception OverflowError).
Proof.
  assert (F : 0 < float_limit) by reflexivity.
  split.
  - intros fuel p rng HT HM.
    unfold TaskA.RunSim, run. cbn. rewrite (Qleb_later _ _ HT).
    unfold launch, Simpy.step, resume_process. cbn.
    rewrite before_later by (cbn; lra). cbn.
    unfold TaskA.CustomerGenerator_loop, bind, divide. cbn.
    rewrite Qeq_bool_pos by lra. rewrite (Qleb_true _ _ HM). reflexivity.
  - intros fuel p rng HT HL HM.
    unfold TaskB.RunSim, run. cbn. rewrite (Qleb_later _ _ HT).
    unfold launch, Simpy.step, resume_process. cbn.
    rewrite before_later by (cbn; lra). cbn.
    rewrite HL. cbn.
    unfold TaskB.exponential_loop, bind, divide. cbn.
    rewrite Qeq_bool_pos by lra. rewrite (Qleb_true _ _ HM). reflexivity.
Qed.

Lemma huge_mean_interval_overflows_witness :
  TaskA.RunSim 1 huge_mean_store burst_stream = TaskA.Exception OverflowError /\
  TaskB.RunSim 1 huge_mean_library reader_stream = TaskB.Exception OverflowError.
Proof.
  split.
  - apply (proj1 huge_mean_interval_overflows 0%nat huge_mean_store burst_stream);
      [reflexivity|vm_compute; discriminate].
  - apply (proj2 huge_mean_interval_overflows 0%nat huge_mean_library reader_stream);
      [reflexivity|reflexivity|vm_compute; discriminate].
Defined.


End Exceptions.

(** ** Resources and the clock along a run *)

Section AlongARun.
Import Simpy.

(** The worlds that [advance] goes through are worlds of the run. *)
Lemma advance_reachable (Frame Model : Type)
      (resume : nat -> Frame -> Event -> Sim Frame Model Frame)
      (returned : Frame -> bool) (n : nat) :
  forall w w' : World Frame Model,
    advance resume returned n w = Some w' -> reachable resume returned w w'.
Proof.
  induction n as [|n IH]; intros w w' H; simpl in H.
  - inversion H. apply reachable_start.
  - destruct (step resume returned w) as [w1| | |] eqn:S; try discriminate H.
    eapply reachable_after_step; [exact S|apply IH; exact H].
Qed.

(** X9.  Every resource serves one process at a time: at every point of a
    run, a counter, the cashier and each librarian has at most one user.
    In the library two readers are never being served by the same
    librarian. *)
Theorem resources_serve_one_at_a_time :
  (forall p rng w,
     0 < TaskA.simTime p ->
     reachable TaskA.resume TaskA.returned
               (launch (TaskA.simTime p) (TaskA.start p rng)) w ->
     forall r, (List.length (users (resources w r)) <= 1)%nat) /\
  (forall p rng w,
     0 < TaskB.SimTime p ->
     reachable TaskB.resume TaskB.returned
               (launch (TaskB.SimTime p) (TaskB.start p rng)) w ->
     (forall r, (List.length (users (resources w r)) <= 1)%nat) /\
     (forall p1 p2 r1 r2 j q1 q2 s1 s2,
        processes w p1 = Some (TaskB.AtLibrarian r1 j q1 s1) ->
        processes w p2 = Some (TaskB.AtLibrarian r2 j q2 s2) -> p1 = p2)).
Proof.
  split; intros p rng w Pos R.
  - destruct (store_more_reachable p rng w Pos R) as [O M].
    intros r. apply (agenda_capacity (sm_agenda M) r).
  - destruct (library_more_reachable p rng w Pos R) as [O M]. split.
    + intros r. apply (agenda_capacity (lm_agenda M) r).
    + intros p1 p2 r1 r2 j q1 q2 s1 s2 P1 P2.
      destruct (@desk_serving _ _ _ _ _ _ (lib_desks O j) p1 s1) as [U1 _];
        [cbn beta; rewrite P1; reflexivity|].
      destruct (@desk_serving _ _ _ _ _ _ (lib_desks O j) p2 s2) as [U2 _];
        [cbn beta; rewrite P2; reflexivity|].
      congruence.
Qed.

Lemma resources_serve_one_at_a_time_witness :
  (exists w,
     advance TaskA.resume TaskA.returned 12
             (launch 3600 (TaskA.start store_params burst_stream)) = Some w /\
     users (resources w TaskA.cashier) = [1%nat] /\
     queue (resources w TaskA.cashier) = [2; 3; 4; 5]%nat /\
     forall r, (List.length (users (resources w r)) <= 1)%nat) /\
  (exists w,
     advance TaskB.resume TaskB.returned 9
             (launch 3600 (TaskB.start (library_params 3600) half_stream)) = Some w /\
     users (resources w 0%nat) = [2%nat] /\
     users (resources w 1%nat) = [1%nat] /\
     queue (resources w 1%nat) = [3%nat] /\
     (forall r, (List.length (users (resources w r)) <= 1)%nat) /\
     (forall p1 p2 r1 r2 j q1 q2 s1 s2,
        processes w p1 = Some (TaskB.AtLibrarian r1 j q1 s1) ->
        processes w p2 = Some (TaskB.AtLibrarian r2 j q2 s2) -> p1 = p2)).
Proof.
  split; (eexists; split; [vm_compute; reflexivity|]).
  - split; [vm_compute; reflexivity|]. split; [vm_compute; reflexivity|].
    apply (proj1 resources_serve_one_at_a_time store_params burst_stream);
      [reflexivity|].
    apply advance_reachable with (n := 12%nat). vm_compute. reflexivity.
  - split; [vm_compute; reflexivity|]. split; [vm_compute; reflexivity|].
    split; [vm_compute; reflexivity|].
    apply (proj2 resources_serve_one_at_a_time (library_params 3600) half_stream);
      [reflexivity|].
    apply advance_reachable with (n := 9%nat). vm_compute. reflexivity.
Defined.

(** X10.  The clock never goes back and never passes the horizon, and the
    run stops with the clock at the horizon: each event that is processed
    leaves the time where it was or later, and not after the horizon; the
    stop event moves the clock forward to the horizon.  In both
    models. *)
Theorem clock_moves_forward_to_the_horizon :
  (forall p rng w w',
     0 < TaskA.simTime p ->
     reachable TaskA.resume TaskA.returned
               (launch (TaskA.simTime p) (TaskA.start p rng)) w ->
     (TaskA.step w = Continue w' ->
      now w <= now w' /\ now w' <= TaskA.simTime p) /\
     (TaskA.step w = StopSimulation w' ->
      now w <= now w' /\ now w' == TaskA.simTime p)) /\
  (forall p rng w w',
     0 < TaskB.SimTime p ->
     reachable TaskB.resume TaskB.returned
               (launch (TaskB.SimTime p) (TaskB.start p rng)) w ->
     (TaskB.step w = Continue w' ->
      now w <= now w' /\ now w' <= TaskB.SimTime p) /\
     (TaskB.step w = StopSimulation w' ->
      now w <= now w' /\ now w' == TaskB.SimTime p)).
Proof.
  split; intros p rng w w' Pos R.
  - pose proof (store_ok_reachable p rng w Pos R) as O. split; intros S.
    + destruct (clock_ok_step _ _ _ _ _ store_resume_respects _ w w' (st_clock O) S)
        as [C L].
      split; [exact L|apply (clock_now C)].
    + destruct (clock_ok_stop _ _ _ _ _ _ _ (st_clock O) S) as (N & L & _).
      split; [exact L|exact N].
  - pose proof (library_ok_reachable p rng w Pos R) as O. split; intros S.
    + destruct (clock_ok_step _ _ _ _ _ library_resume_respects _ w w' (lib_clock O) S)
        as [C L].
      split; [exact L|apply (clock_now C)].
    + destruct (clock_ok_stop _ _ _ _ _ _ _ (lib_clock O) S) as (N & L & _).
      split; [exact L|exact N].
Qed.

(** In the run of the store with one customer the second event moves the
    clock from 0 to 120, and the eighth, the stop event, from 125 to the
    horizon 3600; in the run of the library with one reader, from 0 to
    120 and from 300 to 3600. *)
Lemma clock_moves_forward_to_the_horizon_witness :
  (exists w1 w2 w7 w8,
     advance TaskA.resume TaskA.returned 1
             (launch 3600 (TaskA.start store_params single_stream)) = Some w1 /\
     TaskA.step w1 = Continue w2 /\
     Qred (now w1) = 0 /\ Qred (now w2) = 120 /\
     (now w1 <= now w2 /\ now w2 <= TaskA.simTime store_params) /\
     advance TaskA.resume TaskA.returned 7
             (launch 3600 (TaskA.start store_params single_stream)) = Some w7 /\
     TaskA.step w7 = StopSimulation w8 /\
     Qred (now w7) = 125 /\ Qred (now w8) = 3600 /\
     (now w7 <= now w8 /\ now w8 == TaskA.simTime store_params)) /\
  (exists w1 w2 w7 w8,
     advance TaskB.resume TaskB.returned 1
             (launch 3600 (TaskB.start (library_params 3600) reader_stream)) = Some w1 /\
     TaskB.step w1 = Continue w2 /\
     Qred (now w1) = 0 /\ Qred (now w2) = 120 /\
     (now w1 <= now w2 /\ now w2 <= TaskB.SimTime (library_params 3600)) /\
     advance TaskB.resume TaskB.returned 7
             (launch 3600 (TaskB.start (library_params 3600) reader_stream)) = Some w7 /\
     TaskB.step w7 = StopSimulation w8 /\
     Qred (now w7) = 300 /\ Qred (now w8) = 3600 /\
     (now w7 <= now w8 /\ now w8 == TaskB.SimTime (library_params 3600))).
Proof.
  split; do 4 eexists.
  - split; [vm_compute; reflexivity|]. split; [vm_compute; reflexivity|].
    split; [vm_compute; reflexivity|]. split; [vm_compute; reflexivity|].
    split.
    { apply (proj1 clock_moves_forward_to_the_horizon store_params single_stream);
        [reflexivity
        |apply advance_reachable with (n := 1%nat); vm_compute; reflexivity
        |vm_compute; reflexivity]. }
    split; [vm_compute; reflexivity|]. split; [vm_compute; reflexivity|].
    split; [vm_compute; reflexivity|]. split; [vm_compute; reflexivity|].
    apply (proj1 clock_moves_forward_to_the_horizon store_params single_stream);
      [reflexivity
      |apply advance_reachable with (n := 7%nat); vm_compute; reflexivity
      |vm_compute; reflexivity].
  - split; [vm_compute; reflexivity|]. split; [vm_compute; reflexivity|].
    split; [vm_compute; reflexivity|]. split; [vm_compute; reflexivity|].
    split.
    { apply (proj2 clock_moves_forward_to_the_horizon (library_params 3600)
                   reader_stream);
        [reflexivity
        |apply advance_reachable with (n := 1%nat); vm_compute; reflexivity
        |vm_compute; reflexivity]. }
    split; [vm_compute; reflexivity|]. split; [vm_compute; reflexivity|].
    split; [vm_compute; reflexivity|]. split; [vm_compute; reflexivity|].
    apply (proj2 clock_moves_forward_to_the_horizon (library_params 3600)
                 reader_stream);
      [reflexivity
      |apply advance_reachable with (n := 7%nat); vm_compute; reflexivity
      |vm_compute; reflexivity].
Defined.

End AlongARun.

(** ** The logs that a run returns *)

Section ExtraLogs.
Import Simpy.

Lemma log_ok_within (t T : Q) (v : Z) (log : list (Q * Z)) :
  log_ok t v log -> t <= T ->
  StronglySorted Qle (map fst log) /\
  Forall (fun e => fst e <= T /\ (0 <= snd e)%Z) log.
Proof.
  intros [S P V L] H. split; [exact S|].
  rewrite Forall_forall in *. intros e He. split; [|apply V; exact He].
  specialize (P e He). simpl in P. lra.
Qed.

Lemma finish_logs (p : TaskA.Params) (m : TaskA.Supermarket) :
  TaskA.basketsHistory (TaskA.finish p m) = TaskA.basketsHistory (TaskA.stats m) /\
  TaskA.maxBasketsInUse (TaskA.finish p m) = TaskA.maxBasketsInUse (TaskA.stats m) /\
  TaskA.serviceTimes (TaskA.finish p m) = TaskA.serviceTimes (TaskA.stats m).
Proof.
  unfold TaskA.finish. destruct (TaskA.cashierBusyStart m); repeat split; reflexivity.
Qed.

(** X11.  In the statistics that a run returns the logs are in the order of
    time: the times of [queueLengths], [basketsHistory] and [QueueLen] do
    not decrease and are not after the horizon, and the values logged are
    not negative. *)
Theorem logs_are_in_time_order :
  (forall fuel p rng s,
     TaskA.RunSim fuel p rng = TaskA.Return s ->
     (StronglySorted Qle (map fst (TaskA.queueLengths s)) /\
      Forall (fun e => fst e <= TaskA.simTime p /\ (0 <= snd e)%Z)
             (TaskA.queueLengths s)) /\
     (StronglySorted Qle (map fst (TaskA.basketsHistory s)) /\
      Forall (fun e => fst e <= TaskA.simTime p /\ (0 <= snd e)%Z)
             (TaskA.basketsHistory s))) /\
  (forall fuel p rng s,
     TaskB.RunSim fuel p rng = TaskB.Return s ->
     StronglySorted Qle (map fst (TaskB.QueueLen s)) /\
     Forall (fun e => fst e <= TaskB.SimTime p /\ (0 <= snd e)%Z) (TaskB.QueueLen s)).
Proof.
  split; intros fuel p rng s H.
  - destruct (store_Return_more _ _ _ _ H) as (Pos & w1 & O & M & ->).
    destruct (finish_same p (obj w1)) as (_ & _ & -> & _).
    destruct (finish_logs p (obj w1)) as (-> & _).
    pose proof (clock_now (st_clock O)) as L.
    split; eapply log_ok_within; try exact L.
    + apply (more_queue (sm_model M)).
    + apply (more_baskets (sm_model M)).
  - destruct (library_Return_more _ _ _ _ H) as (Pos & w1 & O & M & ->).
    pose proof (clock_now (lib_clock O)) as L.
    eapply log_ok_within; [|exact L]. apply (lmore_queue (lm_model M)).
Qed.

Lemma logs_are_in_time_order_witness :
  (exists s, TaskA.RunSim 64 store_params burst_stream = TaskA.Return s /\
             List.length (TaskA.queueLengths s) = 20%nat /\
             StronglySorted Qle (map fst (TaskA.queueLengths s))) /\
  (exists s, TaskB.RunSim 20 (library_params 3600) reader_stream = TaskB.Return s /\
             List.length (TaskB.QueueLen s) = 2%nat /\
             StronglySorted Qle (map fst (TaskB.QueueLen s))).
Proof.
  split; eexists; (split; [vm_compute; reflexivity|]); (split; [reflexivity|]).
  - apply (proj1 logs_are_in_time_order 64%nat store_params burst_stream).
    vm_compute. reflexivity.
  - apply (proj2 logs_are_in_time_order 20%nat (library_params 3600) reader_stream).
    vm_compute. reflexivity.
Defined.

Lemma fold_max_bounds (l : list Z) :
  forall a, (a <= fold_left Z.max l a)%Z /\
            Forall (fun x => (x <= fold_left Z.max l a)%Z) l.
Proof.
  induction l as [|x l IH]; intros a.
  - split; [apply Z.le_refl|constructor].
  - change (fold_left Z.max (x :: l) a) with (fold_left Z.max l (Z.max a x)).
    destruct (IH (Z.max a x)) as [H1 H2]. split; [lia|].
    constructor; [lia|exact H2].
Qed.

Lemma last_le_fold_max (l : list Z) : (last l 0 <= fold_left Z.max l 0)%Z.
Proof.
  destruct (fold_max_bounds l 0%Z) as [H1 H2].
  apply (last_Forall (fun x => (x <= fold_left Z.max l 0)%Z)); assumption.
Qed.

(** X12.  In the statistics of the store that a run returns, the greatest
    number of baskets in use is the greatest value of the log of
    baskets, when the log is not empty, and the number of baskets in use
    at the end lies between 0 and it. *)
Theorem max_baskets_is_log_maximum (fuel : nat) (p : TaskA.Params) (rng : nat -> Q)
        (s : TaskA.Stats) :
  TaskA.RunSim fuel p rng = TaskA.Return s ->
  (TaskA.basketsHistory s <> [] ->
   Some (TaskA.maxBasketsInUse s) = maximum (map snd (TaskA.basketsHistory s))) /\
  (0 <= TaskA.basketsInUse s <= TaskA.maxBasketsInUse s)%Z.
Proof.
  intros H. destruct (store_Return_more _ _ _ _ H) as (Pos & w1 & O & M & ->).
  destruct (finish_same p (obj w1)) as (_ & _ & _ & -> & _).
  destruct (finish_logs p (obj w1)) as (-> & -> & _).
  destruct (sm_model M) as [_ _ _ Ba Mx _ _ _ _]. rewrite Mx. split.
  - intros N. apply maximum_fold; [exact N|].
    destruct Ba as [_ _ V _].
    destruct (TaskA.basketsHistory (TaskA.stats (obj w1))) as [|[t v] l]; [exact I|].
    inversion V; subst. assumption.
  - split; [apply (log_ok_value _ _ _ Ba)|].
    rewrite <- (log_last Ba). apply last_le_fold_max.
Qed.

Lemma max_baskets_is_log_maximum_witness :
  exists s, TaskA.RunSim 64 store_params burst_stream = TaskA.Return s /\
            TaskA.maxBasketsInUse s = 10%Z /\
            (TaskA.basketsHistory s <> [] ->
             Some (TaskA.maxBasketsInUse s) = maximum (map snd (TaskA.basketsHistory s))).
Proof.
  eexists. split; [vm_compute; reflexivity|]. split; [reflexivity|].
  apply (max_baskets_is_log_maximum 64 store_params burst_stream).
  vm_compute. reflexivity.
Defined.

(** X13.  At every point of a run, and in the world in which it stops, the
    current queue length is the number of customers (readers) that wait
    for the cashier (a librarian), and it is the last value of the log
    of queue lengths (0 when the log is empty). *)
Theorem queue_length_counts_the_waiting :
  (forall p rng w,
     0 < TaskA.simTime p ->
     reachable TaskA.resume TaskA.returned
               (launch (TaskA.simTime p) (TaskA.start p rng)) w \/
     (exists fuel, run TaskA.resume TaskA.returned (TaskA.simTime p) fuel
                       (TaskA.start p rng) = Returned w) ->
     TaskA.currentQueueLength (obj w) =
       count_frames awaits_cashier (processes w) (next_pid w) /\
     last (map snd (TaskA.queueLengths (TaskA.stats (obj w)))) 0%Z =
       TaskA.currentQueueLength (obj w)) /\
  (forall p rng w,
     0 < TaskB.SimTime p ->
     reachable TaskB.resume TaskB.returned
               (launch (TaskB.SimTime p) (TaskB.start p rng)) w \/
     (exists fuel, run TaskB.resume TaskB.returned (TaskB.SimTime p) fuel
                       (TaskB.start p rng) = Returned w) ->
     TaskB.currentQueueLen (obj w) =
       count_frames awaits_librarian (processes w) (next_pid w) /\
     last (map snd (TaskB.QueueLen (TaskB.statistic (obj w)))) 0%Z =
       TaskB.currentQueueLen (obj w)).
Proof.
  split; intros p rng w Pos [R|[fuel E]].
  - destruct (store_more_reachable p rng w Pos R) as [O M].
    split; [apply (sm_queue M)|apply (log_last (more_queue (sm_model M)))].
  - destruct (store_run_more _ _ _ _ E) as (_ & w1 & O & M & Eo & Ep & Ei & _).
    rewrite Eo, Ep, Ei.
    split; [apply (sm_queue M)|apply (log_last (more_queue (sm_model M)))].
  - destruct (library_more_reachable p rng w Pos R) as [O M].
    split; [apply (lm_queue M)|apply (log_last (lmore_queue (lm_model M)))].
  - destruct (library_run_more _ _ _ _ E) as (_ & w1 & O & M & Eo & Ep & Ei & _).
    rewrite Eo, Ep, Ei.
    split; [apply (lm_queue M)|apply (log_last (lmore_queue (lm_model M)))].
Qed.

Lemma queue_length_counts_the_waiting_witness :
  (exists w,
     run TaskA.resume TaskA.returned (TaskA.simTime store_params) 64
         (TaskA.start store_params burst_stream) = Returned w /\
     TaskA.currentQueueLength (obj w) = 0%Z /\
     TaskA.currentQueueLength (obj w) =
       count_frames awaits_cashier (processes w) (next_pid w)) /\
  (exists w,
     run TaskB.resume TaskB.returned (TaskB.SimTime (library_params 200)) 20
         (TaskB.start (library_params 200) reader_stream) = Returned w /\
     TaskB.currentQueueLen (obj w) = 0%Z /\
     TaskB.currentQueueLen (obj w) =
       count_frames awaits_librarian (processes w) (next_pid w)).
Proof.
  split; eexists; (split; [vm_compute; reflexivity|]); (split; [reflexivity|]).
  - apply (proj1 queue_length_counts_the_waiting store_params burst_stream);
      [reflexivity|].
    right. exists 64%nat. vm_compute. reflexivity.
  - apply (proj2 queue_length_counts_the_waiting (library_params 200) reader_stream);
      [reflexivity|].
    right. exists 20%nat. vm_compute. reflexivity.
Defined.

End ExtraLogs.

(** ** The samples that a run returns *)

Section ExtraSamples.
Import Simpy.

(** X14.  In the statistics of the store that a run returns, every customer
    served bought between 1 and 18 items (at most 4, 5 and 6 at the
    counters and 3 more), and every service time is such a number of
    items times the time per item. *)
Theorem purchases_are_between_1_and_18 (fuel : nat) (p : TaskA.Params)
        (rng : nat -> Q) (s : TaskA.Stats) :
  TaskA.RunSim fuel p rng = TaskA.Return s ->
  Forall (fun n => (1 <= n <= 18)%Z) (TaskA.purchaseCounts s) /\
  Forall (fun x => exists n, (1 <= n <= 18)%Z /\
                             x = inject_Z n * TaskA.payTimePerItem p)
         (TaskA.serviceTimes s).
Proof.
  intros H. destruct (store_Return_more _ _ _ _ H) as (Pos & w1 & O & M & ->).
  destruct (finish_same p (obj w1)) as (_ & _ & _ & _ & _ & -> & _).
  destruct (finish_logs p (obj w1)) as (_ & _ & ->).
  destruct (sm_model M) as [_ _ _ _ _ Se Re _ Pc]. split; [|exact Se].
  rewrite Pc. apply Forall_map. eapply Forall_impl; [|exact Re].
  intros r (R1 & _). exact R1.
Qed.

Lemma purchases_are_between_1_and_18_witness :
  exists s, TaskA.RunSim 64 store_params burst_stream = TaskA.Return s /\
            List.length (TaskA.purchaseCounts s) = 10%nat /\
            Forall (fun n => (1 <= n <= 18)%Z) (TaskA.purchaseCounts s).
Proof.
  eexists. split; [vm_compute; reflexivity|]. split; [reflexivity|].
  apply (purchases_are_between_1_and_18 64 store_params burst_stream).
  vm_compute. reflexivity.
Defined.

(** X15.  In the statistics of the store that a run returns, the lists of
    wait times and of purchase counts are the columns of the customer
    records, in the same order; in each record the service time is the
    number of items times the time per item, the wait time is not
    negative and the exit time is not after the horizon. *)
Theorem customer_records_match_the_samples (fuel : nat) (p : TaskA.Params)
        (rng : nat -> Q) (s : TaskA.Stats) :
  TaskA.RunSim fuel p rng = TaskA.Return s ->
  TaskA.waitTimes s = map TaskA.waitTime (TaskA.customerData s) /\
  TaskA.purchaseCounts s = map TaskA.totalPurchases (TaskA.customerData s) /\
  Forall (fun r =>
            TaskA.serviceTime r =
              inject_Z (TaskA.totalPurchases r) * TaskA.payTimePerItem p /\
            0 <= TaskA.waitTime r /\ TaskA.exitTime r <= TaskA.simTime p)
         (TaskA.customerData s).
Proof.
  intros H. destruct (store_Return_more _ _ _ _ H) as (Pos & w1 & O & M & ->).
  destruct (finish_same p (obj w1)) as (_ & _ & _ & _ & -> & -> & ->).
  destruct (sm_model M) as [_ _ _ _ _ _ Re Wt Pc].
  split; [exact Wt|]. split; [exact Pc|].
  pose proof (clock_now (st_clock O)) as L.
  eapply Forall_impl; [|exact Re].
  intros r (_ & R2 & R3 & R4). repeat split; auto. lra.
Qed.

Lemma customer_records_match_the_samples_witness :
  exists s, TaskA.RunSim 64 store_params burst_stream = TaskA.Return s /\
            List.length (TaskA.customerData s) = 10%nat /\
            TaskA.waitTimes s = map TaskA.waitTime (TaskA.customerData s).
Proof.
  eexists. split; [vm_compute; reflexivity|]. split; [reflexivity|].
  apply (customer_records_match_the_samples 64 store_params burst_stream).
  vm_compute. reflexivity.
Defined.

(** X16.  In the statistic of the library that a run returns there are the
    busy times of exactly two librarians, none negative; no waiting time
    and no service time is negative; and every reader served took
    between 1 and 5 books. *)
Theorem library_samples_are_in_range (fuel : nat) (p : TaskB.Params)
        (rng : nat -> Q) (s : TaskB.Statistic) :
  TaskB.RunSim fuel p rng = TaskB.Return s ->
  List.length (TaskB.LibrarianBusy s) = 2%nat /\
  Forall (fun x => 0 <= x) (TaskB.LibrarianBusy s) /\
  Forall (fun x => 0 <= x) (TaskB.TimeWaiting s) /\
  Forall (fun x => 0 <= x) (TaskB.TimeServed s) /\
  Forall (fun n => (1 <= n <= 5)%Z) (TaskB.BooksPerReader s).
Proof.
  intros H. destruct (library_Return_more _ _ _ _ H) as (Pos & w1 & O & M & ->).
  destruct (lm_model M) as [_ Bl Bu _ Wa Se Bo]. auto.
Qed.

Lemma library_samples_are_in_range_witness :
  exists s, TaskB.RunSim 20 (library_params 3600) reader_stream = TaskB.Return s /\
            TaskB.BooksPerReader s = [1%Z] /\
            List.length (TaskB.LibrarianBusy s) = 2%nat.
Proof.
  eexists. split; [vm_compute; reflexivity|]. split; [reflexivity|].
  apply (library_samples_are_in_range 20 (library_params 3600) reader_stream).
  vm_compute. reflexivity.
Defined.

End ExtraSamples.

(** ** What the dashboards show *)

Section Dashboards.
Import Simpy.

Lemma ratio_in_unit (x T : Q) : 0 < T -> 0 <= x -> x <= T -> 0 <= x / T /\ x / T <= 1.
Proof.
  intros HT H0 H1. split.
  - apply Qle_shift_div_l; [exact HT|lra].
  - apply Qle_shift_div_r; [exact HT|lra].
Qed.

(** X17.  The utilisation of the cashier that the dashboard of the store
    shows, for the statistics of a run that returned, is computed without
    a division by zero and lies between 0 and 100 percent. *)
Theorem cashier_utilization_is_a_percentage (fuel : nat) (p : TaskA.Params)
        (rng : nat -> Q) (s : TaskA.Stats) :
  TaskA.RunSim fuel p rng = TaskA.Return s ->
  StoreDashboard.cashierUtilization s p =
    inr (TaskA.cashierBusyTime s / TaskA.simTime p * 100) /\
  0 <= TaskA.cashierBusyTime s / TaskA.simTime p * 100 /\
  TaskA.cashierBusyTime s / TaskA.simTime p * 100 <= 100.
Proof.
  intros H. destruct (store_Return_more _ _ _ _ H) as (Pos & w1 & O & M & ->).
  unfold StoreDashboard.cashierUtilization. rewrite (Qeq_bool_pos _ Pos).
  split; [reflexivity|].
  pose proof (clock_now (st_clock O)) as L.
  destruct (st_model O) as [_ _ _ _ _ _ B S].
  pose proof (more_busy (sm_model M)) as B0.
  assert (K : 0 <= TaskA.cashierBusyTime (TaskA.finish p (obj w1)) /\
              TaskA.cashierBusyTime (TaskA.finish p (obj w1)) <= TaskA.simTime p).
  { unfold TaskA.finish. destruct (TaskA.cashierBusyStart (obj w1)) as [b|]; cbn.
    - destruct S as [S1 S2]. split; lra.
    - split; lra. }
  destruct K as [K0 K1].
  destruct (ratio_in_unit _ _ Pos K0 K1) as [R0 R1]. split; lra.
Qed.

Lemma cashier_utilization_is_a_percentage_witness :
  exists s, TaskA.RunSim 64 store_params burst_stream = TaskA.Return s /\
            StoreDashboard.cashierUtilization s store_params =
              inr (TaskA.cashierBusyTime s / 3600 * 100) /\
            Qred (TaskA.cashierBusyTime s / 3600 * 100) = 5 # 36.
Proof.
  eexists. split; [vm_compute; reflexivity|]. split; [|vm_compute; reflexivity].
  apply (cashier_utilization_is_a_percentage 64 store_params burst_stream).
  vm_compute. reflexivity.
Defined.

(** X18.  The load of the librarians that the dashboard of the library shows,
    for the statistic of a run that returned, is computed without an
    exception (two busy times, a horizon that is not 0); each busy time
    is between 0 and the horizon, so each load is between 0 and 1 and
    the clamp [min(1.0, ..)] never cuts it. *)
Theorem librarian_load_needs_no_clamp (fuel : nat) (p : TaskB.Params)
        (rng : nat -> Q) (s : TaskB.Statistic) :
  TaskB.RunSim fuel p rng = TaskB.Return s ->
  let busy := TaskB.LibrarianBusy s in
  let T := TaskB.SimTime p in
  (LibraryDashboard.libFirstKoef s p = inr (Qmin 1 (nth 0 busy 0 / T)) /\
   Qmin 1 (nth 0 busy 0 / T) == nth 0 busy 0 / T /\
   0 <= nth 0 busy 0 / T <= 1) /\
  (LibraryDashboard.libSecondKoef s p = inr (Qmin 1 (nth 1 busy 0 / T)) /\
   Qmin 1 (nth 1 busy 0 / T) == nth 1 busy 0 / T /\
   0 <= nth 1 busy 0 / T <= 1) /\
  (LibraryDashboard.libKoef s p = inr (Qmin 1 (Qsum busy / (2 * T))) /\
   Qmin 1 (Qsum busy / (2 * T)) == Qsum busy / (2 * T) /\
   0 <= Qsum busy / (2 * T) <= 1).
Proof.
  intros H. destruct (library_Return_more _ _ _ _ H) as (Pos & w1 & O & M & ->).
  cbv zeta.
  pose proof (clock_now (lib_clock O)) as L.
  pose proof (desk_busy (lib_desks O 0%nat)) as B0. cbn beta in B0.
  pose proof (desk_busy (lib_desks O 1%nat)) as B1. cbn beta in B1.
  destruct (lm_model M) as [_ Bl Bu _ _ _ _].
  unfold LibraryDashboard.libFirstKoef, LibraryDashboard.libSecondKoef,
    LibraryDashboard.libKoef, LibraryDashboard.index, LibraryDashboard.koef.
  destruct (TaskB.LibrarianBusy (TaskB.statistic (obj w1))) as [|b0 [|b1 [|b2 l]]];
    try discriminate Bl.
  inversion Bu as [|? ? P0 Bu']; subst. inversion Bu' as [|? ? P1 _]; subst.
  cbn [nth] in *. cbn [nth_error Qsum].
  assert (Pos2 : 0 < 2 * TaskB.SimTime p) by lra.
  rewrite (Qeq_bool_pos _ Pos), (Qeq_bool_pos _ Pos2).
  destruct (ratio_in_unit b0 _ Pos) as [R0 R1]; [lra|lra|].
  destruct (ratio_in_unit b1 _ Pos) as [R2 R3]; [lra|lra|].
  destruct (ratio_in_unit (b0 + (b1 + 0)) _ Pos2) as [R4 R5]; [lra|lra|].
  repeat split; try assumption; try reflexivity; apply Q.min_r; assumption.
Qed.

Lemma librarian_load_needs_no_clamp_witness :
  exists s, TaskB.RunSim 20 (library_params 3600) reader_stream = TaskB.Return s /\
            map Qred (TaskB.LibrarianBusy s) = [0; 180] /\
            LibraryDashboard.libSecondKoef s (library_params 3600) =
              inr (Qmin 1 (nth 1 (TaskB.LibrarianBusy s) 0 / 3600)).
Proof.
  eexists. split; [vm_compute; reflexivity|]. split; [reflexivity|].
  apply (librarian_load_needs_no_clamp 20 (library_params 3600) reader_stream).
  vm_compute. reflexivity.
Defined.

(** X19.  The block of [RunAndDisplaySim] that draws a log never raises (the
    floor division and the remainder are by numbers that are not 0).  A
    log of at most 10 entries is not drawn; a longer one is drawn with
    as many times as values, at least 1 and at most 1999 points, the
    first of which is the first entry of the log. *)
Theorem log_chart_is_a_sample (log : list (Q * Z)) :
  (List.length log <= 10)%nat /\ draw_log log = inr None \/
  (10 < List.length log)%nat /\
  exists fig, draw_log log = inr (Some fig) /\
    List.length (x_data fig) = List.length (y_data fig) /\
    (1 <= List.length (x_data fig) <= 1999)%nat /\
    hd_error (x_data fig) = hd_error (map fst log) /\
    hd_error (y_data fig) = hd_error (map snd log).
Proof.
  destruct (draw_log_cases log) as [H|(L & step & Hs & Es & E)]; [left; exact H|].
  right. split; [exact L|]. eexists. split; [exact E|]. cbn [x_data y_data].
  split; [apply every_nth_length|].
  pose proof (every_nth_bound _ _ fst step log Hs 0%nat) as B.
  rewrite Nat.Div0.mod_0_l, Nat.eqb_refl, Nat.add_0_r in B.
  destruct log as [|e log]; [simpl in L; lia|].
  rewrite !every_nth_first in *. cbn [List.length hd_error map] in *.
  split; [|split; reflexivity].
  split; [lia|]. subst step.
  apply (sample_size_bound (S (List.length log))); [lia|exact B].
Qed.

(** X20.  A log of more than 10 and fewer than 2000 entries is drawn in full:
    the sample size of 1000 is not a bound on the number of points. *)
Theorem short_logs_are_drawn_in_full (log : list (Q * Z)) :
  (10 < List.length log < 2000)%nat ->
  draw_log log = inr (Some (mkFigure (map fst log) (map snd log))).
Proof.
  intros [L U]. destruct (draw_log_cases log) as [[H _]|(_ & step & Hs & Es & E)]; [lia|].
  rewrite sample_step_one in Es by lia. subst step.
  rewrite !every_nth_all in E. exact E.
Qed.

Lemma short_logs_are_drawn_in_full_witness :
  draw_log long_log = inr (Some (mkFigure (map fst long_log) (map snd long_log))) /\
  List.length (map fst long_log) = 1999%nat.
Proof.
  split.
  - apply (short_logs_are_drawn_in_full long_log).
    unfold long_log. rewrite repeat_length. lia.
  - unfold long_log. rewrite length_map, repeat_length. reflexivity.
Defined.

Lemma chart_in_time_order (t T : Q) (v : Z) (log : list (Q * Z)) (fig : Figure) :
  log_ok t v log -> t <= T -> draw_log log = inr (Some fig) ->
  StronglySorted Qle (x_data fig) /\ Forall (fun x => x <= T) (x_data fig) /\
  Forall (fun y => (0 <= y)%Z) (y_data fig).
Proof.
  intros Lo Le E. destruct (log_ok_within _ T _ _ Lo Le) as [S F].
  destruct (draw_log_cases log) as [[_ K]|(_ & step & _ & _ & K)];
    rewrite K in E; inversion E; subst; clear E. cbn [x_data y_data].
  split; [apply every_nth_sorted; exact S|].
  split; apply every_nth_Forall; apply Forall_map;
    (eapply Forall_impl; [|exact F]); intros e [H1 H2]; assumption.
Qed.

(** X21.  The charts of the logs of a run that returned are in the order of
    time: in the figure drawn from [queueLengths], [basketsHistory] or
    [QueueLen] the times do not decrease and are not after the horizon,
    and the values are not negative. *)
Theorem charts_are_in_time_order :
  (forall fuel p rng s fig,
     TaskA.RunSim fuel p rng = TaskA.Return s ->
     draw_log (TaskA.queueLengths s) = inr (Some fig) \/
     draw_log (TaskA.basketsHistory s) = inr (Some fig) ->
     StronglySorted Qle (x_data fig) /\
     Forall (fun x => x <= TaskA.simTime p) (x_data fig) /\
     Forall (fun y => (0 <= y)%Z) (y_data fig)) /\
  (forall fuel p rng s fig,
     TaskB.RunSim fuel p rng = TaskB.Return s ->
     draw_log (TaskB.QueueLen s) = inr (Some fig) ->
     StronglySorted Qle (x_data fig) /\
     Forall (fun x => x <= TaskB.SimTime p) (x_data fig) /\
     Forall (fun y => (0 <= y)%Z) (y_data fig)).
Proof.
  split; intros fuel p rng s fig H D.
  - destruct (store_Return_more _ _ _ _ H) as (Pos & w1 & O & M & ->).
    destruct (finish_same p (obj w1)) as (_ & _ & Eq & _). rewrite Eq in D.
    destruct (finish_logs p (obj w1)) as (Eb & _). rewrite Eb in D.
    pose proof (clock_now (st_clock O)) as L.
    destruct D as [D|D].
    + eapply chart_in_time_order; [apply (more_queue (sm_model M))|exact L|exact D].
    + eapply chart_in_time_order; [apply (more_baskets (sm_model M))|exact L|exact D].
  - destruct (library_Return_more _ _ _ _ H) as (Pos & w1 & O & M & ->).
    pose proof (clock_now (lib_clock O)) as L.
    eapply chart_in_time_order; [apply (lmore_queue (lm_model M))|exact L|exact D].
Qed.

Lemma charts_are_in_time_order_witness :
  exists s fig,
    TaskA.RunSim 64 store_params burst_stream = TaskA.Return s /\
    draw_log (TaskA.queueLengths s) = inr (Some fig) /\
    List.length (x_data fig) = 20%nat /\
    StronglySorted Qle (x_data fig).
Proof.
  eexists. eexists. split; [vm_compute; reflexivity|].
  split; [vm_compute; reflexivity|]. split; [reflexivity|].
  eapply (proj1 charts_are_in_time_order 64%nat store_params burst_stream).
  - vm_compute. reflexivity.
  - left. vm_compute. reflexivity.
Defined.

End Dashboards.
